(** * RunCellpose: the orchestration around the Cellpose calls

    A shallow embedding of [cellprofiler/modules/runcellpose.py]:
    the channel composer, the diameter bookkeeping, the model cache
    ([load_models]) and [run].  Numpy arrays are nested lists, the
    module and the workspace are threaded through a small state and
    exception monad, and the Cellpose / scikit-image entry points are
    section variables: the module treats them as black boxes. *)

From Stdlib Require Import String List ZArith QArith Bool Arith Lia.
Import ListNotations.

Set Implicit Arguments.
Set Warnings "-register-all".
Close Scope Q_scope.
Open Scope nat_scope.

(** ** Python values *)

Module Py.

(** The exceptions the module can end with. *)
Inductive exn : Type :=
| ValueError (msg : string)
| KeyError (name : string)
| IndexError
| AxisError
| AttributeError
| InferenceError (msg : string).

(** [needle in hay] on Python strings. *)
Fixpoint str_contains (needle hay : string) : bool :=
  String.prefix needle hay ||
  match hay with
  | EmptyString => false
  | String _ rest => str_contains needle rest
  end.

(** [name in names] for a collection of strings. *)
Definition str_in (name : string) (names : list string) : bool :=
  existsb (String.eqb name) names.

End Py.
Export Py.

(** ** Numpy arrays *)

Module Np.

(** An n-dimensional array is a tree whose inner nodes are axes.  The
    arrays numpy builds are rectangular ([rect]); an axis of length 0
    forgets the lengths of the axes below it, so statements about
    shapes are made for arrays without empty axes. *)
Inductive ndarray (A : Type) : Type :=
| Scalar (a : A)
| Axis (xs : list (ndarray A)).

Arguments Scalar {A} a.
Arguments Axis {A} xs.

Fixpoint shape_eqb (s1 s2 : list nat) : bool :=
  match s1, s2 with
  | [], [] => true
  | a :: s1', b :: s2' => (a =? b) && shape_eqb s1' s2'
  | _, _ => false
  end.

Section Arrays.
Context {A : Type}.

Fixpoint shape (t : ndarray A) : list nat :=
  match t with
  | Scalar _ => []
  | Axis xs => length xs :: match xs with
                            | [] => []
                            | x :: _ => shape x
                            end
  end.

Definition ndim (t : ndarray A) : nat := length (shape t).

(** [t[i0, i1, ...]] for a full index. *)
Fixpoint get (idx : list nat) (t : ndarray A) : option A :=
  match idx, t with
  | [], Scalar a => Some a
  | i :: rest, Axis xs =>
      match nth_error xs i with
      | Some x => get rest x
      | None => None
      end
  | _, _ => None
  end.

Fixpoint rect (t : ndarray A) : bool :=
  match t with
  | Scalar _ => true
  | Axis xs =>
      forallb rect xs &&
      match xs with
      | [] => true
      | x :: rest => forallb (fun y => shape_eqb (shape y) (shape x)) rest
      end
  end.

(** Every element of the array, in C order. *)
Fixpoint ravel (t : ndarray A) : list A :=
  match t with
  | Scalar a => [a]
  | Axis xs => flat_map ravel xs
  end.

Fixpoint zip3 {B : Type} (f : B -> B -> B -> B) (xs ys zs : list B) : list B :=
  match xs, ys, zs with
  | x :: xs', y :: ys', z :: zs' => f x y z :: zip3 f xs' ys' zs'
  | _, _, _ => []
  end.

(** [numpy.stack((a, b, c), axis=k)] for [0 <= k <= ndim]. *)
Fixpoint stack3 (k : nat) (a b c : ndarray A) : ndarray A :=
  match k with
  | 0 => Axis [a; b; c]
  | S k' =>
      match a, b, c with
      | Axis xs, Axis ys, Axis zs => Axis (zip3 (stack3 k') xs ys zs)
      | _, _, _ => Axis [a; b; c]
      end
  end.

(** The axis of the result, which has one more dimension than the
    inputs: numpy accepts [-(n+1) <= axis <= n]. *)
Definition normalize_axis (axis : Z) (n : nat) : option nat :=
  if (0 <=? axis)%Z && (axis <=? Z.of_nat n)%Z then Some (Z.to_nat axis)
  else if (axis <? 0)%Z && (- Z.of_nat n - 1 <=? axis)%Z
       then Some (Z.to_nat (axis + Z.of_nat n + 1))
       else None.

Definition np_stack3 (a b c : ndarray A) (axis : Z) : exn + ndarray A :=
  if shape_eqb (shape a) (shape b) && shape_eqb (shape a) (shape c) then
    match normalize_axis axis (ndim a) with
    | Some k => inr (stack3 k a b c)
    | None => inl AxisError
    end
  else inl (ValueError "all input arrays must have the same shape").

(** [numpy.squeeze]: axes of length one are dropped. *)
Fixpoint squeeze (t : ndarray A) : ndarray A :=
  match t with
  | Scalar a => Scalar a
  | Axis xs =>
      match xs with
      | [x] => squeeze x
      | _ => Axis (map squeeze xs)
      end
  end.

End Arrays.

Fixpoint nd_map {A B : Type} (f : A -> B) (t : ndarray A) : ndarray B :=
  match t with
  | Scalar a => Scalar (f a)
  | Axis xs => Axis (map (nd_map f) xs)
  end.

(** [numpy.zeros_like]. *)
Definition zeros_like (t : ndarray Q) : ndarray Q := nd_map (fun _ => 0%Q) t.

(** An index lies inside a shape. *)
Fixpoint in_bounds (idx shp : list nat) : Prop :=
  match idx, shp with
  | [], [] => True
  | i :: idx', d :: shp' => i < d /\ in_bounds idx' shp'
  | _, _ => False
  end.

(** An index of the shape lies on one of the boundary faces: some
    coordinate is the first or the last along its axis. *)
Fixpoint on_edge (idx shp : list nat) : bool :=
  match idx, shp with
  | i :: idx', d :: shp' => (i =? 0) || (S i =? d) || on_edge idx' shp'
  | _, _ => false
  end.

(** An order-0 (nearest-neighbour) resize to the shape [shp]: output
    position [i] along an axis of length [d] reads the input position
    nearest to its centre.  It stands in for
    [skimage.transform.resize(..., order=0)] where a concrete resize is
    needed. *)
Fixpoint nearest_resize {A : Type} (shp : list nat) (t : ndarray A) : ndarray A :=
  match shp with
  | [] => t
  | d :: shp' =>
      match t with
      | Scalar a => Axis (repeat (nearest_resize shp' (Scalar a)) d)
      | Axis xs =>
          Axis (map (fun i =>
                       match nth_error xs (((2 * i + 1) * length xs) / (2 * d)) with
                       | Some x => nearest_resize shp' x
                       | None => Axis []
                       end) (seq 0 d))
      end
  end.

End Np.
Export Np.

(** ** Label maps *)

Module Labels.

(** A label map: 0 is background, positive integers are objects. *)
Abbreviation labels := (ndarray Z).

(** The labels found on the boundary faces of the array: everything in
    the first and in the last slice along the leading axis, and the
    boundary labels of every slice. *)
Fixpoint edge_labels (t : labels) : list Z :=
  match t with
  | Scalar _ => []
  | Axis xs =>
      match xs with
      | [] => []
      | x :: _ => ravel x
      end ++ ravel (last xs (Axis [])) ++ flat_map edge_labels xs
  end.

Definition label_in (l : Z) (ls : list Z) : bool := existsb (Z.eqb l) ls.

(** The first step of [cellpose.utils.remove_edge_masks]:
    [find_objects] gives the bounding box of each of the labels 1, 2,
    ...; a label whose box starts at 0 or stops at the end of an axis,
    that is a positive label with a pixel on a boundary face, is set
    to 0 everywhere. *)
Definition cleared (masks : labels) (l : Z) : Z :=
  if (0 <? l)%Z && label_in l (edge_labels masks) then 0%Z else l.

Definition clear_edge_masks (masks : labels) : labels :=
  nd_map (cleared masks) masks.

(** The position of [l] among the sorted distinct values [vals]: the
    number of distinct values below it. *)
Definition position (vals : list Z) (l : Z) : Z :=
  Z.of_nat (length (nodup Z.eq_dec (filter (fun v => (v <? l)%Z) vals))).

(** [numpy.unique(masks, return_inverse=True)], reshaped to the shape
    of [masks]: every value is replaced by its position among the
    sorted distinct values of the array. *)
Definition unique_inverse (masks : labels) : labels :=
  nd_map (position (ravel masks)) masks.

(** [cellpose.utils.remove_edge_masks(masks, change_index=True)], the
    library function that [run] imports at line 506 and calls with its
    defaults at line 507; it is not part of this module's source.
    Masks with pixels on the edge of the image are removed, and with
    [change_index], the default, the indexing is changed so that no
    label number is missing. *)
Definition utils_remove_edge_masks (masks : labels) : labels :=
  unique_inverse (clear_edge_masks masks).

(** A positive label without a pixel on a boundary face. *)
Definition survives (y : labels) (l : Z) : bool :=
  (0 <? l)%Z && negb (label_in l (edge_labels y)).

(** One more than the number of surviving objects with a smaller
    label. *)
Definition new_label (y : labels) (l : Z) : Z :=
  (1 + Z.of_nat (length (nodup Z.eq_dec
                           (filter (fun v => survives y v && (v <? l)%Z) (ravel y)))))%Z.

(** The label [l] has a pixel on a boundary face of [y]. *)
Definition touches_edge (l : Z) (y : labels) : Prop :=
  exists idx, get idx y = Some l /\ on_edge idx (shape y) = true.

End Labels.
Export Labels.

(** ** Settings, images and the workspace *)

Module Host.

(** A setting object; the module reads it through [.value]. *)
Record Setting (T : Type) : Type := mk_setting { value : T }.

Definition Binary := Setting bool.
Definition Integer := Setting Z.
Definition Float := Setting Q.
Definition Choice := Setting string.
Definition Text := Setting string.

(** The settings of [create_settings], in the order of [settings]. *)
Record Settings : Type := {
  x_name : Text;
  expected_diameter : Integer;
  mode : Choice;
  y_name : Text;
  use_gpu : Binary;
  supply_nuclei : Binary;
  nuclei_image : Text;
  save_probabilities : Binary;
  probabilities_name : Text;
  model_directory : Text;
  model_file_name : Text;
  flow_threshold : Float;
  cellprob_threshold : Float;
  manual_GPU_memory_share : Float;
  stitch_threshold : Float;
  do_3D : Binary;
  min_size : Integer;
  invert : Binary;
  remove_edge_masks : Binary;
  denoise : Binary;
  denoise_type : Choice
}.

Definition MODEL_NAMES : list string :=
  ["cyto3"; "nuclei"; "cyto2_cp3"; "tissuenet_cp3"; "livecell_cp3"; "yeast_PhC_cp3";
   "yeast_BF_cp3"; "bact_phase_cp3"; "bact_fluor_cp3"; "deepbacs_cp3"; "cyto2"; "cyto"]%string.

Definition DENOISER_NAMES : list string :=
  ["denoise_cyto3"; "deblur_cyto3"; "upsample_cyto3";
   "denoise_nuclei"; "deblur_nuclei"; "upsample_nuclei"]%string.

(** Only these models support size scaling. *)
Definition SIZED_MODELS : list string := ["cyto3"; "cyto2"; "cyto"; "nuclei"]%string.

(** A loaded segmentation model: [models.Cellpose] for the sized
    families, [models.CellposeModel] for the others, with the arguments
    it was built from. *)
Inductive model_class : Type := Cellpose | CellposeModel.

Record Model : Type := {
  m_class : model_class;
  m_model_type : string;
  m_gpu : bool
}.

(** A loaded [denoise.DenoiseModel]. *)
Record DenoiseModel : Type := {
  dn_model_type : string;
  dn_gpu : bool;
  dn_chan2 : bool
}.

(** The module instance: its settings and the four attributes of
    [__init__]. *)
Record RunCellpose : Type := {
  settings : Settings;
  show_window : bool;
  current_model : option Model;
  current_model_params : option (string * bool);
  recon_model : option DenoiseModel;
  recon_model_params : option (string * bool * bool)
}.

(** An image of the image set.  The spacing has one component per
    dimension, so the first two always exist; a component is a float,
    kept here by its exact value. *)
Record Image : Type := {
  pixel_data : ndarray Q;
  multichannel : bool;
  volumetric : bool;
  dimensions : nat;
  parent_image : option string;
  spacing0 : Q;
  spacing1 : Q
}.

(** [Image(pixels, parent_image=p, convert=False, dimensions=d)]. *)
Definition Image_init (pixels : ndarray Q) (p : option string) (d : nat) : Image :=
  {| pixel_data := pixels; multichannel := false; volumetric := d =? 3;
     dimensions := d; parent_image := p; spacing0 := 1%Q; spacing1 := 1%Q |}.

Record Objects : Type := {
  segmented : labels;
  objects_parent_image : option string
}.

Record DisplayData : Type := {
  dd_recon : option (ndarray Q);
  dd_probabilities : option (ndarray Q);
  dd_x_data : option (ndarray Q);
  dd_y_data : option labels;
  dd_dimensions : option nat
}.

Record Workspace : Type := {
  image_set : list (string * Image);
  object_set : list (string * Objects);
  display_data : DisplayData
}.

Fixpoint lookup {V : Type} (name : string) (kvs : list (string * V)) : option V :=
  match kvs with
  | [] => None
  | (k, v) :: rest => if String.eqb name k then Some v else lookup name rest
  end.

(** The keyword arguments of the segmentation call. *)
Record eval_args : Type := {
  ea_x : ndarray Q;
  ea_channels : list Z;
  ea_diameter : option Z;
  ea_do_3D : bool;
  ea_anisotropy : Q;
  ea_flow_threshold : Q;
  ea_cellprob_threshold : Q;
  ea_stitch_threshold : Q;
  ea_min_size : Z;
  ea_invert : bool
}.

(** The keyword arguments of [skimage.transform.resize]. *)
Record resize_kwargs : Type := {
  preserve_range : bool;
  order : option Z
}.

Definition default_resize : resize_kwargs := {| preserve_range := false; order := None |}.
Definition nearest_labels : resize_kwargs := {| preserve_range := true; order := Some 0%Z |}.

(** What the module asks of the model provider and of the accelerator,
    in the order it asks. *)
Inductive event : Type :=
| SetMemoryFraction (share : Q)
| LoadModel (m : Model)
| LoadDenoiser (d : DenoiseModel)
| DenoiseEval (d : DenoiseModel) (x : ndarray Q) (diameter : option Z) (channels : list Z)
| ModelEval (m : Model) (args : eval_args)
| EmptyCache
| AddMeasurements.

Definition is_model_load (e : event) : bool :=
  match e with LoadModel _ => true | _ => false end.
Definition is_denoiser_load (e : event) : bool :=
  match e with LoadDenoiser _ => true | _ => false end.
Definition is_inference (e : event) : bool :=
  match e with DenoiseEval _ _ _ _ | ModelEval _ _ => true | _ => false end.

(** The segmentation calls among the events. *)
Fixpoint model_evals (evs : list event) : list eval_args :=
  match evs with
  | [] => []
  | ModelEval _ args :: rest => args :: model_evals rest
  | _ :: rest => model_evals rest
  end.

(** The tensor and channel list of the first inference call, denoiser
    or segmentation model. *)
Fixpoint first_inference (evs : list event) : option (ndarray Q * list Z) :=
  match evs with
  | [] => None
  | DenoiseEval _ x _ ch :: _ => Some (x, ch)
  | ModelEval _ args :: _ => Some (ea_x args, ea_channels args)
  | _ :: rest => first_inference rest
  end.

End Host.
Export Host.

(** ** State, exceptions and events *)

Module Eff.

Record St : Type := { self : RunCellpose; workspace : Workspace }.

(** A computation ends with a value or an exception, in a new state,
    and has issued some events.  What happened before an exception
    stays: the state and the events up to it are kept. *)
Definition M (A : Type) : Type := St -> (exn + A) * St * list event.

Definition ret {A : Type} (a : A) : M A := fun s => (inr a, s, []).

Definition bind {A B : Type} (m : M A) (f : A -> M B) : M B := fun s =>
  match m s with
  | (inr a, s1, e1) => let '(r, s2, e2) := f a s1 in (r, s2, e1 ++ e2)
  | (inl e, s1, e1) => (inl e, s1, e1)
  end.

Definition raise {A : Type} (e : exn) : M A := fun s => (inl e, s, []).

Definition lift {A : Type} (r : exn + A) : M A := fun s => (r, s, []).

Definition emit (ev : event) : M unit := fun s => (inr tt, s, [ev]).

(** A call to an external service: it is issued, then it returns or
    raises. *)
Definition call {A : Type} (ev : event) (r : exn + A) : M A := fun s => (r, s, [ev]).

Definition get_self : M RunCellpose := fun s => (inr (self s), s, []).

Definition get_workspace : M Workspace := fun s => (inr (workspace s), s, []).

Definition upd_self (f : RunCellpose -> RunCellpose) : M unit := fun s =>
  (inr tt, {| self := f (self s); workspace := workspace s |}, []).

Definition upd_workspace (f : Workspace -> Workspace) : M unit := fun s =>
  (inr tt, {| self := self s; workspace := f (workspace s) |}, []).

(** [try: body finally: cleanup]: the cleanup runs on every exit; an
    exception of the cleanup takes the place of the body's outcome. *)
Definition finally {A : Type} (body : M A) (cleanup : M unit) : M A := fun s =>
  let '(r, s1, e1) := body s in
  match cleanup s1 with
  | (inr _, s2, e2) => (r, s2, e1 ++ e2)
  | (inl e, s2, e2) => (inl e, s2, e1 ++ e2)
  end.

Definition when (b : bool) (m : M unit) : M unit := if b then m else ret tt.

Definition result {A : Type} (o : (exn + A) * St * list event) : exn + A := fst (fst o).
Definition final {A : Type} (o : (exn + A) * St * list event) : St := snd (fst o).
Definition events {A : Type} (o : (exn + A) * St * list event) : list event := snd o.

Definition raised {A : Type} (r : exn + A) : bool :=
  match r with inl _ => true | inr _ => false end.

End Eff.
Export Eff.

Declare Scope eff_scope.
Delimit Scope eff_scope with eff.
Notation "x <- c1 ;; c2" := (bind c1 (fun x => c2))
  (at level 61, c1 at next level, right associativity) : eff_scope.
Notation "c1 ;; c2" := (bind c1 (fun _ => c2))
  (at level 61, right associativity) : eff_scope.
Open Scope eff_scope.

(** ** The module *)

Module Cellpose.

(** The attribute writes of [load_models]. *)
Definition set_current_model (m : option Model) (p : option (string * bool))
  (me : RunCellpose) : RunCellpose :=
  {| settings := settings me; show_window := show_window me;
     current_model := m; current_model_params := p;
     recon_model := recon_model me; recon_model_params := recon_model_params me |}.

Definition set_recon_model (d : option DenoiseModel) (me : RunCellpose) : RunCellpose :=
  {| settings := settings me; show_window := show_window me;
     current_model := current_model me; current_model_params := current_model_params me;
     recon_model := d; recon_model_params := recon_model_params me |}.

Definition set_recon_model_params (p : option (string * bool * bool))
  (me : RunCellpose) : RunCellpose :=
  {| settings := settings me; show_window := show_window me;
     current_model := current_model me; current_model_params := current_model_params me;
     recon_model := recon_model me; recon_model_params := p |}.

(** The host changes settings between runs. *)
Definition configure (cfg : Settings) (me : RunCellpose) : RunCellpose :=
  {| settings := cfg; show_window := show_window me;
     current_model := current_model me; current_model_params := current_model_params me;
     recon_model := recon_model me; recon_model_params := recon_model_params me |}.

(** [__init__]. *)
Definition init (cfg : Settings) (show : bool) : RunCellpose :=
  {| settings := cfg; show_window := show;
     current_model := None; current_model_params := None;
     recon_model := None; recon_model_params := None |}.

(** [stored != params] for the stored key of the segmentation model. *)
Definition model_params_differ (stored : option (string * bool)) (p : string * bool) : bool :=
  match stored with
  | None => true
  | Some (n, g) => negb (String.eqb n (fst p) && Bool.eqb g (snd p))
  end.

(** [stored != params] for the stored key of the denoiser. *)
Definition recon_params_differ (stored : option (string * bool * bool))
  (p : string * bool * bool) : bool :=
  match stored with
  | None => true
  | Some (n, g, c) =>
      negb (String.eqb n (fst (fst p)) && Bool.eqb g (snd (fst p)) && Bool.eqb c (snd p))
  end.

(** [self.mode.value != "nuclei" and self.supply_nuclei.value]. *)
Definition wants_nuclei (cfg : Settings) : bool :=
  negb (String.eqb (value (mode cfg)) "nuclei") && value (supply_nuclei cfg).

(** [self.denoise.value and "upsample" in self.denoise_type.value]. *)
Definition upsampled (cfg : Settings) : bool :=
  value (denoise cfg) && str_contains "upsample" (value (denoise_type cfg)).

(** Line 442. *)
Definition resolve_diameter (cfg : Settings) : option Z :=
  if (value (expected_diameter cfg) >? 0)%Z then Some (value (expected_diameter cfg)) else None.

(** Lines 477-481: upsampling models scale object diameter to a target
    size. *)
Definition denoised_diameter (cfg : Settings) (diam : option Z) : option Z :=
  if String.eqb (value (denoise_type cfg)) "upsample_cyto3" then Some 30%Z
  else if String.eqb (value (denoise_type cfg)) "upsample_nuclei" then Some 17%Z
  else diam.

(** The model the requested key loads (lines 404-409). *)
Definition model_for (p : string * bool) : Model :=
  {| m_class := if str_in (fst p) SIZED_MODELS then Cellpose else CellposeModel;
     m_model_type := fst p; m_gpu := snd p |}.

Definition denoiser_for (p : string * bool * bool) : DenoiseModel :=
  {| dn_model_type := fst (fst p); dn_gpu := snd (fst p); dn_chan2 := snd p |}.

(** The identifiers of the settings, for [visible_settings]. *)
Inductive setting_id : Type :=
| S_x_name | S_expected_diameter | S_mode | S_y_name | S_use_gpu | S_supply_nuclei
| S_nuclei_image | S_save_probabilities | S_probabilities_name | S_model_directory
| S_model_file_name | S_flow_threshold | S_cellprob_threshold
| S_manual_GPU_memory_share | S_stitch_threshold | S_do_3D | S_min_size | S_invert
| S_remove_edge_masks | S_denoise | S_denoise_type.

Definition setting_id_eqb (a b : setting_id) : bool :=
  match a, b with
  | S_x_name, S_x_name | S_expected_diameter, S_expected_diameter | S_mode, S_mode
  | S_y_name, S_y_name | S_use_gpu, S_use_gpu | S_supply_nuclei, S_supply_nuclei
  | S_nuclei_image, S_nuclei_image | S_save_probabilities, S_save_probabilities
  | S_probabilities_name, S_probabilities_name | S_model_directory, S_model_directory
  | S_model_file_name, S_model_file_name | S_flow_threshold, S_flow_threshold
  | S_cellprob_threshold, S_cellprob_threshold
  | S_manual_GPU_memory_share, S_manual_GPU_memory_share
  | S_stitch_threshold, S_stitch_threshold | S_do_3D, S_do_3D | S_min_size, S_min_size
  | S_invert, S_invert | S_remove_edge_masks, S_remove_edge_masks
  | S_denoise, S_denoise | S_denoise_type, S_denoise_type => true
  | _, _ => false
  end.

(** Lines 337-377. *)
Definition visible_settings (cfg : Settings) : list setting_id :=
  [S_mode; S_x_name]
  ++ (if negb (String.eqb (value (mode cfg)) "nuclei")
      then S_supply_nuclei :: (if value (supply_nuclei cfg) then [S_nuclei_image] else [])
      else [])
  ++ (if String.eqb (value (mode cfg)) "custom"
      then [S_model_directory; S_model_file_name] else [])
  ++ [S_expected_diameter; S_denoise]
  ++ (if value (denoise cfg) then [S_denoise_type] else [])
  ++ [S_cellprob_threshold; S_min_size; S_flow_threshold; S_y_name; S_invert;
      S_save_probabilities]
  ++ (if value (save_probabilities cfg) then [S_probabilities_name] else [])
  ++ [S_do_3D]
  ++ (if negb (value (do_3D cfg)) then [S_stitch_threshold] else [])
  ++ [S_remove_edge_masks].

(** What the module calls and does not define. *)
Record External : Type := {
  (** [bool(setting)] for a [Binary] setting object; the class is the
      host's, and the host's [Binary.__bool__] returns the value. *)
  truth : Binary -> bool;
  (** [os.path.join(model_directory.get_absolute_path(), model_file)]. *)
  model_path : string -> string -> string;
  (** [DenoiseModel.eval(x, diameter=, channels=)]. *)
  recon_eval : DenoiseModel -> ndarray Q -> option Z -> list Z -> exn + ndarray Q;
  (** [Cellpose.eval] / [CellposeModel.eval]: the masks and the flows. *)
  model_eval : Model -> eval_args -> exn + (labels * list (ndarray Q));
  (** [skimage.transform.resize] on a label map and on an image. *)
  resize_labels : labels -> list nat -> resize_kwargs -> labels;
  resize_image : ndarray Q -> list nat -> resize_kwargs -> ndarray Q;
  (** [cellpose.utils.remove_edge_masks]. *)
  edge_remover : labels -> labels;
  (** [a / b] on two floats: the binary64 quotient the interpreter
      returns.  It raises on a zero divisor, which the spacing of an
      image never is. *)
  float_div : Q -> Q -> Q
}.

End Cellpose.
Export Cellpose.

Section Run.
Variable ext : External.

(** [load_models], lines 388-429: only load new model instances if
    settings have changed. *)
Definition load_models : M unit :=
  me <- get_self ;;
  let cfg := settings me in
  when (value (use_gpu cfg))
       (emit (SetMemoryFraction (value (manual_GPU_memory_share cfg)))) ;;
  let model_name := value (mode cfg) in
  let model_name :=
    if String.eqb model_name "custom"
    then model_path ext (value (model_directory cfg)) (value (model_file_name cfg))
    else model_name in
  let model_params := (model_name, value (use_gpu cfg)) in
  when (model_params_differ (current_model_params me) model_params)
       (emit (LoadModel (model_for model_params)) ;;
        upd_self (set_current_model (Some (model_for model_params)) (Some model_params))) ;;
  if value (denoise cfg) then
    me <- get_self ;;
    let recon_params :=
      (value (denoise_type cfg), value (use_gpu cfg), wants_nuclei cfg) in
    when (recon_params_differ (recon_model_params me) recon_params)
         (emit (LoadDenoiser (denoiser_for recon_params)) ;;
          upd_self (set_recon_model (Some (denoiser_for recon_params)))) ;;
    upd_self (set_recon_model_params (Some recon_params))
  else
    upd_self (set_recon_model None) ;;
    upd_self (set_recon_model_params None).

(** [images.get_image(name)]. *)
Definition get_image (name : string) : M Image :=
  ws <- get_workspace ;;
  match lookup name (image_set ws) with
  | Some img => ret img
  | None => raise (KeyError name)
  end.

(** Lines 449-466: the tensor and the channel list sent to
    inference. *)
Definition compose (cfg : Settings) (x_data : ndarray Q) : M (ndarray Q * list Z) :=
  if wants_nuclei cfg then
    nuc_image <- get_image (value (nuclei_image cfg)) ;;
    (* CellPose expects RGB, we'll have a blank red channel, cells in
       green and nuclei in blue. *)
    x_data <- lift (np_stack3 (zeros_like x_data) x_data (pixel_data nuc_image)
                      (if value (do_3D cfg) then 1%Z else (-1)%Z)) ;;
    ret (x_data, [2; 3]%Z)
  else
    ret (x_data, [0; 0]%Z).

(** The keyword arguments of line 488. *)
Definition seg_args (cfg : Settings) (input_data : ndarray Q) (channels : list Z)
  (diam : option Z) (anisotropy : Q) : eval_args :=
  {| ea_x := input_data;
     ea_channels := channels;
     ea_diameter := diam;
     ea_do_3D := value (do_3D cfg);
     ea_anisotropy := anisotropy;
     ea_flow_threshold := value (flow_threshold cfg);
     ea_cellprob_threshold := value (cellprob_threshold cfg);
     ea_stitch_threshold := value (stitch_threshold cfg);
     ea_min_size := value (min_size cfg);
     ea_invert := value (invert cfg) |}.

(** Lines 471-486: the optional denoising pass. *)
Definition denoise_pass (cfg : Settings) (x_data : ndarray Q) (diam : option Z)
  (channels : list Z) : M (ndarray Q * option Z * list Z) :=
  me <- get_self ;;
  match recon_model me with
  | Some recon =>
      input_data <- call (DenoiseEval recon x_data diam channels)
                         (recon_eval ext recon x_data diam channels) ;;
      (* Upsampling models scale object diameter to a target size *)
      let diam := denoised_diameter cfg diam in
      (* Result only includes input channels *)
      let channels := if wants_nuclei cfg then [0; 1]%Z else channels in
      ret (input_data, diam, channels)
  | None => ret (x_data, diam, channels)
  end.

(** Lines 501-507: what is done to the label map before it leaves
    the [try] block, the resize first and the edge removal second. *)
Definition postprocess (cfg : Settings) (x : Image) (y_data : labels) : labels :=
  let y_data :=
    if upsampled cfg
    then resize_labels ext y_data (shape (pixel_data x)) nearest_labels
    else y_data in
  let y_data :=
    if truth ext (remove_edge_masks cfg)
    then edge_remover ext y_data
    else y_data in
  y_data.

(** Lines 488-507: the segmentation call and the post-processing of
    its label map. *)
Definition segment (cfg : Settings) (x : Image) (input_data : ndarray Q)
  (channels : list Z) (diam : option Z) (anisotropy : Q)
  : M (labels * list (ndarray Q)) :=
  me <- get_self ;;
  match current_model me with
  | None => raise AttributeError
  | Some model =>
      let args := seg_args cfg input_data channels diam anisotropy in
      out <- call (ModelEval model args) (model_eval ext model args) ;;
      ret (postprocess cfg x (fst out), snd out)
  end.

(** Lines 509-517: the accelerator cache is cleared on every exit; a
    failure to clear it is printed and goes no further. *)
Definition release (cfg : Settings) : M unit :=
  when (value (use_gpu cfg)) (emit EmptyCache).

Definition add_objects (y : Objects) (name : string) (ws : Workspace) : Workspace :=
  {| image_set := image_set ws; object_set := (name, y) :: object_set ws;
     display_data := display_data ws |}.

Definition add_image (name : string) (img : Image) (ws : Workspace) : Workspace :=
  {| image_set := (name, img) :: image_set ws; object_set := object_set ws;
     display_data := display_data ws |}.

Definition set_display (f : DisplayData -> DisplayData) (ws : Workspace) : Workspace :=
  {| image_set := image_set ws; object_set := object_set ws;
     display_data := f (display_data ws) |}.

Definition show_recon (a : ndarray Q) (d : DisplayData) : DisplayData :=
  {| dd_recon := Some a; dd_probabilities := dd_probabilities d;
     dd_x_data := dd_x_data d; dd_y_data := dd_y_data d;
     dd_dimensions := dd_dimensions d |}.

Definition show_probabilities (a : ndarray Q) (d : DisplayData) : DisplayData :=
  {| dd_recon := dd_recon d; dd_probabilities := Some a;
     dd_x_data := dd_x_data d; dd_y_data := dd_y_data d;
     dd_dimensions := dd_dimensions d |}.

Definition show_result (xd : ndarray Q) (yd : labels) (dims : nat) (d : DisplayData)
  : DisplayData :=
  {| dd_recon := dd_recon d; dd_probabilities := dd_probabilities d;
     dd_x_data := Some xd; dd_y_data := Some yd; dd_dimensions := Some dims |}.

(** [flows[2]]. *)
Definition py_index {A : Type} (l : list A) (i : nat) : exn + A :=
  match nth_error l i with
  | Some a => inr a
  | None => inl IndexError
  end.

(** Lines 519-558: the objects, the probability image, the
    measurements and the display data. *)
Definition publish (me : RunCellpose) (x : Image) (x_data input_data : ndarray Q)
  (y_data : labels) (flows : list (ndarray Q)) : M unit :=
  let cfg := settings me in
  let y := {| segmented := y_data; objects_parent_image := parent_image x |} in
  upd_workspace (add_objects y (value (y_name cfg))) ;;
  when (value (denoise cfg) && show_window me)
       (* Need to remove unnecessary extra axes *)
       (let denoised_image := squeeze input_data in
        let denoised_image :=
          if str_contains "upsample" (value (denoise_type cfg))
          then resize_image ext denoised_image (shape x_data) default_resize
          else denoised_image in
        upd_workspace (set_display (show_recon denoised_image))) ;;
  when (value (save_probabilities cfg))
       (* Flows come out sized relative to CellPose's inbuilt model size. *)
       (flows2 <- lift (py_index flows 2) ;;
        let size_corrected := resize_image ext flows2 (shape y_data) default_resize in
        let prob_image :=
          Image_init size_corrected (parent_image x) (length (shape size_corrected)) in
        upd_workspace (add_image (value (probabilities_name cfg)) prob_image) ;;
        when (show_window me)
             (upd_workspace (set_display (show_probabilities size_corrected)))) ;;
  emit AddMeasurements ;;
  when (show_window me)
       (upd_workspace
          (set_display
             (show_result (if volumetric x then pixel_data x else x_data)
                          y_data (dimensions x)))).

(** Lines 438-440: [0.0], or in 3D mode the float quotient of the
    first two spacings. *)
Definition anisotropy_of (cfg : Settings) (x : Image) : Q :=
  if value (do_3D cfg) then float_div ext (spacing0 x) (spacing1 x) else 0%Q.

(** Lines 470-517: the [try] block with its [finally]. *)
Definition inference (cfg : Settings) (x : Image) (x_data : ndarray Q)
  (channels : list Z) (diam : option Z) (anisotropy : Q)
  : M (ndarray Q * labels * list (ndarray Q)) :=
  finally
    (den <- denoise_pass cfg x_data diam channels ;;
     let input_data := fst (fst den) in
     seg <- segment cfg x input_data (snd den) (snd (fst den)) anisotropy ;;
     ret (input_data, fst seg, snd seg))
    (release cfg).

(** [run], lines 431-558. *)
Definition run : M unit :=
  me <- get_self ;;
  let cfg := settings me in
  x <- get_image (value (x_name cfg)) ;;
  let x_data := pixel_data x in
  let anisotropy := anisotropy_of cfg x in
  let diam := resolve_diameter cfg in
  if multichannel x then
    raise (ValueError
             "Color images are not currently supported. Please provide greyscale images.")
  else
    composed <- compose cfg x_data ;;
    let x_data := fst composed in
    let channels := snd composed in
    load_models ;;
    out <- inference cfg x x_data channels diam anisotropy ;;
    publish me x x_data (fst (fst out)) (snd (fst out)) (snd out).

End Run.

(** ** The cache invariant *)

(** The two cached handles are the ones their stored keys load.  It
    holds after [__init__], and [load_models] and [run] keep it, so it
    holds in every state the module can reach. *)
Definition cache_ok (me : RunCellpose) : Prop :=
  current_model me = option_map model_for (current_model_params me) /\
  recon_model me = option_map denoiser_for (recon_model_params me).

(** The key [load_models] asks for (lines 396-401). *)
Definition requested_model (ext : External) (cfg : Settings) : string * bool :=
  (if String.eqb (value (mode cfg)) "custom"
   then model_path ext (value (model_directory cfg)) (value (model_file_name cfg))
   else value (mode cfg),
   value (use_gpu cfg)).

(** The key of the denoiser (lines 414-418). *)
Definition requested_denoiser (cfg : Settings) : string * bool * bool :=
  (value (denoise_type cfg), value (use_gpu cfg), wants_nuclei cfg).

(** [load_models] after the host has set the settings to [cfg]. *)
Definition load_with (ext : External) (cfg : Settings) (s : St)
  : (exn + unit) * St * list event :=
  load_models ext {| self := configure cfg (self s); workspace := workspace s |}.

(** The states a module instance can be in: created by [__init__],
    then any interleaving of runs, loads, and changes of the settings
    or of the workspace by the host. *)
Inductive reachable (ext : External) : St -> Prop :=
| reach_init (cfg : Settings) (show : bool) (ws : Workspace) :
    reachable ext {| self := init cfg show; workspace := ws |}
| reach_run (s : St) :
    reachable ext s -> reachable ext (final (run ext s))
| reach_load (s : St) :
    reachable ext s -> reachable ext (final (load_models ext s))
| reach_host (s : St) (cfg : Settings) (ws : Workspace) :
    reachable ext s ->
    reachable ext {| self := configure cfg (self s); workspace := ws |}.

(** [load_models] once for each of the settings in turn. *)
Fixpoint load_sequence (ext : External) (cfgs : list Settings) (s : St)
  : list event * St :=
  match cfgs with
  | [] => ([], s)
  | cfg :: rest =>
      let o := load_with ext cfg s in
      let later := load_sequence ext rest (final o) in
      (events o ++ fst later, snd later)
  end.

(** How often the requested key differs from the one before it. *)
Fixpoint key_changes (ext : External) (stored : option (string * bool))
  (cfgs : list Settings) : nat :=
  match cfgs with
  | [] => 0
  | cfg :: rest =>
      (if model_params_differ stored (requested_model ext cfg) then 1 else 0)
      + key_changes ext (Some (requested_model ext cfg)) rest
  end.

(** ** What a run asks of the provider *)

(** The denoiser calls among the events. *)
Fixpoint denoise_evals (evs : list event)
  : list (DenoiseModel * ndarray Q * option Z * list Z) :=
  match evs with
  | [] => []
  | DenoiseEval d x diam ch :: rest => (d, x, diam, ch) :: denoise_evals rest
  | _ :: rest => denoise_evals rest
  end.

(** The denoiser of a denoiser call and the diameter it was given. *)
Definition called_denoiser (c : DenoiseModel * ndarray Q * option Z * list Z)
  : DenoiseModel := fst (fst (fst c)).
Definition given_diameter (c : DenoiseModel * ndarray Q * option Z * list Z)
  : option Z := snd (fst c).

Definition release_events (cfg : Settings) : list event :=
  if value (use_gpu cfg) then [EmptyCache] else [].

(** With a consistent cache, the tensor that reaches the segmentation
    call: the answer of the requested denoiser to the composed tensor
    when denoising is enabled, the composed tensor otherwise. *)
Definition segmentation_input (ext : External) (cfg : Settings) (xd : ndarray Q)
  (ch : list Z) : exn + ndarray Q :=
  if value (denoise cfg)
  then recon_eval ext (denoiser_for (requested_denoiser cfg)) xd (resolve_diameter cfg) ch
  else inr xd.

(** ... and the arguments of that call. *)
Definition segmentation_request (ext : External) (cfg : Settings) (x : Image)
  (inp : ndarray Q) (ch : list Z) : eval_args :=
  seg_args cfg inp
    (if value (denoise cfg) && wants_nuclei cfg then [0; 1]%Z else ch)
    (if value (denoise cfg) then denoised_diameter cfg (resolve_diameter cfg)
     else resolve_diameter cfg)
    (anisotropy_of ext cfg x).

(** ... and what the provider answers. *)
Definition segmentation_output (ext : External) (cfg : Settings) (x : Image)
  (xd : ndarray Q) (ch : list Z) : exn + (ndarray Q * labels * list (ndarray Q)) :=
  match segmentation_input ext cfg xd ch with
  | inl e => inl e
  | inr inp =>
      match model_eval ext (model_for (requested_model ext cfg))
              (segmentation_request ext cfg x inp ch) with
      | inl e => inl e
      | inr out => inr (inp, fst out, snd out)
      end
  end.

(** [t] is the stack of an all-zero plane, [x] and [nuc]: along a new
    axis right after the leading one in 3D mode, along a new trailing
    axis otherwise. *)
Definition stacked_planes (three_d : bool) (x nuc t : ndarray Q) : Prop :=
  if three_d then
    forall z idx v, get (z :: idx) x = Some v ->
      exists w, get (z :: idx) nuc = Some w /\
        get (z :: 0 :: idx) t = Some 0%Q /\
        get (z :: 1 :: idx) t = Some v /\
        get (z :: 2 :: idx) t = Some w /\
        forall p, 3 <= p -> get (z :: p :: idx) t = None
  else
    forall idx v, get idx x = Some v ->
      exists w, get idx nuc = Some w /\
        get (idx ++ [0]) t = Some 0%Q /\
        get (idx ++ [1]) t = Some v /\
        get (idx ++ [2]) t = Some w /\
        forall p, 3 <= p -> get (idx ++ [p]) t = None.

Definition stacked_shape (three_d : bool) (xs ts : list nat) : Prop :=
  if three_d then
    match xs with
    | d :: rest => ts = d :: 3 :: rest
    | [] => False
    end
  else ts = xs ++ [3].

(** The diameter rule of the upsampling denoisers, for the denoiser
    [d] that was given diameter [dm] and the segmentation call [a]. *)
Definition diameter_after (d : DenoiseModel) (dm : option Z) (a : eval_args) : Prop :=
  (dn_model_type d = "upsample_cyto3"%string -> ea_diameter a = Some 30%Z) /\
  (dn_model_type d = "upsample_nuclei"%string -> ea_diameter a = Some 17%Z) /\
  (dn_model_type d <> "upsample_cyto3"%string ->
   dn_model_type d <> "upsample_nuclei"%string -> ea_diameter a = dm).

(** ** Sentences of the specification, as they are written *)

Module AsStated.

(** A diameter of 0 with a non-sized family or in 3D mode is rejected
    or reaches the model provider as the literal 0. *)
Definition diameter_zero (ext : External) (s : St) : Prop :=
  let cfg := settings (self s) in
  value (expected_diameter cfg) = 0%Z ->
  str_in (value (mode cfg)) SIZED_MODELS = false \/ value (do_3D cfg) = true ->
  raised (result (run ext s)) = true \/
  Forall (fun a => ea_diameter a = Some 0%Z) (model_evals (events (run ext s))).

(** In an auxiliary-image run the channels of the segmentation call
    are [0, 1] exactly when the denoiser that was applied is an
    upsampling variant. *)
Definition channel_collapse (ext : External) (s : St) : Prop :=
  let cfg := settings (self s) in
  let evs := events (run ext s) in
  wants_nuclei cfg = true ->
  Forall (fun a =>
            ea_channels a = [0; 1]%Z <->
            Exists (fun c => str_contains "upsample" (dn_model_type (called_denoiser c)) = true)
                   (denoise_evals evs))
         (model_evals evs).

(** No segmentation call has the 3D flag and a positive stitch
    threshold. *)
Definition exclusive_flags (ext : External) (s : St) : Prop :=
  Forall (fun a => ~ (ea_do_3D a = true /\ (0 < ea_stitch_threshold a)%Q))
         (model_evals (events (run ext s))).

(** With edge removal on, every strictly interior object of the label
    map [y] that the model returned has its pixels under its own label
    in the published map. *)
Definition interior_kept (ext : External) (s : St) (y : labels) : Prop :=
  let cfg := settings (self s) in
  value (remove_edge_masks cfg) = true ->
  forall obj,
    lookup (value (y_name cfg)) (object_set (workspace (final (run ext s)))) = Some obj ->
    forall l idx, l <> 0%Z -> ~ touches_edge l y -> get idx y = Some l ->
      get idx (segmented obj) = Some l.

(** ... and the label of an object that was removed is nowhere in the
    published map. *)
Definition removed_absent (ext : External) (s : St) (y : labels) : Prop :=
  let cfg := settings (self s) in
  value (remove_edge_masks cfg) = true ->
  forall obj,
    lookup (value (y_name cfg)) (object_set (workspace (final (run ext s)))) = Some obj ->
    forall l idx, l <> 0%Z -> touches_edge l y -> get idx (segmented obj) <> Some l.

End AsStated.

(** ** Concrete settings, images and providers *)

Module Scenario.

Definition cfg_of (diameter : Z) (model : string) (gpu nuclei three_d : bool)
  (stitch : Q) (edges : bool) (den : bool) (den_type : string) : Settings :=
  {| x_name := mk_setting "Cells"%string;
     expected_diameter := mk_setting diameter;
     mode := mk_setting model;
     y_name := mk_setting "CellObjects"%string;
     use_gpu := mk_setting gpu;
     supply_nuclei := mk_setting nuclei;
     nuclei_image := mk_setting "DNA"%string;
     save_probabilities := mk_setting false;
     probabilities_name := mk_setting "Probabilities"%string;
     model_directory := mk_setting "."%string;
     model_file_name := mk_setting "cyto_0"%string;
     flow_threshold := mk_setting (4 # 10)%Q;
     cellprob_threshold := mk_setting 0%Q;
     manual_GPU_memory_share := mk_setting (1 # 10)%Q;
     stitch_threshold := mk_setting stitch;
     do_3D := mk_setting three_d;
     min_size := mk_setting 15%Z;
     invert := mk_setting false;
     remove_edge_masks := mk_setting edges;
     denoise := mk_setting den;
     denoise_type := mk_setting den_type |}.

Definition row {A : Type} (l : list A) : ndarray A := Axis (map Scalar l).
Definition grid {A : Type} (rows : list (list A)) : ndarray A := Axis (map row rows).

Definition grey (pixels : ndarray Q) (dims : nat) : Image :=
  {| pixel_data := pixels; multichannel := false; volumetric := dims =? 3;
     dimensions := dims; parent_image := None; spacing0 := 1%Q; spacing1 := 1%Q |}.

Definition colour (pixels : ndarray Q) : Image :=
  {| pixel_data := pixels; multichannel := true; volumetric := false;
     dimensions := 2; parent_image := None; spacing0 := 1%Q; spacing1 := 1%Q |}.

Definition cells2 : ndarray Q := grid [[1 # 2; 1 # 4]; [3 # 4; 1 # 8]]%Q.
Definition dna2 : ndarray Q := grid [[1 # 3; 1 # 5]; [2 # 3; 1 # 7]]%Q.
Definition cells_vol : ndarray Q := Axis [cells2; dna2].
Definition dna_vol : ndarray Q := Axis [dna2; cells2].
Definition rgb2 : ndarray Q := Axis [cells2; dna2; cells2].

(** A 4x4 label map: object 4 is strictly interior, object 7 lies on
    the right and bottom faces. *)
Definition masks4 : labels :=
  grid [[0; 0; 0; 0]; [0; 4; 4; 0]; [0; 4; 4; 7]; [0; 0; 0; 7]]%Z.

Definition flows4 : list (ndarray Q) := [cells2; cells2; dna2].

(** A provider whose denoiser hands its input back and whose model
    answers every call with [masks4]; resizing is nearest-neighbour,
    edge removal is the library's, and the quotient of two floats is
    taken exactly, as it is for the spacings used here. *)
Definition provider : External :=
  {| truth := fun b => value b;
     model_path := fun dir file => (dir ++ "/" ++ file)%string;
     recon_eval := fun _ x _ _ => inr x;
     model_eval := fun _ _ => inr (masks4, flows4);
     resize_labels := fun y shp _ => nearest_resize shp y;
     resize_image := fun a shp _ => nearest_resize shp a;
     edge_remover := utils_remove_edge_masks;
     float_div := Qdiv |}.

(** A 4x4 label map: object 1 lies on the top face, object 2 is
    strictly interior. *)
Definition masks12 : labels :=
  grid [[1; 1; 0; 0]; [0; 2; 2; 0]; [0; 2; 2; 0]; [0; 0; 0; 0]]%Z.

(** The same provider with a model that answers [masks12]. *)
Definition provider12 : External :=
  {| truth := truth provider; model_path := model_path provider;
     recon_eval := recon_eval provider;
     model_eval := fun _ _ => inr (masks12, flows4);
     resize_labels := resize_labels provider; resize_image := resize_image provider;
     edge_remover := edge_remover provider; float_div := float_div provider |}.

Definition no_display : DisplayData :=
  {| dd_recon := None; dd_probabilities := None; dd_x_data := None;
     dd_y_data := None; dd_dimensions := None |}.

Definition fresh (cfg : Settings) (images : list (string * Image)) : St :=
  {| self := init cfg false;
     workspace := {| image_set := images; object_set := []; display_data := no_display |} |}.

Definition cells4 : ndarray Q :=
  grid [[1 # 2; 1 # 4; 1 # 8; 1 # 9]; [3 # 4; 1 # 8; 1 # 2; 1 # 3];
        [1 # 5; 1 # 6; 1 # 7; 1 # 8]; [2 # 5; 2 # 7; 2 # 9; 1 # 2]]%Q.
Definition dna4 : ndarray Q :=
  grid [[0; 1 # 4; 0; 0]; [0; 1 # 8; 1 # 2; 0];
        [0; 1 # 6; 0; 0]; [0; 0; 2 # 9; 0]]%Q.

Definition two_images : list (string * Image) :=
  [("Cells", grey cells4 2); ("DNA", grey dna4 2)]%string.

Definition small_images : list (string * Image) :=
  [("Cells", grey cells2 2); ("DNA", grey dna2 2)]%string.

Definition two_volumes : list (string * Image) :=
  [("Cells", grey cells_vol 3); ("DNA", grey dna_vol 3)]%string.

(** Cells with a nuclei image, 2D, no denoiser. *)
Definition with_nuclei : St :=
  fresh (cfg_of 30 "cyto3" false true false 0 true false "denoise_cyto3") two_images.

(** Diameter 0 with a model family that is not sized, 2D. *)
Definition auto_fixed_family : St :=
  fresh (cfg_of 0 "cyto2_cp3" false false false 0 true false "denoise_cyto3") two_images.

(** Diameter 0 with a sized family in 3D mode. *)
Definition auto_volume : St :=
  fresh (cfg_of 0 "cyto3" false false true 0 true false "denoise_cyto3") two_volumes.

(** Diameter 0 and the cell upsampler. *)
Definition auto_upsampling : St :=
  fresh (cfg_of 0 "cyto3" false false false 0 true true "upsample_cyto3") small_images.

(** Diameter 0 and a denoiser that does not upsample. *)
Definition auto_denoised : St :=
  fresh (cfg_of 0 "cyto3" false false false 0 true true "denoise_cyto3") two_images.

(** Diameter 50 and the cell upsampler. *)
Definition upsampling : St :=
  fresh (cfg_of 50 "cyto3" false false false 0 true true "upsample_cyto3") small_images.

(** A nuclei image and a denoiser that does not upsample. *)
Definition denoised_with_nuclei : St :=
  fresh (cfg_of 30 "cyto3" false true false 0 true true "denoise_cyto3") two_images.

(** 3D switched on over a stored stitch threshold of 1/2. *)
Definition volume_with_stitch : St :=
  fresh (cfg_of 30 "cyto3" false false true (1 # 2) true false "denoise_cyto3") two_volumes.

(** Plain 2D run with edge removal. *)
Definition plain : St :=
  fresh (cfg_of 30 "cyto3" false false false 0 true false "denoise_cyto3") two_images.

(** A colour image under the name of the primary image. *)
Definition colour_input : St :=
  fresh (cfg_of 30 "cyto3" false false false 0 true false "denoise_cyto3")
        [("Cells", colour rgb2)]%string.

(** Denoising switched off after a run that had cached the cell
    upsampler. *)
Definition denoiser_off : Settings :=
  cfg_of 50 "cyto3" false false false 0 true false "upsample_cyto3".

Definition denoiser_on : Settings :=
  cfg_of 50 "cyto3" false false false 0 true true "upsample_cyto3".

Definition switched_off : St :=
  {| self := configure denoiser_off (self (final (load_models provider upsampling)));
     workspace := workspace upsampling |}.

Definition the_request (s : St) : list eval_args := model_evals (events (run provider s)).

End Scenario.

(** ** The rest of the module: settings list, validation, display,
    pipeline upgrade *)

Module Listing.

(** [settings], lines 312-335: the order in which the values are
    saved. *)
Definition settings : list setting_id :=
  [S_x_name; S_expected_diameter; S_mode; S_y_name; S_use_gpu; S_supply_nuclei;
   S_nuclei_image; S_save_probabilities; S_probabilities_name; S_model_directory;
   S_model_file_name; S_flow_threshold; S_cellprob_threshold;
   S_manual_GPU_memory_share; S_stitch_threshold; S_do_3D; S_min_size; S_invert;
   S_remove_edge_masks; S_denoise; S_denoise_type].

(** The position of a setting in a list of settings. *)
Fixpoint slot (id : setting_id) (ids : list setting_id) : option nat :=
  match ids with
  | [] => None
  | i :: rest => if setting_id_eqb id i then Some 0 else option_map S (slot id rest)
  end.

(** No identifier occurs twice. *)
Fixpoint distinct_ids (ids : list setting_id) : bool :=
  match ids with
  | [] => true
  | i :: rest => negb (existsb (setting_id_eqb i) rest) && distinct_ids rest
  end.

End Listing.

Module Validation.

(** What [validate_module] raises. *)
Inductive validation_error : Type :=
| ValidationError (msg : string).

(** [validate_module], lines 379-386: if using custom model, validate
    the model file opens.  [path_exists] is [os.path.exists]. *)
Definition validate_module (ext : External) (path_exists : string -> bool)
  (cfg : Settings) : validation_error + unit :=
  if String.eqb (value (mode cfg)) "custom" then
    let model_file := value (model_file_name cfg) in
    let model_path := model_path ext (value (model_directory cfg)) model_file in
    if negb (path_exists model_path)
    then inl (ValidationError ("Failed to open model: " ++ model_path))
    else inr tt
  else inr tt.

End Validation.
Export Validation.

Module Display.

(** What [display] asks of the figure. *)
Inductive plot : Type :=
| SetSubplots (dims : nat) (layout : nat * nat)
| Imshow (title : string) (image : ndarray Q) (x y : nat) (sharexy : option (nat * nat))
| ImshowLabels (title : string) (image : labels) (x y : nat) (sharexy : option (nat * nat)).

(** An attribute of [workspace.display_data]; reading one that was
    never set raises. *)
Definition attr {A : Type} (field : option A) : exn + A :=
  match field with
  | Some a => inr a
  | None => inl AttributeError
  end.

Definition and_then {A B : Type} (r : exn + A) (k : A -> exn + B) : exn + B :=
  match r with
  | inl e => inl e
  | inr a => k a
  end.

(** [positions.pop()]: the last element and the list without it. *)
Definition pop {A : Type} (l : list A) : exn + (A * list A) :=
  match rev l with
  | [] => inl IndexError
  | a :: before => inr (a, rev before)
  end.

(** [display], lines 560-611. *)
Definition display (cfg : Settings) (dd : DisplayData) : exn + list plot :=
  let layout :=
    if value (save_probabilities cfg) || value (denoise cfg) then (2, 2) else (2, 1) in
  (* Fill out the plots as needed *)
  let positions := [(1, 1); (0, 1); (1, 0); (0, 0)] in
  and_then (attr (dd_dimensions dd)) (fun dims =>
  let p0 := [SetSubplots dims layout] in
  and_then (pop positions) (fun xy =>
  let positions := snd xy in
  and_then (attr (dd_x_data dd)) (fun x_data =>
  let p1 := p0 ++ [Imshow "Input Image" x_data (fst (fst xy)) (snd (fst xy)) None] in
  and_then
    (if value (denoise cfg) then
       and_then (pop positions) (fun xy =>
       and_then (attr (dd_recon dd)) (fun recon =>
       inr (p1 ++ [Imshow "Reconstructed image" recon (fst (fst xy)) (snd (fst xy))
                     (Some (0, 0))],
            snd xy)))
     else inr (p1, positions))
    (fun st =>
  and_then
    (if value (save_probabilities cfg) then
       and_then (pop (snd st)) (fun xy =>
       and_then (attr (dd_probabilities dd)) (fun prob =>
       inr (fst st ++ [Imshow (value (probabilities_name cfg)) prob
                         (fst (fst xy)) (snd (fst xy)) (Some (0, 0))],
            snd xy)))
     else inr st)
    (fun st =>
  and_then (pop (snd st)) (fun xy =>
  and_then (attr (dd_y_data dd)) (fun y_data =>
  inr (fst st ++ [ImshowLabels (value (y_name cfg)) y_data
                    (fst (fst xy)) (snd (fst xy)) (Some (0, 0))])))))))).

(** The cell of a subplot. *)
Definition cell_of (p : plot) : option (nat * nat) :=
  match p with
  | SetSubplots _ _ => None
  | Imshow _ _ x y _ => Some (x, y)
  | ImshowLabels _ _ x y _ => Some (x, y)
  end.

Fixpoint cells (ps : list plot) : list (nat * nat) :=
  match ps with
  | [] => []
  | p :: rest =>
      match cell_of p with
      | Some c => c :: cells rest
      | None => cells rest
      end
  end.

(** The title and the image of the label plot. *)
Fixpoint labels_shown (ps : list plot) : option (string * ndarray Z) :=
  match ps with
  | [] => None
  | ImshowLabels title image _ _ _ :: _ => Some (title, image)
  | _ :: rest => labels_shown rest
  end.

Definition layout_of (ps : list plot) : option (nat * nat) :=
  match ps with
  | SetSubplots _ l :: _ => Some l
  | _ => None
  end.

End Display.
Export Display.

Module Upgrade.

(** A saved setting value: text, or the [False] the upgrade writes. *)
Inductive setting_value : Type :=
| Str (s : string)
| Flag (b : bool).

(** [del l[i]]. *)
Definition py_del {A : Type} (i : nat) (l : list A) : exn + list A :=
  if i <? length l then inr (firstn i l ++ skipn (S i) l) else inl IndexError.

(** [l[i] = v]. *)
Definition py_set {A : Type} (i : nat) (v : A) (l : list A) : exn + list A :=
  if i <? length l then inr (firstn i l ++ v :: skipn (S i) l) else inl IndexError.

(** [for index in indices: del l[index]]. *)
Fixpoint del_each {A : Type} (indices : list nat) (l : list A) : exn + list A :=
  match indices with
  | [] => inr l
  | i :: rest =>
      match py_del i l with
      | inl e => inl e
      | inr l' => del_each rest l'
      end
  end.

(** [upgrade_settings], lines 625-653.  The four [if]s are not
    [elif]s: a revision that is upgraded falls into the next one. *)
Definition upgrade_settings (setting_values : list setting_value)
  (variable_revision_number : Z) (module_name : string)
  : exn + (list setting_value * Z) :=
  if (variable_revision_number =? 10)%Z then
    inr (setting_values, variable_revision_number)
  else if (variable_revision_number >? 4)%Z then
    inl (ValueError
           "Module comes from a newer version of the Broad CellPose plugin. Please use the Glencoe version.")
  else
    let st :=
      if (variable_revision_number =? 1)%Z
      then (setting_values ++ [Str "0.4"; Str "0.0"], 2%Z)
      else (setting_values, variable_revision_number) in
    let st :=
      if (snd st =? 2)%Z
      then (fst st ++ [Str "0.0"; Flag false; Str "15"; Str "1.0"; Flag false; Flag false],
            3%Z)
      else st in
    match
      (if (snd st =? 3)%Z then
         match fst st with
         | [] => inl IndexError
         | first :: rest =>
             inr ([first] ++ [Str "Python"; Str "CELLPOSE_DOCKER_IMAGE_WITH_PRETRAINED"]
                  ++ rest, 4%Z)
         end
       else inr st)
    with
    | inl e => inl e
    | inr st =>
        if (snd st =? 4)%Z then
          (* Remove bad arguments *)
          match del_each [20; 7; 2; 1] (fst st) with
          | inl e => inl e
          | inr values =>
              match py_set 4 (Flag false)
                      (values ++ [Flag false; Str (nth 0 DENOISER_NAMES EmptyString)]) with
              | inl e => inl e
              | inr values => inr (values, 10%Z)
              end
          end
        else inr st
    end.

(** The least number of values an upgrade from the revision needs. *)
Definition least_values (revision : Z) : nat :=
  if (revision =? 1)%Z then 11
  else if (revision =? 2)%Z then 13
  else if (revision =? 3)%Z then 19
  else 21.

(** By how many values an upgrade from the revision grows the list. *)
Definition growth (revision : Z) : Z :=
  if (revision =? 1)%Z then 8
  else if (revision =? 2)%Z then 6
  else if (revision =? 3)%Z then 0
  else (-2).

End Upgrade.
Export Upgrade.

(** ** More about one run *)

(** The handles of the calls among the events. *)
Fixpoint models_called (evs : list event) : list Model :=
  match evs with
  | [] => []
  | ModelEval m _ :: rest => m :: models_called rest
  | _ :: rest => models_called rest
  end.

Definition is_release (e : event) : bool :=
  match e with EmptyCache => true | _ => false end.

Definition is_memory_share (e : event) : bool :=
  match e with SetMemoryFraction _ => true | _ => false end.

(** The next run of the module, on another workspace. *)
Definition next_run (ext : External) (s : St) (ws : Workspace)
  : (exn + unit) * St * list event :=
  run ext {| self := self (final (run ext s)); workspace := ws |}.

(** How often the denoiser key differs from the stored one, over a
    sequence of invocations; an invocation with denoising off forgets
    the stored key. *)
Fixpoint denoiser_key_changes (stored : option (string * bool * bool))
  (cfgs : list Settings) : nat :=
  match cfgs with
  | [] => 0
  | cfg :: rest =>
      if value (denoise cfg)
      then (if recon_params_differ stored (requested_denoiser cfg) then 1 else 0)
           + denoiser_key_changes (Some (requested_denoiser cfg)) rest
      else denoiser_key_changes None rest
  end.

Definition is_measurement (e : event) : bool :=
  match e with AddMeasurements => true | _ => false end.

Module More.
Import Scenario.

(** A provider whose denoiser fails. *)
Definition failing_denoiser : External :=
  {| truth := truth provider; model_path := model_path provider;
     recon_eval := fun _ _ _ _ => inl (InferenceError "out of memory");
     model_eval := model_eval provider;
     resize_labels := resize_labels provider; resize_image := resize_image provider;
     edge_remover := edge_remover provider;
     float_div := float_div provider |}.

(** A provider whose model fails. *)
Definition failing_model : External :=
  {| truth := truth provider; model_path := model_path provider;
     recon_eval := recon_eval provider;
     model_eval := fun _ _ => inl (InferenceError "out of memory");
     resize_labels := resize_labels provider; resize_image := resize_image provider;
     edge_remover := edge_remover provider;
     float_div := float_div provider |}.

(** A provider whose model hands back two flows only. *)
Definition two_flows : External :=
  {| truth := truth provider; model_path := model_path provider;
     recon_eval := recon_eval provider;
     model_eval := fun _ _ => inr (masks4, [cells2; cells2]);
     resize_labels := resize_labels provider; resize_image := resize_image provider;
     edge_remover := edge_remover provider;
     float_div := float_div provider |}.

Definition cfg_full (model : string) (gpu nuclei : bool) (probs : bool)
  (den : bool) (den_type : string) : Settings :=
  {| x_name := mk_setting "Cells"%string;
     expected_diameter := mk_setting 30%Z;
     mode := mk_setting model;
     y_name := mk_setting "CellObjects"%string;
     use_gpu := mk_setting gpu;
     supply_nuclei := mk_setting nuclei;
     nuclei_image := mk_setting "DNA"%string;
     save_probabilities := mk_setting probs;
     probabilities_name := mk_setting "Probabilities"%string;
     model_directory := mk_setting "models"%string;
     model_file_name := mk_setting "cyto_0"%string;
     flow_threshold := mk_setting (4 # 10)%Q;
     cellprob_threshold := mk_setting 0%Q;
     manual_GPU_memory_share := mk_setting (1 # 10)%Q;
     stitch_threshold := mk_setting 0%Q;
     do_3D := mk_setting false;
     min_size := mk_setting 15%Z;
     invert := mk_setting false;
     remove_edge_masks := mk_setting true;
     denoise := mk_setting den;
     denoise_type := mk_setting den_type |}.

Definition shown (cfg : Settings) (images : list (string * Image)) : St :=
  {| self := init cfg true;
     workspace := {| image_set := images; object_set := []; display_data := no_display |} |}.

(** GPU on, denoiser and probabilities on, window shown. *)
Definition everything_on : St :=
  shown (cfg_full "cyto3" true false true true "denoise_cyto3") two_images.

(** GPU on with a denoiser, nothing shown. *)
Definition gpu_denoised : St :=
  fresh (cfg_full "cyto3" true false false true "denoise_cyto3") two_images.

Definition with_probabilities : St :=
  fresh (cfg_full "cyto3" false false true false "denoise_cyto3") two_images.

(** The nuclei image is asked for and is not in the image set. *)
Definition nuclei_missing : St :=
  fresh (cfg_full "cyto3" false true false false "denoise_cyto3")
        [("Cells", grey cells4 2)]%string.

(** The nuclei image is smaller than the primary image. *)
Definition nuclei_mismatched : St :=
  fresh (cfg_full "cyto3" false true false false "denoise_cyto3")
        [("Cells", grey cells4 2); ("DNA", grey dna2 2)]%string.

(** Twenty-one saved values of revision 3. *)
Definition saved3 : list setting_value :=
  map Str ["a0"; "a1"; "a2"; "a3"; "a4"; "a5"; "a6"; "a7"; "a8"; "a9"; "a10"; "a11";
           "a12"; "a13"; "a14"; "a15"; "a16"; "a17"; "a18"; "a19"; "a20"]%string.

(** Thirteen saved values of revision 1. *)
Definition saved1 : list setting_value := firstn 13 saved3.

(** ... and what the upgrade makes of them. *)
Definition upgraded1 : list setting_value :=
  match upgrade_settings saved1 1 "RunCellpose" with
  | inr (values, _) => values
  | inl _ => []
  end.

End More.

(** * Properties *)

(** A property of every element of a list with at most one. *)
Ltac at_most_one :=
  first [apply Forall_nil | apply Forall_cons; [|apply Forall_nil]].

(** ** Arrays *)

Section NdInduction.
Context {A : Type}.
Variable P : ndarray A -> Prop.
Hypothesis P_scalar : forall a, P (Scalar a).
Hypothesis P_axis : forall xs, Forall P xs -> P (Axis xs).

Fixpoint ndarray_nested_ind (t : ndarray A) : P t :=
  match t with
  | Scalar a => P_scalar a
  | Axis xs =>
      P_axis ((fix all (l : list (ndarray A)) : Forall P l :=
                 match l with
                 | [] => Forall_nil P
                 | x :: l' => Forall_cons x (ndarray_nested_ind x) (all l')
                 end) xs)
  end.
End NdInduction.

Unset Implicit Arguments.

Lemma shape_eqb_eq (s1 s2 : list nat) : shape_eqb s1 s2 = true <-> s1 = s2.
Proof.
  revert s2; induction s1 as [|a s1 IH]; intros [|b s2]; simpl; split;
    try congruence; try reflexivity.
  - rewrite andb_true_iff, Nat.eqb_eq, IH. intros [-> ->]; reflexivity.
  - intros E; inversion E; subst. rewrite Nat.eqb_refl. simpl. apply IH; reflexivity.
Qed.

Lemma rect_child {A : Type} (xs : list (ndarray A)) (x : ndarray A) :
  rect (Axis xs) = true -> In x xs ->
  rect x = true /\ shape x = match xs with [] => [] | h :: _ => shape h end.
Proof.
  simpl. rewrite andb_true_iff. intros [Hall Hsh] Hin.
  rewrite forallb_forall in Hall. split; [apply Hall, Hin|].
  destruct xs as [|h rest]; [contradiction|].
  destruct Hin as [<-|Hin]; [reflexivity|].
  rewrite forallb_forall in Hsh. apply shape_eqb_eq, Hsh, Hin.
Qed.

Lemma get_in_bounds {A : Type} (idx : list nat) :
  forall t : ndarray A, rect t = true ->
    (get idx t <> None <-> in_bounds idx (shape t)).
Proof.
  induction idx as [|i rest IH]; intros [a|xs] Hr; simpl; try (split; [congruence|tauto]).
  - split; [tauto|congruence].
  - destruct (nth_error xs i) as [x|] eqn:E.
    + assert (Hin : In x xs) by (eapply nth_error_In; eauto).
      destruct (rect_child xs x Hr Hin) as [Hrx Hsx].
      assert (Hlt : i < length xs) by (apply nth_error_Some; congruence).
      rewrite (IH x Hrx), Hsx. tauto.
    + apply nth_error_None in E. split; [congruence|lia].
Qed.

Lemma get_defined_same_shape {A B : Type} (idx : list nat) (t : ndarray A) (u : ndarray B) v :
  rect t = true -> rect u = true -> shape u = shape t ->
  get idx t = Some v -> exists w, get idx u = Some w.
Proof.
  intros Ht Hu Hs Hg.
  assert (H : get idx u <> None).
  { apply get_in_bounds; [assumption|]. rewrite Hs. apply get_in_bounds; congruence. }
  destruct (get idx u) as [w|]; [eauto|congruence].
Qed.

Lemma in_bounds_length (idx shp : list nat) : in_bounds idx shp -> length idx = length shp.
Proof.
  revert shp; induction idx as [|i idx IH]; intros [|d shp]; simpl; try tauto.
  intros [_ H]. f_equal. apply IH, H.
Qed.

Lemma get_length {A : Type} (idx : list nat) (t : ndarray A) v :
  rect t = true -> get idx t = Some v -> length idx = ndim t.
Proof.
  intros Hr Hg. apply in_bounds_length, get_in_bounds; congruence.
Qed.

Lemma get_nd_map {A B : Type} (f : A -> B) (idx : list nat) :
  forall t, get idx (nd_map f t) = option_map f (get idx t).
Proof.
  induction idx as [|i rest IH]; intros [a|xs]; simpl; try reflexivity.
  rewrite nth_error_map. destruct (nth_error xs i); simpl; [apply IH|reflexivity].
Qed.

Lemma shape_nd_map {A B : Type} (f : A -> B) (t : ndarray A) :
  shape (nd_map f t) = shape t.
Proof.
  induction t as [a|xs IH] using ndarray_nested_ind; simpl; [reflexivity|].
  rewrite length_map. f_equal.
  destruct xs as [|x rest]; simpl; [reflexivity|].
  inversion IH; assumption.
Qed.

Lemma forallb_map_comp {A B : Type} (f : A -> B) (p : B -> bool) (l : list A) :
  forallb p (map f l) = forallb (fun x => p (f x)) l.
Proof. induction l as [|x l IH]; simpl; [reflexivity|]. rewrite IH; reflexivity. Qed.

Lemma forallb_ext_in' {A : Type} (p q : A -> bool) (l : list A) :
  (forall x, In x l -> p x = q x) -> forallb p l = forallb q l.
Proof.
  induction l as [|x l IH]; simpl; intros H; [reflexivity|].
  rewrite (H x (or_introl eq_refl)), IH; [reflexivity|]. intros y Hy. apply H. right; exact Hy.
Qed.

Lemma rect_nd_map {A B : Type} (f : A -> B) (t : ndarray A) :
  rect (nd_map f t) = rect t.
Proof.
  induction t as [a|xs IH] using ndarray_nested_ind; simpl; [reflexivity|].
  f_equal.
  - rewrite forallb_map_comp. apply forallb_ext_in'. intros x Hx.
    rewrite Forall_forall in IH. apply IH, Hx.
  - destruct xs as [|x rest]; simpl; [reflexivity|].
    rewrite forallb_map_comp. apply forallb_ext_in'. intros y _.
    rewrite !shape_nd_map. reflexivity.
Qed.

Lemma nth_error_zip3 {B : Type} (f : B -> B -> B -> B) (i : nat) :
  forall xs ys zs x y z,
    nth_error xs i = Some x -> nth_error ys i = Some y -> nth_error zs i = Some z ->
    nth_error (zip3 f xs ys zs) i = Some (f x y z).
Proof.
  induction i as [|i IH]; intros [|x0 xs] [|y0 ys] [|z0 zs] x y z; simpl; try congruence.
  apply IH.
Qed.

Lemma length_zip3 {B : Type} (f : B -> B -> B -> B) :
  forall xs ys zs, length ys = length xs -> length zs = length xs ->
    length (zip3 f xs ys zs) = length xs.
Proof.
  induction xs as [|x xs IH]; intros [|y ys] [|z zs]; simpl; try congruence.
  intros H1 H2. f_equal. apply IH; congruence.
Qed.

(** Stacking along a new trailing axis: plane [p] of the result at a
    pixel is the pixel of the [p]-th input. *)
Lemma get_stack3_trailing {A : Type} (idx : list nat) :
  forall (a b c : ndarray A) va vb vc p,
    get idx a = Some va -> get idx b = Some vb -> get idx c = Some vc ->
    get (idx ++ [p]) (stack3 (length idx) a b c) = nth_error [va; vb; vc] p.
Proof.
  induction idx as [|i rest IH]; intros a b c va vb vc p Ha Hb Hc.
  - destruct a, b, c; simpl in *; try congruence.
    inversion Ha; inversion Hb; inversion Hc; subst.
    destruct p as [|[|[|p]]]; simpl; try reflexivity.
    destruct p; reflexivity.
  - destruct a as [|xs], b as [|ys], c as [|zs]; simpl in Ha, Hb, Hc; try congruence.
    destruct (nth_error xs i) as [x|] eqn:Ex; [|congruence].
    destruct (nth_error ys i) as [y|] eqn:Ey; [|congruence].
    destruct (nth_error zs i) as [z|] eqn:Ez; [|congruence].
    simpl. rewrite (nth_error_zip3 _ _ _ _ _ _ _ _ Ex Ey Ez). apply IH; assumption.
Qed.

(** Stacking along a new axis right after the leading one. *)
Lemma get_stack3_axis1 {A : Type} (z : nat) (idx : list nat) (a b c : ndarray A) va vb vc p :
  get (z :: idx) a = Some va -> get (z :: idx) b = Some vb -> get (z :: idx) c = Some vc ->
  get (z :: p :: idx) (stack3 1 a b c) = nth_error [va; vb; vc] p.
Proof.
  intros Ha Hb Hc.
  destruct a as [|xs], b as [|ys], c as [|zs]; simpl in Ha, Hb, Hc; try congruence.
  destruct (nth_error xs z) as [x|] eqn:Ex; [|congruence].
  destruct (nth_error ys z) as [y|] eqn:Ey; [|congruence].
  destruct (nth_error zs z) as [w|] eqn:Ez; [|congruence].
  simpl. rewrite (nth_error_zip3 _ _ _ _ _ _ _ _ Ex Ey Ez). simpl.
  destruct p as [|[|[|p]]]; simpl; try assumption.
  destruct p; reflexivity.
Qed.

Lemma shape_stack3_trailing {A : Type} (a : ndarray A) :
  forall b c, shape b = shape a -> shape c = shape a ->
    Forall (fun d => 0 < d) (shape a) ->
    shape (stack3 (ndim a) a b c) = shape a ++ [3].
Proof.
  induction a as [v|xs IH] using ndarray_nested_ind; intros b c Hb Hc Hpos.
  - reflexivity.
  - destruct xs as [|x1 xs']; [simpl in Hpos; inversion Hpos; lia|].
    destruct b as [|[|y1 ys']]; simpl in Hb; try discriminate.
    destruct c as [|[|z1 zs']]; simpl in Hc; try discriminate.
    inversion Hb as [[Hlb Hsb]]; inversion Hc as [[Hlc Hsc]].
    inversion IH as [|? ? IH1 _]; subst.
    unfold ndim; simpl. fold (ndim x1).
    rewrite length_zip3 by assumption. f_equal.
    apply IH1; try assumption.
    simpl in Hpos. inversion Hpos; assumption.
Qed.

Lemma shape_stack3_axis1 {A : Type} (a b c : ndarray A) (d : nat) (rest : list nat) :
  shape a = d :: rest -> shape b = shape a -> shape c = shape a -> 0 < d ->
  shape (stack3 1 a b c) = d :: 3 :: rest.
Proof.
  intros Ha Hb Hc Hd. rewrite Ha in Hb, Hc.
  destruct a as [|[|x1 xs']]; simpl in Ha; try discriminate;
    [injection Ha as Hl _; lia|].
  destruct b as [|[|y1 ys']]; simpl in Hb; try discriminate;
    [injection Hb as Hl _; lia|].
  destruct c as [|[|z1 zs']]; simpl in Hc; try discriminate;
    [injection Hc as Hl _; lia|].
  injection Ha as Hla Hsa. injection Hb as Hlb Hsb. injection Hc as Hlc Hsc.
  simpl. rewrite length_zip3 by lia. rewrite Hla, Hsa. reflexivity.
Qed.

(** ** The model cache *)

Lemma model_params_same (stored : option (string * bool)) (p : string * bool) :
  model_params_differ stored p = false <-> stored = Some p.
Proof.
  destruct stored as [[n g]|], p as [n' g']; simpl; [|split; discriminate].
  rewrite negb_false_iff, andb_true_iff, String.eqb_eq, Bool.eqb_true_iff.
  split; [intros [-> ->]; reflexivity|intros E; inversion E; auto].
Qed.

Lemma recon_params_same (stored : option (string * bool * bool)) (p : string * bool * bool) :
  recon_params_differ stored p = false <-> stored = Some p.
Proof.
  destruct stored as [[[n g] c]|], p as [[n' g'] c']; simpl; [|split; discriminate].
  rewrite negb_false_iff, !andb_true_iff, String.eqb_eq, !Bool.eqb_true_iff.
  split; [intros [[-> ->] ->]; reflexivity|intros E; inversion E; auto].
Qed.

(** What one call of [load_models] does, in closed form. *)
Lemma load_models_spec (ext : External) (s : St) :
  let cfg := settings (self s) in
  let key := requested_model ext cfg in
  let dkey := requested_denoiser cfg in
  exists me',
    load_models ext s =
      (inr tt, {| self := me'; workspace := workspace s |},
       (if value (use_gpu cfg)
        then [SetMemoryFraction (value (manual_GPU_memory_share cfg))] else [])
       ++ (if model_params_differ (current_model_params (self s)) key
           then [LoadModel (model_for key)] else [])
       ++ (if value (denoise cfg) && recon_params_differ (recon_model_params (self s)) dkey
           then [LoadDenoiser (denoiser_for dkey)] else [])) /\
    settings me' = cfg /\
    show_window me' = show_window (self s) /\
    current_model_params me' = Some key /\
    current_model me' =
      (if model_params_differ (current_model_params (self s)) key
       then Some (model_for key) else current_model (self s)) /\
    recon_model_params me' = (if value (denoise cfg) then Some dkey else None) /\
    recon_model me' =
      (if value (denoise cfg)
       then if recon_params_differ (recon_model_params (self s)) dkey
            then Some (denoiser_for dkey) else recon_model (self s)
       else None).
Proof.
  intros cfg key dkey. subst cfg key dkey.
  destruct s as [me ws]. unfold load_models, requested_model, requested_denoiser, bind,
    get_self, when, emit, upd_self, ret. simpl.
  destruct (model_params_differ (current_model_params me) _) eqn:Hd;
    destruct (value (use_gpu (settings me))) eqn:Hg;
    destruct (value (denoise (settings me))) eqn:Hden; simpl;
    try destruct (recon_params_differ (recon_model_params me) _) eqn:Hr; simpl;
    eexists; (split; [reflexivity|]); simpl; repeat split;
    try (apply model_params_same in Hd; rewrite Hd; rewrite ?Hg; reflexivity).
Qed.

Lemma cache_ok_init (cfg : Settings) (show : bool) : cache_ok (init cfg show).
Proof. split; reflexivity. Qed.

Lemma load_models_cache_ok (ext : External) (s : St) :
  cache_ok (self s) -> cache_ok (self (final (load_models ext s))).
Proof.
  intros [Hm Hr].
  destruct (load_models_spec ext s) as (me' & E & _ & _ & Hp & Hc & Hrp & Hrm).
  rewrite E. unfold final; simpl. split.
  - rewrite Hc, Hp. simpl.
    destruct (model_params_differ _ _) eqn:Hd; [reflexivity|].
    apply model_params_same in Hd. rewrite Hm, Hd. reflexivity.
  - rewrite Hrm, Hrp. destruct (value (denoise _)); [|reflexivity]. simpl.
    destruct (recon_params_differ _ _) eqn:Hd; [reflexivity|].
    apply recon_params_same in Hd. rewrite Hr, Hd. reflexivity.
Qed.

(** After [load_models] from a consistent cache, the two handles are
    the ones the settings ask for. *)
Lemma load_models_handles (ext : External) (s : St) :
  cache_ok (self s) ->
  let me' := self (final (load_models ext s)) in
  current_model me' = Some (model_for (requested_model ext (settings (self s)))) /\
  recon_model me' =
    (if value (denoise (settings (self s)))
     then Some (denoiser_for (requested_denoiser (settings (self s)))) else None).
Proof.
  intros Hok me'. subst me'.
  pose proof (load_models_cache_ok ext s Hok) as [Hm Hr].
  destruct (load_models_spec ext s) as (me' & E & _ & _ & Hp & _ & Hrp & _).
  rewrite E in *. unfold final in *; simpl in *.
  rewrite Hm, Hr, Hp, Hrp. split; [reflexivity|].
  destruct (value (denoise _)); reflexivity.
Qed.

Lemma filter_app_loads (p : event -> bool) (a b c : list event) :
  filter p (a ++ b ++ c) = filter p a ++ filter p b ++ filter p c.
Proof. rewrite !filter_app. reflexivity. Qed.

Lemma model_loads_of_load (ext : External) (s : St) :
  filter is_model_load (events (load_models ext s)) =
    if model_params_differ (current_model_params (self s))
         (requested_model ext (settings (self s)))
    then [LoadModel (model_for (requested_model ext (settings (self s))))] else [].
Proof.
  destruct (load_models_spec ext s) as (me' & E & _).
  rewrite E. unfold events; simpl. rewrite filter_app_loads.
  destruct (value (use_gpu _)), (model_params_differ _ _),
    (value (denoise _) && recon_params_differ _ _); reflexivity.
Qed.

Lemma denoiser_loads_of_load (ext : External) (s : St) :
  filter is_denoiser_load (events (load_models ext s)) =
    if value (denoise (settings (self s))) &&
       recon_params_differ (recon_model_params (self s))
         (requested_denoiser (settings (self s)))
    then [LoadDenoiser (denoiser_for (requested_denoiser (settings (self s))))] else [].
Proof.
  destruct (load_models_spec ext s) as (me' & E & _).
  rewrite E. unfold events; simpl. rewrite filter_app_loads.
  destruct (value (use_gpu _)), (model_params_differ _ _),
    (value (denoise _) && recon_params_differ _ _); reflexivity.
Qed.

Lemma params_after_load (ext : External) (s : St) :
  current_model_params (self (final (load_models ext s))) =
    Some (requested_model ext (settings (self s))).
Proof.
  destruct (load_models_spec ext s) as (me' & E & _ & _ & Hp & _).
  rewrite E. exact Hp.
Qed.

(** Over any sequence of invocations there is one load for each change
    of the requested key, and none besides. *)
Lemma model_loads_in_sequence (ext : External) (cfgs : list Settings) :
  forall s,
    length (filter is_model_load (fst (load_sequence ext cfgs s))) =
      key_changes ext (current_model_params (self s)) cfgs.
Proof.
  induction cfgs as [|cfg rest IH]; intros s; [reflexivity|].
  cbn [load_sequence key_changes fst]. rewrite filter_app, length_app, IH.
  unfold load_with. rewrite model_loads_of_load, params_after_load.
  cbn [self settings configure current_model_params].
  destruct (model_params_differ _ _); reflexivity.
Qed.

(** C8. Model cache: a request whose key (resolved model name or
    custom path, accelerator flag) equals the stored key keeps the
    handle and the key and loads nothing; a request with another key
    loads exactly once and stores the new key and handle.  Hence a
    second invocation with the same key loads nothing, one that only
    flips the accelerator flag loads exactly once, and a sequence of
    invocations loads once for each change of key. *)
Theorem C8_model_cache (ext : External) (s : St) :
  let key := requested_model ext (settings (self s)) in
  let o := load_models ext s in
  result o = inr tt /\
  (current_model_params (self s) = Some key ->
     filter is_model_load (events o) = [] /\
     current_model (self (final o)) = current_model (self s) /\
     current_model_params (self (final o)) = Some key) /\
  (current_model_params (self s) <> Some key ->
     filter is_model_load (events o) = [LoadModel (model_for key)] /\
     current_model (self (final o)) = Some (model_for key) /\
     current_model_params (self (final o)) = Some key) /\
  (forall cfg2, requested_model ext cfg2 = key ->
     filter is_model_load (events (load_with ext cfg2 (final o))) = [] /\
     current_model (self (final (load_with ext cfg2 (final o)))) =
       current_model (self (final o))) /\
  (forall cfg2, requested_model ext cfg2 = (fst key, negb (snd key)) ->
     filter is_model_load (events (load_with ext cfg2 (final o))) =
       [LoadModel (model_for (fst key, negb (snd key)))]) /\
  (forall cfgs,
     length (filter is_model_load (fst (load_sequence ext cfgs s))) =
       key_changes ext (current_model_params (self s)) cfgs).
Proof.
  intros key o. subst o.
  pose proof (model_loads_of_load ext s) as HL.
  pose proof (params_after_load ext s) as HP.
  destruct (load_models_spec ext s) as (me' & E & _ & _ & Hp & Hc & _).
  change (requested_model ext (settings (self s))) with key in HL, HP, Hp, Hc.
  clearbody key.
  assert (Hs : model_params_differ (Some key) key = false)
    by (apply model_params_same; reflexivity).
  split; [rewrite E; reflexivity|].
  split; [|split; [|split; [|split; [|intros cfgs; apply model_loads_in_sequence]]]].
  - intros Hsame. apply model_params_same in Hsame.
    rewrite HL, Hsame. rewrite E; unfold final; simpl. rewrite Hc, Hsame. auto.
  - intros Hdiff.
    destruct (model_params_differ _ _) eqn:Hd.
    + rewrite HL. rewrite E; unfold final; simpl. rewrite Hc. auto.
    + apply model_params_same in Hd. contradiction.
  - intros cfg2 Hk. unfold load_with.
    rewrite model_loads_of_load.
    cbn [self settings configure current_model_params workspace].
    rewrite HP, Hk, Hs. split; [reflexivity|].
    match goal with |- context [load_models ext ?s2] =>
      destruct (load_models_spec ext s2) as (me2 & E2 & _ & _ & _ & Hc2 & _) end.
    rewrite E2. unfold final at 1. cbn [fst snd self]. rewrite Hc2.
    cbn [self settings configure current_model_params current_model workspace].
    rewrite HP, Hk, Hs. reflexivity.
  - intros cfg2 Hk. unfold load_with.
    rewrite model_loads_of_load.
    cbn [self settings configure current_model_params workspace].
    rewrite HP, Hk.
    destruct key as [n g]. simpl.
    rewrite String.eqb_refl. destruct g; reflexivity.
Qed.

(** C10. After [load_models] with denoising disabled the cached
    denoiser and its key are both [None]; the next [load_models] with
    denoising enabled therefore loads a denoiser, whatever key was
    stored before denoising was disabled. *)
Theorem C10_denoiser_reset (ext : External) (s : St) :
  value (denoise (settings (self s))) = false ->
  let o := load_models ext s in
  result o = inr tt /\
  recon_model (self (final o)) = None /\
  recon_model_params (self (final o)) = None /\
  (forall cfg_on, value (denoise cfg_on) = true ->
     filter is_denoiser_load (events (load_with ext cfg_on (final o))) =
       [LoadDenoiser (denoiser_for (requested_denoiser cfg_on))]).
Proof.
  intros Hoff o. subst o.
  destruct (load_models_spec ext s) as (me' & E & _ & _ & _ & _ & Hrp & Hrm).
  rewrite Hoff in Hrp, Hrm.
  rewrite E. unfold result, final; simpl. repeat split; try assumption.
  intros cfg_on Hon. unfold load_with. rewrite denoiser_loads_of_load. simpl.
  rewrite Hon, Hrp. reflexivity.
Qed.

(** ** One run, stage by stage *)

Lemma model_evals_app (a b : list event) :
  model_evals (a ++ b) = model_evals a ++ model_evals b.
Proof.
  induction a as [|e a IH]; simpl; [reflexivity|].
  destruct e; simpl; rewrite ?IH; reflexivity.
Qed.

Lemma first_inference_app (a b : list event) :
  first_inference (a ++ b) =
    match first_inference a with
    | Some r => Some r
    | None => first_inference b
    end.
Proof.
  induction a as [|e a IH]; simpl; [reflexivity|].
  destruct e; simpl; rewrite ?IH; reflexivity.
Qed.

Lemma get_image_ok (name : string) (s : St) (x : Image) :
  lookup name (image_set (workspace s)) = Some x -> get_image name s = (inr x, s, []).
Proof. intros H. unfold get_image, bind, get_workspace. simpl. rewrite H. reflexivity. Qed.

Lemma get_image_missing (name : string) (s : St) :
  lookup name (image_set (workspace s)) = None ->
  get_image name s = (inl (KeyError name), s, []).
Proof. intros H. unfold get_image, bind, get_workspace. simpl. rewrite H. reflexivity. Qed.

(** The composer reads the image set and nothing else: no event, no
    change of state. *)
Lemma compose_pure (cfg : Settings) (xd : ndarray Q) (s : St) :
  final (compose cfg xd s) = s /\ events (compose cfg xd s) = [].
Proof.
  unfold compose. destruct (wants_nuclei cfg); [|split; reflexivity].
  unfold bind. destruct (lookup (value (nuclei_image cfg)) (image_set (workspace s))) eqn:E.
  - rewrite (get_image_ok _ _ _ E). unfold lift.
    destruct (np_stack3 _ _ _ _); split; reflexivity.
  - rewrite (get_image_missing _ _ E). split; reflexivity.
Qed.

Lemma compose_plain (cfg : Settings) (xd : ndarray Q) (s : St) :
  wants_nuclei cfg = false -> compose cfg xd s = (inr (xd, [0; 0]%Z), s, []).
Proof. intros H. unfold compose. rewrite H. reflexivity. Qed.

Lemma compose_stacked (cfg : Settings) (xd : ndarray Q) (s : St) :
  wants_nuclei cfg = true ->
  compose cfg xd s =
    (match lookup (value (nuclei_image cfg)) (image_set (workspace s)) with
     | None => inl (KeyError (value (nuclei_image cfg)))
     | Some nuc =>
         match np_stack3 (zeros_like xd) xd (pixel_data nuc)
                 (if value (do_3D cfg) then 1%Z else (-1)%Z) with
         | inl e => inl e
         | inr t => inr (t, [2; 3]%Z)
         end
     end, s, []).
Proof.
  intros H. unfold compose. rewrite H. unfold bind.
  destruct (lookup _ _) eqn:E.
  - rewrite (get_image_ok _ _ _ E). unfold lift. destruct (np_stack3 _ _ _ _); reflexivity.
  - rewrite (get_image_missing _ _ E). reflexivity.
Qed.

(** The [try] block in closed form: it leaves the state alone, and
    its events are the denoiser call (if a denoiser is loaded), the
    segmentation call (if the denoiser returned) and the cache
    release. *)
Lemma inference_unfold (ext : External) (cfg : Settings) (x : Image) (xd : ndarray Q)
  (ch : list Z) (diam : option Z) (aniso : Q) (s1 : St) (m : Model) :
  current_model (self s1) = Some m ->
  inference ext cfg x xd ch diam aniso s1 =
    match recon_model (self s1) with
    | Some d =>
        match recon_eval ext d xd diam ch with
        | inl e => (inl e, s1, [DenoiseEval d xd diam ch] ++ release_events cfg)
        | inr inp =>
            let args := seg_args cfg inp (if wants_nuclei cfg then [0; 1]%Z else ch)
                          (denoised_diameter cfg diam) aniso in
            (match model_eval ext m args with
             | inl e => inl e
             | inr out => inr (inp, postprocess ext cfg x (fst out), snd out)
             end, s1,
             [DenoiseEval d xd diam ch; ModelEval m args] ++ release_events cfg)
        end
    | None =>
        let args := seg_args cfg xd ch diam aniso in
        (match model_eval ext m args with
         | inl e => inl e
         | inr out => inr (xd, postprocess ext cfg x (fst out), snd out)
         end, s1, [ModelEval m args] ++ release_events cfg)
    end.
Proof.
  intros Hm. unfold inference, finally, denoise_pass, segment, release, release_events,
    bind, get_self, call, ret, when, emit, raise.
  destruct (recon_model (self s1)) as [d|].
  - destruct (recon_eval ext d xd diam ch) as [e|inp]; cbn [fst snd].
    + destruct (value (use_gpu cfg)); reflexivity.
    + rewrite Hm. cbn [fst snd].
      destruct (model_eval ext m _) as [e|out]; destruct (value (use_gpu cfg)); reflexivity.
  - cbn [fst snd]. rewrite Hm.
    destruct (model_eval ext m _) as [e|out]; destruct (value (use_gpu cfg)); reflexivity.
Qed.

(** Publishing fills the workspace and asks for the measurements; it
    issues no inference call and leaves the module alone. *)
Lemma publish_spec (ext : External) (me : RunCellpose) (x : Image) (xd inp : ndarray Q)
  (y : labels) (flows : list (ndarray Q)) (s : St) :
  let o := publish ext me x xd inp y flows s in
  self (final o) = self s /\
  lookup (value (y_name (settings me))) (object_set (workspace (final o))) =
    Some {| segmented := y; objects_parent_image := parent_image x |} /\
  model_evals (events o) = [] /\
  first_inference (events o) = None /\
  denoise_evals (events o) = [] /\
  (value (save_probabilities (settings me)) = false ->
     result o = inr tt /\ image_set (workspace (final o)) = image_set (workspace s)).
Proof.
  unfold publish, bind, upd_workspace, when, emit, lift, ret, result, final, events.
  destruct s as [me0 ws]. cbn [self workspace fst snd].
  destruct (value (denoise (settings me)) && show_window me);
    destruct (value (save_probabilities (settings me)));
    try destruct (py_index flows 2);
    destruct (show_window me); cbn;
    rewrite ?String.eqb_refl; repeat split; try reflexivity; try discriminate.
Qed.

(** A run that gets past the composer: the load, the [try] block and
    the publication follow one another. *)
Lemma run_unfold (ext : External) (s : St) (x : Image) (xd : ndarray Q) (ch : list Z) :
  let cfg := settings (self s) in
  lookup (value (x_name cfg)) (image_set (workspace s)) = Some x ->
  multichannel x = false ->
  compose cfg (pixel_data x) s = (inr (xd, ch), s, []) ->
  run ext s =
    let o1 := load_models ext s in
    let o2 := inference ext cfg x xd ch (resolve_diameter cfg) (anisotropy_of ext cfg x)
                (final o1) in
    match result o2 with
    | inl e => (inl e, final o2, events o1 ++ events o2)
    | inr out =>
        let o3 := publish ext (self s) x xd (fst (fst out)) (snd (fst out)) (snd out)
                    (final o2) in
        (result o3, final o3, events o1 ++ events o2 ++ events o3)
    end.
Proof.
  intros cfg Hx Hm Hc. subst cfg.
  unfold run. unfold bind at 1. unfold get_self at 1. cbn beta iota zeta.
  unfold bind at 1. rewrite (get_image_ok _ _ _ Hx). cbn beta iota zeta.
  rewrite Hm.
  unfold bind at 1. rewrite Hc. cbn beta iota zeta. cbn [fst snd].
  unfold bind at 1.
  destruct (load_models_spec ext s) as (me1 & E & _).
  rewrite E. cbn beta iota zeta. unfold final at 1 2. cbn [fst snd].
  unfold bind at 1.
  destruct (inference ext _ x xd ch _ _ _) as [[r2 s2] e2].
  unfold result, final, events. cbn [fst snd app].
  destruct r2 as [e|out]; [unfold events; cbn [snd]; reflexivity|].
  destruct (publish ext _ _ _ _ _ _ _) as [[r3 s3] e3]. cbn [fst snd app].
  reflexivity.
Qed.

Lemma denoise_evals_app (a b : list event) :
  denoise_evals (a ++ b) = denoise_evals a ++ denoise_evals b.
Proof.
  induction a as [|e a IH]; simpl; [reflexivity|].
  destruct e; simpl; rewrite ?IH; reflexivity.
Qed.

(** Loading issues no inference call. *)
Lemma load_models_quiet (ext : External) (s : St) :
  model_evals (events (load_models ext s)) = [] /\
  denoise_evals (events (load_models ext s)) = [] /\
  first_inference (events (load_models ext s)) = None /\
  workspace (final (load_models ext s)) = workspace s /\
  result (load_models ext s) = inr tt.
Proof.
  destruct (load_models_spec ext s) as (me' & E & _). rewrite E.
  unfold events, final, result; cbn [fst snd workspace].
  destruct (value (use_gpu _)), (model_params_differ _ _),
    (value (denoise _) && recon_params_differ _ _); repeat split; reflexivity.
Qed.

Lemma release_quiet (cfg : Settings) :
  model_evals (release_events cfg) = [] /\ denoise_evals (release_events cfg) = [] /\
  first_inference (release_events cfg) = None.
Proof. unfold release_events. destruct (value (use_gpu cfg)); repeat split; reflexivity. Qed.

(** A run stopped before the composer has finished asks nothing of the
    provider and leaves the module and the workspace as they were. *)
Lemma run_stopped_early (ext : External) (s : St) :
  let cfg := settings (self s) in
  (forall x, lookup (value (x_name cfg)) (image_set (workspace s)) = Some x ->
     multichannel x = false ->
     raised (result (compose cfg (pixel_data x) s)) = true) ->
  exists e, run ext s = (inl e, s, []).
Proof.
  intros cfg H. subst cfg.
  unfold run. unfold bind at 1. unfold get_self at 1. cbn beta iota zeta.
  unfold bind at 1.
  destruct (lookup (value (x_name (settings (self s)))) (image_set (workspace s)))
    as [x|] eqn:Hx.
  - rewrite (get_image_ok _ _ _ Hx). cbn beta iota zeta.
    destruct (multichannel x) eqn:Hm; [eexists; reflexivity|].
    specialize (H x eq_refl Hm).
    destruct (compose_pure (settings (self s)) (pixel_data x) s) as [Hf He].
    unfold bind at 1.
    destruct (compose _ _ s) as [[r s'] e]. unfold result, final, events in *.
    cbn [fst snd] in *. subst. destruct r; [|discriminate]. eexists; reflexivity.
  - rewrite (get_image_missing _ _ Hx). eexists; reflexivity.
Qed.

(** The calls of a run that gets past the composer, from a consistent
    cache. *)
Lemma run_calls (ext : External) (s : St) (x : Image) (xd : ndarray Q) (ch : list Z) :
  let cfg := settings (self s) in
  let evs := events (run ext s) in
  cache_ok (self s) ->
  lookup (value (x_name cfg)) (image_set (workspace s)) = Some x ->
  multichannel x = false ->
  compose cfg (pixel_data x) s = (inr (xd, ch), s, []) ->
  first_inference evs = Some (xd, ch) /\
  denoise_evals evs =
    (if value (denoise cfg)
     then [(denoiser_for (requested_denoiser cfg), xd, resolve_diameter cfg, ch)]
     else []) /\
  model_evals evs =
    match segmentation_input ext cfg xd ch with
    | inl _ => []
    | inr inp => [segmentation_request ext cfg x inp ch]
    end.
Proof.
  intros cfg evs Hok Hx Hm Hc. subst evs.
  rewrite (run_unfold ext s x xd ch Hx Hm Hc). cbn zeta. fold cfg.
  pose proof (load_models_handles ext s Hok) as [Hcm Hrm]. cbn zeta in Hcm, Hrm.
  pose proof (load_models_quiet ext s) as (Q1 & Q2 & Q3 & _).
  pose proof (release_quiet cfg) as (R1 & R2 & R3).
  fold cfg in Hrm.
  rewrite (inference_unfold ext cfg x xd ch _ _ _ _ Hcm). rewrite Hrm. clear Hcm Hrm.
  unfold segmentation_input, segmentation_request.
  destruct (load_models ext s) as [[r1 s1] e1].
  unfold result, final, events in *. cbn [fst snd] in *.
  assert (Hpre : forall l, first_inference (e1 ++ l) = first_inference l /\
                           denoise_evals (e1 ++ l) = denoise_evals l /\
                           model_evals (e1 ++ l) = model_evals l).
  { intros l. rewrite first_inference_app, denoise_evals_app, model_evals_app, Q1, Q2, Q3.
    auto. }
  assert (Hrel : forall l, denoise_evals (release_events cfg ++ l) = denoise_evals l /\
                           model_evals (release_events cfg ++ l) = model_evals l).
  { intros l. rewrite denoise_evals_app, model_evals_app, R1, R2. auto. }
  destruct (value (denoise cfg)) eqn:Hden.
  - destruct (recon_eval ext _ xd _ ch) as [e|inp] eqn:Hre.
    + cbn [fst snd]. destruct (Hpre ([DenoiseEval (denoiser_for (requested_denoiser cfg)) xd
                                        (resolve_diameter cfg) ch] ++ release_events cfg))
        as (-> & -> & ->).
      cbn [app first_inference denoise_evals model_evals]. rewrite R1, R2. auto.
    + cbn zeta. cbn [fst snd].
      destruct (model_eval ext _ _) as [e|out]; cbn [fst snd].
      * match goal with |- context [e1 ++ ?l] => destruct (Hpre l) as (-> & -> & ->) end.
        cbn [app first_inference denoise_evals model_evals]. rewrite R1, R2. auto.
      * match goal with |- context [publish ext ?a ?b ?c ?d ?e ?f ?g] =>
          destruct (publish_spec ext a b c d e f g) as (_ & _ & P1 & P2 & P3 & _);
          destruct (publish ext a b c d e f g) as [[r3 s3] e3] end.
        unfold events in *; cbn [fst snd] in *.
        match goal with |- context [e1 ++ ?l] => destruct (Hpre l) as (-> & -> & ->) end.
        cbn [app first_inference denoise_evals model_evals].
        match goal with |- context [release_events cfg ++ ?l] =>
          destruct (Hrel l) as (-> & ->) end.
        rewrite P1, P3. auto.
  - cbn zeta. cbn [fst snd andb].
    destruct (model_eval ext _ _) as [e|out]; cbn [fst snd].
    + match goal with |- context [e1 ++ ?l] => destruct (Hpre l) as (-> & -> & ->) end.
      cbn [app first_inference denoise_evals model_evals]. rewrite R1, R2. auto.
    + match goal with |- context [publish ext ?a ?b ?c ?d ?e ?f ?g] =>
        destruct (publish_spec ext a b c d e f g) as (_ & _ & P1 & P2 & P3 & _);
        destruct (publish ext a b c d e f g) as [[r3 s3] e3] end.
      unfold events in *; cbn [fst snd] in *.
      match goal with |- context [e1 ++ ?l] => destruct (Hpre l) as (-> & -> & ->) end.
      cbn [app first_inference denoise_evals model_evals].
      match goal with |- context [release_events cfg ++ ?l] =>
        destruct (Hrel l) as (-> & ->) end.
      rewrite P1, P3. auto.
Qed.

(** What a run that gets past the composer leaves behind: an
    inference failure goes to the caller and the workspace is as it
    was; otherwise the post-processed label map is in the object set. *)
Lemma run_outcome (ext : External) (s : St) (x : Image) (xd : ndarray Q) (ch : list Z) :
  let cfg := settings (self s) in
  cache_ok (self s) ->
  lookup (value (x_name cfg)) (image_set (workspace s)) = Some x ->
  multichannel x = false ->
  compose cfg (pixel_data x) s = (inr (xd, ch), s, []) ->
  match segmentation_output ext cfg x xd ch with
  | inl e => result (run ext s) = inl e /\ workspace (final (run ext s)) = workspace s
  | inr out =>
      lookup (value (y_name cfg)) (object_set (workspace (final (run ext s)))) =
        Some {| segmented := postprocess ext cfg x (snd (fst out));
                objects_parent_image := parent_image x |} /\
      (value (save_probabilities cfg) = false -> result (run ext s) = inr tt)
  end.
Proof.
  intros cfg Hok Hx Hm Hc.
  rewrite (run_unfold ext s x xd ch Hx Hm Hc). cbn zeta. fold cfg.
  pose proof (load_models_handles ext s Hok) as [Hcm Hrm]. cbn zeta in Hcm, Hrm.
  pose proof (load_models_quiet ext s) as (_ & _ & _ & Hws & _).
  fold cfg in Hrm, Hcm.
  rewrite (inference_unfold ext cfg x xd ch _ _ _ _ Hcm). rewrite Hrm. clear Hcm Hrm.
  unfold segmentation_output, segmentation_input, segmentation_request.
  destruct (load_models ext s) as [[r1 s1] e1].
  unfold result, final, events in *. cbn [fst snd] in *.
  destruct (value (denoise cfg)) eqn:Hden.
  - destruct (recon_eval ext _ xd _ ch) as [e|inp] eqn:Hre; [cbn [fst snd]; auto|].
    cbn zeta. cbn [fst snd andb].
    destruct (model_eval ext _ _) as [e|out]; cbn [fst snd]; [auto|].
    match goal with |- context [publish ext ?a ?b ?c ?d ?e ?f ?g] =>
      destruct (publish_spec ext a b c d e f g) as (_ & P1 & _ & _ & _ & P5) end.
    unfold result, final in P1, P5. split; [exact P1|]. intros Hs. apply P5, Hs.
  - cbn zeta. cbn [fst snd andb].
    destruct (model_eval ext _ _) as [e|out]; cbn [fst snd]; [auto|].
    match goal with |- context [publish ext ?a ?b ?c ?d ?e ?f ?g] =>
      destruct (publish_spec ext a b c d e f g) as (_ & P1 & _ & _ & _ & P5) end.
    unfold result, final in P1, P5. split; [exact P1|]. intros Hs. apply P5, Hs.
Qed.

(** A run keeps the cache consistent. *)
Lemma run_cache_ok (ext : External) (s : St) :
  cache_ok (self s) -> cache_ok (self (final (run ext s))).
Proof.
  intros Hok.
  destruct (lookup (value (x_name (settings (self s)))) (image_set (workspace s)))
    as [x|] eqn:Hx.
  2:{ destruct (run_stopped_early ext s) as [e E]; [intros x Hx'; congruence|].
      rewrite E. exact Hok. }
  destruct (multichannel x) eqn:Hm.
  { destruct (run_stopped_early ext s) as [e E]; [intros x' Hx'; congruence|].
    rewrite E. exact Hok. }
  destruct (compose_pure (settings (self s)) (pixel_data x) s) as [Hf He].
  destruct (compose (settings (self s)) (pixel_data x) s) as [[rc sc] ec] eqn:Hc.
  unfold final, events in Hf, He; cbn [fst snd] in Hf, He. subst sc ec.
  destruct rc as [e|[xd ch]].
  { destruct (run_stopped_early ext s) as [e' E].
    - intros x' Hx' _. assert (x' = x) by congruence. subst x'. rewrite Hc. reflexivity.
    - rewrite E. exact Hok. }
  rewrite (run_unfold ext s x xd ch Hx Hm Hc). cbn zeta.
  pose proof (load_models_cache_ok ext s Hok) as Hok1.
  destruct (load_models_handles ext s Hok) as [Hcm _].
  rewrite (inference_unfold ext _ x xd ch _ _ _ _ Hcm).
  destruct (load_models ext s) as [[r1 s1] e1].
  unfold result, final, events in *. cbn [fst snd] in *.
  destruct (recon_model (self s1)) as [d|].
  - destruct (recon_eval ext d xd _ ch) as [e|inp]; [exact Hok1|].
    cbn zeta. cbn [fst snd].
    destruct (model_eval ext _ _) as [e|out]; cbn [fst snd]; [exact Hok1|].
    match goal with |- context [publish ext ?a ?b ?c ?d ?e ?f ?g] =>
      destruct (publish_spec ext a b c d e f g) as (P0 & _) end.
    unfold final in P0. rewrite P0. exact Hok1.
  - cbn zeta. cbn [fst snd].
    destruct (model_eval ext _ _) as [e|out]; cbn [fst snd]; [exact Hok1|].
    match goal with |- context [publish ext ?a ?b ?c ?d ?e ?f ?g] =>
      destruct (publish_spec ext a b c d e f g) as (P0 & _) end.
    unfold final in P0. rewrite P0. exact Hok1.
Qed.

(** Every state the module can reach has a consistent cache. *)
Lemma reachable_cache_ok (ext : External) (s : St) :
  reachable ext s -> cache_ok (self s).
Proof.
  induction 1 as [cfg show ws|s _ IH|s _ IH|s cfg ws _ IH].
  - apply cache_ok_init.
  - apply run_cache_ok, IH.
  - apply load_models_cache_ok, IH.
  - exact IH.
Qed.

(** Every run from a consistent cache either stops before it asks
    anything of the provider, or gets past the composer. *)
Lemma run_requests (ext : External) (s : St) :
  let cfg := settings (self s) in
  let evs := events (run ext s) in
  cache_ok (self s) ->
  (raised (result (run ext s)) = true /\ evs = []) \/
  (exists x xd ch,
     lookup (value (x_name cfg)) (image_set (workspace s)) = Some x /\
     multichannel x = false /\
     compose cfg (pixel_data x) s = (inr (xd, ch), s, []) /\
     ch = (if wants_nuclei cfg then [2; 3]%Z else [0; 0]%Z) /\
     first_inference evs = Some (xd, ch) /\
     denoise_evals evs =
       (if value (denoise cfg)
        then [(denoiser_for (requested_denoiser cfg), xd, resolve_diameter cfg, ch)]
        else []) /\
     model_evals evs =
       match segmentation_input ext cfg xd ch with
       | inl _ => []
       | inr inp => [segmentation_request ext cfg x inp ch]
       end).
Proof.
  intros cfg evs Hok. subst evs.
  assert (Hstop : forall e, run ext s = (inl e, s, []) ->
            raised (result (run ext s)) = true /\ events (run ext s) = []).
  { intros e E. rewrite E. split; reflexivity. }
  destruct (lookup (value (x_name cfg)) (image_set (workspace s))) as [x|] eqn:Hx.
  2:{ left. destruct (run_stopped_early ext s) as [e E].
      - intros x Hx'. fold cfg in Hx'. congruence.
      - eapply Hstop, E. }
  destruct (multichannel x) eqn:Hm.
  { left. destruct (run_stopped_early ext s) as [e E].
    - intros x' Hx'. fold cfg in Hx'. rewrite Hx in Hx'. injection Hx' as <-. congruence.
    - eapply Hstop, E. }
  destruct (compose_pure cfg (pixel_data x) s) as [Hf He].
  destruct (compose cfg (pixel_data x) s) as [[rc sc] ec] eqn:Hc.
  unfold final, events in Hf, He; cbn [fst snd] in Hf, He. subst sc ec.
  destruct rc as [e|[xd ch]].
  { left. destruct (run_stopped_early ext s) as [e' E].
    - intros x' Hx' _. fold cfg in Hx'. rewrite Hx in Hx'. injection Hx' as <-.
      fold cfg. rewrite Hc. reflexivity.
    - eapply Hstop, E. }
  right. exists x, xd, ch.
  destruct (run_calls ext s x xd ch Hok Hx Hm Hc) as (H1 & H2 & H3).
  repeat split; try assumption.
  destruct (wants_nuclei cfg) eqn:Hw.
  - rewrite (compose_stacked cfg (pixel_data x) s Hw) in Hc.
    destruct (lookup (value (nuclei_image cfg)) _); [|discriminate].
    destruct (np_stack3 (zeros_like (pixel_data x)) _ _ _); inversion Hc; reflexivity.
  - rewrite (compose_plain cfg (pixel_data x) s Hw) in Hc. inversion Hc; reflexivity.
Qed.

(** ** The channel composer *)

Lemma normalize_axis_last (n : nat) : normalize_axis (-1) n = Some n.
Proof.
  unfold normalize_axis.
  replace (0 <=? -1)%Z with false by reflexivity.
  replace (-1 <? 0)%Z with true by reflexivity.
  replace (- Z.of_nat n - 1 <=? -1)%Z with true by (symmetry; apply Z.leb_le; lia).
  cbn [andb]. f_equal. lia.
Qed.

Lemma normalize_axis_one (n : nat) : 1 <= n -> normalize_axis 1 n = Some 1.
Proof.
  intros H. unfold normalize_axis.
  replace (0 <=? 1)%Z with true by reflexivity.
  replace (1 <=? Z.of_nat n)%Z with true by (symmetry; apply Z.leb_le; lia).
  reflexivity.
Qed.

Lemma wants_nuclei_false (cfg : Settings) :
  wants_nuclei cfg = false <->
  value (supply_nuclei cfg) = false \/ value (mode cfg) = "nuclei"%string.
Proof.
  unfold wants_nuclei. rewrite andb_false_iff, negb_false_iff, String.eqb_eq. tauto.
Qed.

Lemma get_zeros_like (idx : list nat) (x : ndarray Q) (v : Q) :
  get idx x = Some v -> get idx (zeros_like x) = Some 0%Q.
Proof. intros H. unfold zeros_like. rewrite get_nd_map, H. reflexivity. Qed.

(** The stack the composer builds has the three planes where the
    claim puts them. *)
Lemma stack3_planes (three_d : bool) (x nuc : ndarray Q) :
  rect x = true -> rect nuc = true -> shape nuc = shape x ->
  stacked_planes three_d x nuc
    (stack3 (if three_d then 1 else ndim x) (zeros_like x) x nuc).
Proof.
  intros Hrx Hrn Hs. destruct three_d; unfold stacked_planes.
  - intros z idx v Hg.
    destruct (get_defined_same_shape (z :: idx) x nuc v Hrx Hrn Hs Hg) as [w Hw].
    pose proof (get_zeros_like _ _ _ Hg) as H0.
    exists w. split; [exact Hw|].
    repeat split;
      try (rewrite (get_stack3_axis1 z idx _ _ _ _ _ _ _ H0 Hg Hw); reflexivity).
    intros p Hp. rewrite (get_stack3_axis1 z idx _ _ _ _ _ _ p H0 Hg Hw).
    apply nth_error_None. simpl. exact Hp.
  - intros idx v Hg.
    destruct (get_defined_same_shape idx x nuc v Hrx Hrn Hs Hg) as [w Hw].
    pose proof (get_zeros_like _ _ _ Hg) as H0.
    rewrite <- (get_length idx x v Hrx Hg).
    exists w. split; [exact Hw|].
    repeat split;
      try (rewrite (get_stack3_trailing idx _ _ _ _ _ _ _ H0 Hg Hw); reflexivity).
    intros p Hp. rewrite (get_stack3_trailing idx _ _ _ _ _ _ p H0 Hg Hw).
    apply nth_error_None. simpl. exact Hp.
Qed.

Lemma stack3_shape (three_d : bool) (x nuc : ndarray Q) :
  shape nuc = shape x -> Forall (fun d => 0 < d) (shape x) ->
  (three_d = true -> 1 <= ndim x) ->
  stacked_shape three_d (shape x)
    (shape (stack3 (if three_d then 1 else ndim x) (zeros_like x) x nuc)).
Proof.
  intros Hs Hpos H3. pose proof (shape_nd_map (fun _ : Q => 0%Q) x) as Hz.
  fold (zeros_like x) in Hz. destruct three_d; unfold stacked_shape.
  - specialize (H3 eq_refl). unfold ndim in H3.
    destruct (shape x) as [|d rest] eqn:E; [simpl in H3; lia|].
    inversion Hpos; subst.
    apply shape_stack3_axis1; congruence.
  - replace (ndim x) with (ndim (zeros_like x)) by (unfold ndim; rewrite Hz; reflexivity).
    rewrite <- Hz. apply shape_stack3_trailing; congruence.
Qed.

Lemma np_stack3_ok (three_d : bool) (x nuc : ndarray Q) :
  shape nuc = shape x -> (three_d = true -> 1 <= ndim x) ->
  np_stack3 (zeros_like x) x nuc (if three_d then 1%Z else (-1)%Z) =
    inr (stack3 (if three_d then 1 else ndim x) (zeros_like x) x nuc).
Proof.
  intros Hs H3. unfold np_stack3.
  pose proof (shape_nd_map (fun _ : Q => 0%Q) x) as Hz. fold (zeros_like x) in Hz.
  replace (shape_eqb (shape (zeros_like x)) (shape x)) with true
    by (symmetry; apply shape_eqb_eq; exact Hz).
  replace (shape_eqb (shape (zeros_like x)) (shape nuc)) with true
    by (symmetry; apply shape_eqb_eq; congruence).
  simpl. replace (ndim (zeros_like x)) with (ndim x)
    by (unfold ndim; rewrite Hz; reflexivity).
  destruct three_d; [rewrite normalize_axis_one by auto|rewrite normalize_axis_last];
    reflexivity.
Qed.

Lemma np_stack3_same_shape (a b c : ndarray Q) (axis : Z) (t : ndarray Q) :
  np_stack3 a b c axis = inr t -> shape a = shape b /\ shape a = shape c.
Proof.
  unfold np_stack3.
  destruct (shape_eqb (shape a) (shape b)) eqn:E1; [|discriminate].
  destruct (shape_eqb (shape a) (shape c)) eqn:E2; [|discriminate].
  intros _. split; apply shape_eqb_eq; assumption.
Qed.

(** C1. Channel composer, for a single-channel primary image: without
    an auxiliary image, or with the nuclei model, the first inference
    call gets the primary image unchanged and channels [0, 0]; with an
    auxiliary image of the same shape it gets channels [2, 3] and the
    stack of an all-zero plane, the primary image and the auxiliary
    image, the new axis right after the leading one in 3D mode and
    last in 2D mode; no inference is reached with an auxiliary image
    that is missing or of another shape; and without a denoiser that
    first call is the segmentation call. *)
Theorem C1_channel_composer (ext : External) (s : St) (x : Image) :
  let cfg := settings (self s) in
  let evs := events (run ext s) in
  cache_ok (self s) ->
  lookup (value (x_name cfg)) (image_set (workspace s)) = Some x ->
  multichannel x = false ->
  rect (pixel_data x) = true ->
  (value (supply_nuclei cfg) = false \/ value (mode cfg) = "nuclei"%string ->
     first_inference evs = Some (pixel_data x, [0; 0]%Z)) /\
  (value (supply_nuclei cfg) = true -> value (mode cfg) <> "nuclei"%string ->
     (forall nuc,
        lookup (value (nuclei_image cfg)) (image_set (workspace s)) = Some nuc ->
        rect (pixel_data nuc) = true ->
        shape (pixel_data nuc) = shape (pixel_data x) ->
        (value (do_3D cfg) = true -> 1 <= ndim (pixel_data x)) ->
        exists t,
          first_inference evs = Some (t, [2; 3]%Z) /\
          stacked_planes (value (do_3D cfg)) (pixel_data x) (pixel_data nuc) t /\
          (Forall (fun d => 0 < d) (shape (pixel_data x)) ->
           stacked_shape (value (do_3D cfg)) (shape (pixel_data x)) (shape t))) /\
     (forall t ch, first_inference evs = Some (t, ch) ->
        ch = [2; 3]%Z /\
        exists nuc,
          lookup (value (nuclei_image cfg)) (image_set (workspace s)) = Some nuc /\
          shape (pixel_data nuc) = shape (pixel_data x))) /\
  (value (denoise cfg) = false ->
     Forall (fun a => first_inference evs = Some (ea_x a, ea_channels a)) (model_evals evs)).
Proof.
  intros cfg evs Hok Hx Hm Hrx. subst evs. split; [|split].
  3:{ intros Hden. subst cfg.
      destruct (run_requests ext s Hok)
        as [[_ E]|(x' & xd & ch & _ & _ & _ & _ & H1 & _ & H3)].
      - rewrite E. apply Forall_nil.
      - rewrite H1, H3. unfold segmentation_input, segmentation_request, seg_args.
        rewrite Hden. at_most_one. reflexivity. }
  - intros Hplain. apply wants_nuclei_false in Hplain.
    pose proof (compose_plain cfg (pixel_data x) s Hplain) as Hc.
    destruct (run_calls ext s x _ _ Hok Hx Hm Hc) as (H1 & _). exact H1.
  - intros Hsup Hmode.
    assert (Hw : wants_nuclei cfg = true).
    { destruct (wants_nuclei cfg) eqn:E; [reflexivity|].
      apply wants_nuclei_false in E. destruct E; congruence. }
    pose proof (compose_stacked cfg (pixel_data x) s Hw) as Hc.
    split.
    + intros nuc Hn Hrn Hs H3.
      rewrite Hn, (np_stack3_ok (value (do_3D cfg)) _ _ Hs H3) in Hc.
      destruct (run_calls ext s x _ _ Hok Hx Hm Hc) as (H1 & _).
      eexists. split; [exact H1|]. split.
      * apply stack3_planes; assumption.
      * intros Hpos. apply stack3_shape; assumption.
    + intros t ch Hfi.
      destruct (lookup (value (nuclei_image cfg)) (image_set (workspace s)))
        as [nuc|] eqn:Hn.
      * destruct (np_stack3 (zeros_like (pixel_data x)) (pixel_data x) (pixel_data nuc) _)
          as [e|t'] eqn:Hst.
        -- destruct (run_stopped_early ext s) as [e' E].
           { intros x' Hx' _. fold cfg in Hx'. rewrite Hx in Hx'.
             injection Hx' as <-. fold cfg. rewrite Hc. reflexivity. }
           rewrite E in Hfi. discriminate.
        -- destruct (run_calls ext s x _ _ Hok Hx Hm Hc) as (H1 & _).
           rewrite H1 in Hfi. inversion Hfi; subst. split; [reflexivity|].
           exists nuc. split; [reflexivity|].
           destruct (np_stack3_same_shape _ _ _ _ _ Hst) as [_ H2].
           unfold zeros_like in H2. rewrite shape_nd_map in H2. congruence.
      * destruct (run_stopped_early ext s) as [e' E].
        { intros x' Hx' _. fold cfg in Hx'. rewrite Hx in Hx'.
          injection Hx' as <-. fold cfg. rewrite Hc. reflexivity. }
        rewrite E in Hfi. discriminate.
Qed.

(** ** Rejected input *)

(** C9. A multichannel primary image ends the run with the
    configuration error before anything else happens: no event (no
    model load, no inference call), and the module and the workspace
    (object set, image set) are as they were. *)
Theorem C9_multichannel_rejected (ext : External) (s : St) (x : Image) :
  lookup (value (x_name (settings (self s)))) (image_set (workspace s)) = Some x ->
  multichannel x = true ->
  result (run ext s) =
    inl (ValueError
           "Color images are not currently supported. Please provide greyscale images.") /\
  events (run ext s) = [] /\
  filter is_model_load (events (run ext s)) = [] /\
  filter is_denoiser_load (events (run ext s)) = [] /\
  filter is_inference (events (run ext s)) = [] /\
  final (run ext s) = s /\
  object_set (workspace (final (run ext s))) = object_set (workspace s) /\
  image_set (workspace (final (run ext s))) = image_set (workspace s).
Proof.
  intros Hx Hm.
  assert (E : run ext s =
              (inl (ValueError
                      "Color images are not currently supported. Please provide greyscale images."),
               s, [])).
  { unfold run. unfold bind at 1. unfold get_self at 1. cbn beta iota zeta.
    unfold bind at 1. rewrite (get_image_ok _ _ _ Hx). cbn beta iota zeta.
    rewrite Hm. reflexivity. }
  rewrite E. repeat split; reflexivity.
Qed.

(** ** Edge-mask removal *)

Lemma get_in_ravel {A : Type} (idx : list nat) :
  forall (t : ndarray A) v, get idx t = Some v -> In v (ravel t).
Proof.
  induction idx as [|i rest IH]; intros [a|xs] v; simpl; try discriminate.
  - intros E; inversion E; auto.
  - destruct (nth_error xs i) as [x|] eqn:E; [|discriminate].
    intros Hg. apply in_flat_map. exists x. split; [eapply nth_error_In; eauto|].
    apply IH, Hg.
Qed.

Lemma ravel_get {A : Type} (t : ndarray A) :
  forall v, In v (ravel t) -> exists idx, get idx t = Some v.
Proof.
  induction t as [a|xs IH] using ndarray_nested_ind; intros v; simpl.
  - intros [<-|[]]. exists []. reflexivity.
  - intros Hin. apply in_flat_map in Hin. destruct Hin as (x & Hx & Hv).
    rewrite Forall_forall in IH. destruct (IH x Hx v Hv) as [idx Hg].
    destruct (In_nth_error _ _ Hx) as [i Hi].
    exists (i :: idx). simpl. rewrite Hi. exact Hg.
Qed.

Lemma label_in_iff (l : Z) (ls : list Z) : label_in l ls = true <-> In l ls.
Proof.
  unfold label_in. rewrite existsb_exists. split.
  - intros (v & Hv & E). apply Z.eqb_eq in E. subst. exact Hv.
  - intros H. exists l. split; [exact H|apply Z.eqb_refl].
Qed.

Lemma nth_error_last {A : Type} (xs : list A) (d : A) :
  xs <> [] -> nth_error xs (length xs - 1) = Some (last xs d).
Proof.
  induction xs as [|x xs IH]; [congruence|]. intros _.
  destruct xs as [|x' xs']; [reflexivity|].
  replace (length (x :: x' :: xs') - 1) with (S (length (x' :: xs') - 1))
    by (simpl; lia).
  change (nth_error (x :: x' :: xs') (S (length (x' :: xs') - 1)))
    with (nth_error (x' :: xs') (length (x' :: xs') - 1)).
  rewrite IH by discriminate. reflexivity.
Qed.

(** Every label with a pixel on a boundary face is found. *)
Lemma edge_labels_complete (idx : list nat) :
  forall (y : labels) l, rect y = true ->
    get idx y = Some l -> on_edge idx (shape y) = true -> In l (edge_labels y).
Proof.
  induction idx as [|i rest IH]; intros [a|xs] l Hr;
    cbn [get shape on_edge edge_labels]; try discriminate.
  destruct (nth_error xs i) as [x|] eqn:E; [|discriminate].
  intros Hg He.
  assert (Hin : In x xs) by (eapply nth_error_In; eauto).
  destruct (rect_child xs x Hr Hin) as [Hrx Hsx].
  apply orb_prop in He. destruct He as [He|He]; [apply orb_prop in He; destruct He as [He|He]|].
  - apply Nat.eqb_eq in He. subst i. destruct xs as [|h t]; [discriminate|].
    simpl in E. inversion E; subst. apply in_or_app. left. eapply get_in_ravel; eauto.
  - apply Nat.eqb_eq in He.
    assert (Hne : xs <> []) by (intros ->; destruct i; discriminate).
    pose proof (nth_error_last xs (Axis []) Hne) as HL.
    replace (length xs - 1) with i in HL by lia. rewrite E in HL. inversion HL as [Hx].
    apply in_or_app. right. apply in_or_app. left. rewrite <- Hx.
    eapply get_in_ravel; eauto.
  - apply in_or_app. right. apply in_or_app. right.
    apply in_flat_map. exists x. split; [exact Hin|].
    apply (IH x l Hrx Hg). rewrite Hsx.
    destruct xs as [|h t]; [contradiction|]. exact He.
Qed.

(** Every label that is found has a pixel on a boundary face. *)
Lemma edge_labels_sound (y : labels) :
  forall l, rect y = true -> In l (edge_labels y) -> touches_edge l y.
Proof.
  induction y as [a|xs IH] using ndarray_nested_ind; intros l Hr;
    cbn [edge_labels]; [contradiction|].
  intros Hin. unfold touches_edge. apply in_app_or in Hin. destruct Hin as [Hin|Hin].
  - destruct xs as [|h t]; [contradiction|].
    destruct (ravel_get h l Hin) as [idx Hg].
    exists (0 :: idx). split; [exact Hg|reflexivity].
  - apply in_app_or in Hin. destruct Hin as [Hin|Hin].
    + assert (Hne : xs <> []) by (intros ->; contradiction).
      destruct (ravel_get _ l Hin) as [idx Hg].
      exists ((length xs - 1) :: idx). split.
      * cbn [get]. rewrite (nth_error_last xs (Axis []) Hne). exact Hg.
      * cbn [on_edge shape].
        replace (S (length xs - 1) =? length xs) with true.
        -- rewrite orb_true_r. reflexivity.
        -- symmetry. apply Nat.eqb_eq. destruct xs; [congruence|simpl; lia].
    + apply in_flat_map in Hin. destruct Hin as (x & Hx & Hl).
      destruct (rect_child xs x Hr Hx) as [Hrx Hsx].
      rewrite Forall_forall in IH.
      destruct (IH x Hx l Hrx Hl) as (idx & Hg & He).
      destruct (In_nth_error _ _ Hx) as [i Hi].
      exists (i :: idx). split; [cbn [get]; rewrite Hi; exact Hg|].
      cbn [on_edge shape]. rewrite Hsx in He. rewrite He. apply orb_true_r.
Qed.

Lemma interior_label (y : labels) (l : Z) :
  rect y = true -> label_in l (edge_labels y) = false -> ~ touches_edge l y.
Proof.
  intros Hr Hn (idx & Hg & He).
  pose proof (edge_labels_complete idx y l Hr Hg He) as Hin.
  apply label_in_iff in Hin. congruence.
Qed.

Lemma ravel_nd_map {A B : Type} (f : A -> B) (t : ndarray A) :
  ravel (nd_map f t) = map f (ravel t).
Proof.
  induction t as [a|xs IH] using ndarray_nested_ind; [reflexivity|].
  cbn [nd_map ravel]. induction IH as [|x rest Hx _ IHrest]; [reflexivity|].
  cbn [map flat_map]. rewrite Hx, IHrest, map_app. reflexivity.
Qed.

(** An array with an axis and an element has an element on a boundary
    face. *)
Lemma edge_pixel_exists {A : Type} (y : ndarray A) (l : A) :
  rect y = true -> shape y <> [] -> In l (ravel y) ->
  exists idx v, get idx y = Some v /\ on_edge idx (shape y) = true.
Proof.
  destruct y as [a|xs]; [intros _ H; contradiction H; reflexivity|].
  intros Hr _ Hin. cbn [ravel] in Hin. apply in_flat_map in Hin.
  destruct Hin as (x & Hx & Hl).
  destruct xs as [|h t]; [contradiction|].
  destruct (rect_child (h :: t) x Hr Hx) as [Hrx Hsx].
  destruct (rect_child (h :: t) h Hr (or_introl eq_refl)) as [Hrh _].
  destruct (ravel_get x l Hl) as [idx Hg].
  destruct (get_defined_same_shape idx x h l Hrx Hrh (eq_sym Hsx) Hg) as [w Hw].
  exists (0 :: idx), w. split; [exact Hw|reflexivity].
Qed.

(** ** The library's renumbering *)

Lemma position_below (vals : list Z) (u w : Z) :
  In u vals -> (u < w)%Z -> (position vals u < position vals w)%Z.
Proof.
  intros Hu Hlt. unfold position. apply Nat2Z.inj_lt.
  set (A := nodup Z.eq_dec (filter (fun v => (v <? u)%Z) vals)).
  set (B := nodup Z.eq_dec (filter (fun v => (v <? w)%Z) vals)).
  change (length (u :: A) <= length B). apply NoDup_incl_length.
  - constructor; [|apply NoDup_nodup].
    subst A. rewrite nodup_In, filter_In. intros [_ H].
    apply Z.ltb_lt in H. lia.
  - intros z [<-|Hz]; subst A B; rewrite nodup_In, filter_In in *.
    + split; [exact Hu|apply Z.ltb_lt; exact Hlt].
    + destruct Hz as [Hz Hzu]. split; [exact Hz|].
      apply Z.ltb_lt in Hzu. apply Z.ltb_lt. lia.
Qed.

Lemma position_injective (vals : list Z) (u w : Z) :
  In u vals -> In w vals -> position vals u = position vals w -> u = w.
Proof.
  intros Hu Hw E. destruct (Z.lt_trichotomy u w) as [H|[H|H]]; [|exact H|].
  - pose proof (position_below vals u w Hu H). lia.
  - pose proof (position_below vals w u Hw H). lia.
Qed.

Lemma position_least (vals : list Z) :
  Forall (fun v => (0 <= v)%Z) vals -> position vals 0 = 0%Z.
Proof.
  intros H. unfold position.
  replace (filter (fun v => (v <? 0)%Z) vals) with (@nil Z); [reflexivity|].
  symmetry. induction H as [|v rest Hv _ IH]; [reflexivity|].
  cbn [filter]. replace (v <? 0)%Z with false; [exact IH|].
  symmetry. apply Z.ltb_ge. exact Hv.
Qed.

Lemma ravel_clear_edge_masks (y : labels) :
  ravel (clear_edge_masks y) = map (cleared y) (ravel y).
Proof. unfold clear_edge_masks. apply ravel_nd_map. Qed.

Lemma get_utils_remove_edge_masks (idx : list nat) (y : labels) :
  get idx (utils_remove_edge_masks y) =
    option_map (fun l => position (map (cleared y) (ravel y)) (cleared y l)) (get idx y).
Proof.
  unfold utils_remove_edge_masks, unique_inverse.
  rewrite get_nd_map, ravel_clear_edge_masks. unfold clear_edge_masks.
  rewrite get_nd_map. destruct (get idx y); reflexivity.
Qed.

Lemma cleared_cases (y : labels) (l : Z) :
  (cleared y l = 0%Z /\ (l = 0%Z \/ ((0 < l)%Z /\ In l (edge_labels y)))) \/
  (cleared y l = l /\ l <> 0%Z /\ ((0 < l)%Z -> survives y l = true)).
Proof.
  unfold cleared, survives.
  destruct (0 <? l)%Z eqn:Hp; cbn [andb].
  - apply Z.ltb_lt in Hp. destruct (label_in l (edge_labels y)) eqn:Hin.
    + left. split; [reflexivity|]. right. split; [exact Hp|]. apply label_in_iff, Hin.
    + right. split; [reflexivity|]. split; [lia|]. reflexivity.
  - apply Z.ltb_ge in Hp. destruct (Z.eq_dec l 0) as [->|N].
    + left. split; [reflexivity|]. left. reflexivity.
    + right. split; [reflexivity|]. split; [exact N|]. lia.
Qed.

Lemma cleared_survivor (y : labels) (l : Z) : survives y l = true -> cleared y l = l.
Proof.
  unfold survives, cleared. intros H. apply andb_true_iff in H. destruct H as [Hp Hn].
  rewrite Hp. apply negb_true_iff in Hn. rewrite Hn. reflexivity.
Qed.

(** After the first step there is background: the element on the
    boundary face is background or has been set to it. *)
Lemma cleared_has_background (y : labels) (l : Z) :
  rect y = true -> shape y <> [] -> Forall (fun v => (0 <= v)%Z) (ravel y) ->
  In l (ravel y) -> In 0%Z (map (cleared y) (ravel y)).
Proof.
  intros Hr Hne Hpos Hl.
  destruct (edge_pixel_exists y l Hr Hne Hl) as (idx & v & Hg & He).
  pose proof (get_in_ravel idx y v Hg) as Hv.
  apply in_map_iff. exists v. split; [|exact Hv].
  destruct (cleared_cases y v) as [[E _]|(_ & N & S)]; [exact E|].
  rewrite Forall_forall in Hpos. pose proof (Hpos v Hv) as H0.
  assert (Hp : (0 < v)%Z) by lia.
  pose proof (S Hp) as Hs. unfold survives in Hs.
  apply andb_true_iff in Hs. destruct Hs as [_ Hs]. apply negb_true_iff in Hs.
  pose proof (edge_labels_complete idx y v Hr Hg He) as Hin.
  apply label_in_iff in Hin. congruence.
Qed.

(** The position of a surviving label after the first step is one
    more than the number of surviving labels below it. *)
Lemma position_of_survivor (y : labels) (l : Z) :
  Forall (fun v => (0 <= v)%Z) (ravel y) ->
  In 0%Z (map (cleared y) (ravel y)) ->
  survives y l = true ->
  position (map (cleared y) (ravel y)) l = new_label y l.
Proof.
  intros Hpos Hzero Hs. unfold position, new_label.
  assert (Hl : (0 < l)%Z).
  { unfold survives in Hs. apply andb_true_iff in Hs. apply Z.ltb_lt, Hs. }
  set (A := nodup Z.eq_dec (filter (fun v => (v <? l)%Z) (map (cleared y) (ravel y)))).
  set (B := nodup Z.eq_dec
              (filter (fun v => survives y v && (v <? l)%Z) (ravel y))).
  change (Z.of_nat (length A) = (1 + Z.of_nat (length B))%Z).
  replace (1 + Z.of_nat (length B))%Z with (Z.of_nat (length (0%Z :: B)))
    by (cbn [length]; lia).
  f_equal. apply Nat.le_antisymm; apply NoDup_incl_length.
  - apply NoDup_nodup.
  - intros z Hz. subst A. rewrite nodup_In, filter_In, in_map_iff in Hz.
    destruct Hz as [(v & Hv & Hin) Hzl]. apply Z.ltb_lt in Hzl.
    destruct (cleared_cases y v) as [[E _]|(E & N & S)].
    + left. congruence.
    + right. subst B. rewrite nodup_In, filter_In.
      rewrite Forall_forall in Hpos. pose proof (Hpos v Hin) as H0.
      rewrite E in Hv. subst z. split; [exact Hin|].
      rewrite S by lia. apply Z.ltb_lt. exact Hzl.
  - constructor; [|apply NoDup_nodup].
    subst B. rewrite nodup_In, filter_In. intros [_ H]. discriminate H.
  - intros z [<-|Hz]; subst A; rewrite nodup_In, filter_In.
    + split; [exact Hzero|apply Z.ltb_lt; exact Hl].
    + subst B. rewrite nodup_In, filter_In in Hz. destruct Hz as [Hin H].
      apply andb_true_iff in H. destruct H as [Hsz Hzl]. split; [|exact Hzl].
      apply in_map_iff. exists z. split; [apply cleared_survivor, Hsz|exact Hin].
Qed.

Lemma survives_interior (y : labels) (l : Z) :
  rect y = true -> (0 < l)%Z -> ~ touches_edge l y -> survives y l = true.
Proof.
  intros Hr Hl Hn. unfold survives. apply andb_true_iff. split; [apply Z.ltb_lt, Hl|].
  apply negb_true_iff. destruct (label_in l (edge_labels y)) eqn:E; [|reflexivity].
  exfalso. apply Hn. apply edge_labels_sound; [exact Hr|]. apply label_in_iff, E.
Qed.

(** What the library's edge removal does to a rectangular map of
    non-negative labels with at least one axis: the pixels of the
    objects on a boundary face become background, and every other
    object keeps exactly its pixels under a new label, one more than
    the number of surviving objects with a smaller label. *)
Lemma utils_remove_edge_masks_props (y : labels) :
  rect y = true -> shape y <> [] -> Forall (fun v => (0 <= v)%Z) (ravel y) ->
  shape (utils_remove_edge_masks y) = shape y /\
  (forall l idx, get idx y = Some l -> l = 0%Z \/ touches_edge l y ->
     get idx (utils_remove_edge_masks y) = Some 0%Z) /\
  (forall l idx0, get idx0 y = Some l -> (0 < l)%Z -> ~ touches_edge l y ->
     forall idx,
       get idx (utils_remove_edge_masks y) = Some (new_label y l) <->
       get idx y = Some l).
Proof.
  intros Hr Hne Hpos.
  assert (Hposc : Forall (fun v => (0 <= v)%Z) (map (cleared y) (ravel y))).
  { apply Forall_forall. intros z Hz. apply in_map_iff in Hz.
    destruct Hz as (v & <- & Hv). rewrite Forall_forall in Hpos.
    pose proof (Hpos v Hv). destruct (cleared_cases y v) as [[E _]|(E & _)]; rewrite E; lia. }
  split; [|split].
  - unfold utils_remove_edge_masks, unique_inverse, clear_edge_masks.
    rewrite !shape_nd_map. reflexivity.
  - intros l idx Hg Hcase. rewrite get_utils_remove_edge_masks, Hg. cbn [option_map].
    assert (E : cleared y l = 0%Z).
    { destruct Hcase as [->|(i & Hi & He)]; [reflexivity|].
      destruct (cleared_cases y l) as [[E _]|(_ & N & S)]; [exact E|].
      pose proof (get_in_ravel idx y l Hg) as Hin.
      rewrite Forall_forall in Hpos. pose proof (Hpos l Hin) as H0.
      assert (Hp : (0 < l)%Z) by lia. pose proof (S Hp) as Hs.
      unfold survives in Hs. apply andb_true_iff in Hs. destruct Hs as [_ Hs].
      apply negb_true_iff in Hs.
      pose proof (edge_labels_complete i y l Hr Hi He) as Hedge.
      apply label_in_iff in Hedge. congruence. }
    rewrite E, position_least by exact Hposc. reflexivity.
  - intros l idx0 Hg0 Hl Hint idx.
    pose proof (survives_interior y l Hr Hl Hint) as Hs.
    pose proof (get_in_ravel idx0 y l Hg0) as Hin.
    pose proof (cleared_has_background y l Hr Hne Hpos Hin) as Hzero.
    pose proof (position_of_survivor y l Hpos Hzero Hs) as Hpl.
    pose proof (cleared_survivor y l Hs) as Hcl.
    rewrite get_utils_remove_edge_masks. split.
    + destruct (get idx y) as [v|] eqn:Hv; [|discriminate]. cbn [option_map].
      intros H. injection H as H. rewrite <- Hpl in H.
      apply position_injective in H.
      * destruct (cleared_cases y v) as [[E _]|(E & _)]; [lia|]. congruence.
      * apply in_map_iff. exists v. split; [reflexivity|]. eapply get_in_ravel; eauto.
      * apply in_map_iff. exists l. split; [exact Hcl|exact Hin].
    + intros ->. cbn [option_map]. rewrite Hcl, Hpl. reflexivity.
Qed.

(** C5, as the code has it. For a host whose [Binary] settings test
    true exactly when their value is true, and the edge removal of the
    library: edge-mask removal is applied to the label map exactly
    when the remove-edge-masks setting is on.  Switched off, the
    (possibly resized) label map is published as it is; switched on,
    the pixels of every object with a pixel on a boundary face are
    background in the published map, and every other object keeps
    exactly its pixels but not its label: the surviving objects are
    renumbered 1, 2, ... in the order of their labels. *)
Theorem C5_edge_mask_removal (ext : External) (s : St) (x : Image) (xd : ndarray Q)
  (ch : list Z) (inp : ndarray Q) (y : labels) (flows : list (ndarray Q)) :
  let cfg := settings (self s) in
  let y1 := if upsampled cfg
            then resize_labels ext y (shape (pixel_data x)) nearest_labels else y in
  (forall b : Binary, truth ext b = value b) ->
  (forall m, edge_remover ext m = utils_remove_edge_masks m) ->
  cache_ok (self s) ->
  lookup (value (x_name cfg)) (image_set (workspace s)) = Some x ->
  multichannel x = false ->
  compose cfg (pixel_data x) s = (inr (xd, ch), s, []) ->
  segmentation_output ext cfg x xd ch = inr (inp, y, flows) ->
  exists obj,
    lookup (value (y_name cfg)) (object_set (workspace (final (run ext s)))) = Some obj /\
    (value (remove_edge_masks cfg) = false -> segmented obj = y1) /\
    (value (remove_edge_masks cfg) = true ->
       segmented obj = utils_remove_edge_masks y1 /\
       (rect y1 = true -> shape y1 <> [] -> Forall (fun v => (0 <= v)%Z) (ravel y1) ->
          shape (segmented obj) = shape y1 /\
          (forall l idx, get idx y1 = Some l -> l = 0%Z \/ touches_edge l y1 ->
             get idx (segmented obj) = Some 0%Z) /\
          (forall l idx0, get idx0 y1 = Some l -> (0 < l)%Z -> ~ touches_edge l y1 ->
             forall idx,
               get idx (segmented obj) = Some (new_label y1 l) <->
               get idx y1 = Some l))).
Proof.
  intros cfg y1 Htruth Hrem Hok Hx Hm Hc Hout.
  pose proof (run_outcome ext s x xd ch Hok Hx Hm Hc) as H. cbn zeta in H. fold cfg in H.
  rewrite Hout in H. cbn [fst snd] in H. destruct H as [Hpub _].
  eexists. split; [exact Hpub|]. cbn [segmented].
  unfold postprocess. fold y1. rewrite Htruth. split.
  - intros ->. reflexivity.
  - intros ->. rewrite Hrem. split; [reflexivity|].
    intros Hr Hne Hpos. apply utils_remove_edge_masks_props; assumption.
Qed.

(** ** The segmentation request *)

Lemma resolve_diameter_zero (cfg : Settings) :
  value (expected_diameter cfg) = 0%Z -> resolve_diameter cfg = None.
Proof. intros H. unfold resolve_diameter. rewrite H. reflexivity. Qed.

Lemma denoised_diameter_cases (cfg : Settings) (dm : option Z) :
  (value (denoise_type cfg) = "upsample_cyto3"%string ->
     denoised_diameter cfg dm = Some 30%Z) /\
  (value (denoise_type cfg) = "upsample_nuclei"%string ->
     denoised_diameter cfg dm = Some 17%Z) /\
  (value (denoise_type cfg) <> "upsample_cyto3"%string ->
   value (denoise_type cfg) <> "upsample_nuclei"%string ->
     denoised_diameter cfg dm = dm).
Proof.
  unfold denoised_diameter. repeat split.
  - intros ->. reflexivity.
  - intros ->. reflexivity.
  - intros H1 H2. apply String.eqb_neq in H1, H2. rewrite H1, H2. reflexivity.
Qed.

(** C2, as the code has it. A diameter of 0 becomes an unset diameter
    whatever the model family and in 2D as in 3D: the denoiser call
    gets [None]; the segmentation call gets [None] unless an
    upsampling denoiser ran before it, and then it gets that
    denoiser's constant, 30 after [upsample_cyto3] and 17 after
    [upsample_nuclei]; the literal 0 is never passed, and the setting
    alone rejects nothing: when the composer and the denoiser succeed,
    the segmentation call is made. *)
Theorem C2_diameter_zero_unset (ext : External) (s : St) :
  let cfg := settings (self s) in
  let evs := events (run ext s) in
  cache_ok (self s) ->
  value (expected_diameter cfg) = 0%Z ->
  resolve_diameter cfg = None /\
  Forall (fun c => given_diameter c = None) (denoise_evals evs) /\
  Forall (fun a =>
            (denoise_evals evs = [] -> ea_diameter a = None) /\
            Forall (fun c =>
                      (dn_model_type (called_denoiser c) = "upsample_cyto3"%string ->
                         ea_diameter a = Some 30%Z) /\
                      (dn_model_type (called_denoiser c) = "upsample_nuclei"%string ->
                         ea_diameter a = Some 17%Z) /\
                      (dn_model_type (called_denoiser c) <> "upsample_cyto3"%string ->
                       dn_model_type (called_denoiser c) <> "upsample_nuclei"%string ->
                         ea_diameter a = None))
                   (denoise_evals evs) /\
            (value (denoise cfg) = false -> ea_diameter a = None) /\
            (value (denoise cfg) = true ->
               (value (denoise_type cfg) = "upsample_cyto3"%string ->
                  ea_diameter a = Some 30%Z) /\
               (value (denoise_type cfg) = "upsample_nuclei"%string ->
                  ea_diameter a = Some 17%Z) /\
               (value (denoise_type cfg) <> "upsample_cyto3"%string ->
                value (denoise_type cfg) <> "upsample_nuclei"%string ->
                  ea_diameter a = None)))
         (model_evals evs) /\
  Forall (fun a => ea_diameter a <> Some 0%Z) (model_evals evs) /\
  (forall x xd ch inp,
     lookup (value (x_name cfg)) (image_set (workspace s)) = Some x ->
     multichannel x = false ->
     compose cfg (pixel_data x) s = (inr (xd, ch), s, []) ->
     segmentation_input ext cfg xd ch = inr inp ->
     exists a, model_evals evs = [a] /\ ea_diameter a <> Some 0%Z).
Proof.
  intros cfg evs Hok Hz. subst evs.
  pose proof (resolve_diameter_zero cfg Hz) as Hnone.
  assert (Hoff : forall x inp ch,
             value (denoise cfg) = false ->
             ea_diameter (segmentation_request ext cfg x inp ch) = None).
  { intros x inp ch Hden. unfold segmentation_request, seg_args. cbn [ea_diameter].
    rewrite Hden. exact Hnone. }
  assert (Hon : forall x inp ch,
             value (denoise cfg) = true ->
             let a := segmentation_request ext cfg x inp ch in
             (value (denoise_type cfg) = "upsample_cyto3"%string ->
                ea_diameter a = Some 30%Z) /\
             (value (denoise_type cfg) = "upsample_nuclei"%string ->
                ea_diameter a = Some 17%Z) /\
             (value (denoise_type cfg) <> "upsample_cyto3"%string ->
              value (denoise_type cfg) <> "upsample_nuclei"%string ->
                ea_diameter a = None)).
  { intros x inp ch Hden a. subst a. unfold segmentation_request, seg_args.
    cbn [ea_diameter]. rewrite Hden, Hnone.
    destruct (denoised_diameter_cases cfg None) as (H1 & H2 & H3).
    split; [exact H1|]. split; [exact H2|exact H3]. }
  assert (Hnz : forall x inp ch,
             ea_diameter (segmentation_request ext cfg x inp ch) <> Some 0%Z).
  { intros x inp ch. destruct (Bool.bool_dec (value (denoise cfg)) true) as [Hden|Hden];
      [|apply not_true_is_false in Hden].
    - destruct (Hon x inp ch Hden) as (H1 & H2 & H3).
      destruct (string_dec (value (denoise_type cfg)) "upsample_cyto3") as [E1|N1];
        [rewrite (H1 E1); discriminate|].
      destruct (string_dec (value (denoise_type cfg)) "upsample_nuclei") as [E2|N2];
        [rewrite (H2 E2); discriminate|].
      rewrite (H3 N1 N2). discriminate.
    - rewrite (Hoff x inp ch Hden). discriminate. }
  split; [exact Hnone|]. subst cfg.
  destruct (run_requests ext s Hok) as [[_ E]|(x & xd & ch & Hx & Hm & Hc & _ & _ & H2 & H3)].
  - rewrite E. cbn [denoise_evals model_evals]. repeat split; try apply Forall_nil.
    intros x xd ch inp Hx Hm Hc Hin.
    destruct (run_calls ext s x xd ch Hok Hx Hm Hc) as (H1 & _).
    rewrite E in H1. discriminate.
  - rewrite H2, H3. split; [|split; [|split]].
    + destruct (value (denoise _)); at_most_one. exact Hnone.
    + destruct (segmentation_input ext _ xd ch); at_most_one.
      destruct (Bool.bool_dec (value (denoise (settings (self s)))) true) as [Hden|Hden];
        [rewrite Hden|apply not_true_is_false in Hden; rewrite Hden].
      * split; [intros H; discriminate H|]. split.
        -- at_most_one. cbn [called_denoiser fst snd denoiser_for requested_denoiser
                              dn_model_type].
           apply (Hon x n ch Hden).
        -- split; [intros H; discriminate H|]. intros _. apply (Hon x n ch Hden).
      * split; [intros _; apply Hoff, Hden|]. split; [apply Forall_nil|].
        split; [intros _; apply Hoff, Hden|intros H; discriminate H].
    + destruct (segmentation_input ext _ xd ch); at_most_one. apply Hnz.
    + intros x' xd' ch' inp Hx' Hm' Hc' Hin.
      rewrite Hx in Hx'. injection Hx' as <-. rewrite Hc in Hc'. injection Hc' as <- <-.
      rewrite Hin. eexists. split; [reflexivity|]. apply Hnz.
Qed.

Lemma upsample_names (n : string) :
  In n DENOISER_NAMES ->
  (str_contains "upsample" n = true <->
   n = "upsample_cyto3"%string \/ n = "upsample_nuclei"%string).
Proof.
  unfold DENOISER_NAMES. cbn [In].
  intros [<-|[<-|[<-|[<-|[<-|[<-|[]]]]]]]; vm_compute;
    (split; [intros H; first [discriminate H | auto] |
             intros [H|H]; first [discriminate H | reflexivity]]).
Qed.

(** C3. The denoiser is called with the diameter resolved from the
    setting; the segmentation call after an upsampling denoiser gets
    the denoiser's own constant, 30 after [upsample_cyto3] and 17
    after [upsample_nuclei], whatever the setting says, and after any
    other denoiser it gets the diameter the denoiser was given. *)
Theorem C3_upsample_diameter (ext : External) (s : St) :
  let cfg := settings (self s) in
  let evs := events (run ext s) in
  cache_ok (self s) ->
  Forall (fun c =>
            given_diameter c = resolve_diameter cfg /\
            Forall (diameter_after (called_denoiser c) (given_diameter c)) (model_evals evs))
         (denoise_evals evs) /\
  (forall n, In n DENOISER_NAMES ->
     (str_contains "upsample" n = true <->
      n = "upsample_cyto3"%string \/ n = "upsample_nuclei"%string)) /\
  (forall x xd ch inp,
     lookup (value (x_name cfg)) (image_set (workspace s)) = Some x ->
     multichannel x = false ->
     compose cfg (pixel_data x) s = (inr (xd, ch), s, []) ->
     value (denoise cfg) = true ->
     segmentation_input ext cfg xd ch = inr inp ->
     exists d a,
       denoise_evals evs = [(d, xd, resolve_diameter cfg, ch)] /\
       dn_model_type d = value (denoise_type cfg) /\
       model_evals evs = [a] /\
       diameter_after d (resolve_diameter cfg) a).
Proof.
  intros cfg evs Hok. subst evs.
  assert (Hafter : forall x inp ch,
            value (denoise cfg) = true ->
            diameter_after (denoiser_for (requested_denoiser cfg)) (resolve_diameter cfg)
              (segmentation_request ext cfg x inp ch)).
  { intros x inp ch Hden. unfold diameter_after, segmentation_request, seg_args.
    cbn [ea_diameter dn_model_type denoiser_for requested_denoiser fst snd].
    rewrite Hden. apply denoised_diameter_cases. }
  subst cfg. split; [|split; [exact upsample_names|]].
  - destruct (run_requests ext s Hok)
      as [[_ E]|(x & xd & ch & Hx & Hm & Hc & _ & _ & H2 & H3)].
    + rewrite E. apply Forall_nil.
    + rewrite H2, H3. destruct (value (denoise _)) eqn:Hden; at_most_one.
      cbn [fst snd]. split; [reflexivity|].
      destruct (segmentation_input ext _ xd ch); at_most_one. apply Hafter. reflexivity.
  - intros x xd ch inp Hx Hm Hc Hden Hin.
    destruct (run_calls ext s x xd ch Hok Hx Hm Hc) as (_ & H2 & H3).
    rewrite Hden in H2. rewrite Hin in H3.
    eexists. eexists. split; [exact H2|]. split; [reflexivity|].
    split; [exact H3|]. apply Hafter, Hden.
Qed.

(** C4, as the code has it. In an auxiliary-image run the channels of
    the segmentation call are [0, 1] exactly when a denoiser, of any
    variant, was applied before it, and [2, 3] without a denoiser; in
    a run without auxiliary image they are [0, 0] with or without a
    denoiser.  The first inference call always gets the composed
    channels. *)
Theorem C4_channel_collapse (ext : External) (s : St) :
  let cfg := settings (self s) in
  let evs := events (run ext s) in
  cache_ok (self s) ->
  (wants_nuclei cfg = true ->
     Forall (fun a =>
               (ea_channels a = [0; 1]%Z <-> denoise_evals evs <> []) /\
               (denoise_evals evs = [] -> ea_channels a = [2; 3]%Z))
            (model_evals evs)) /\
  (wants_nuclei cfg = false ->
     Forall (fun a => ea_channels a = [0; 0]%Z) (model_evals evs)) /\
  (forall t ch, first_inference evs = Some (t, ch) ->
     ch = if wants_nuclei cfg then [2; 3]%Z else [0; 0]%Z) /\
  (model_evals evs <> [] -> (denoise_evals evs <> [] <-> value (denoise cfg) = true)).
Proof.
  intros cfg evs Hok. subst evs cfg.
  destruct (run_requests ext s Hok)
    as [[_ E]|(x & xd & ch & Hx & Hm & Hc & Hch & H1 & H2 & H3)].
  - rewrite E. cbn [model_evals first_inference].
    repeat split; try (intros; apply Forall_nil); try discriminate; congruence.
  - rewrite H1, H2, H3. unfold segmentation_request, seg_args.
    split; [|split; [|split]].
    + intros Hw. rewrite Hw in *. subst ch.
      destruct (segmentation_input ext _ xd _); at_most_one. cbn [ea_channels].
      destruct (value (denoise _)); cbn [andb];
        (split; [split; [discriminate || congruence | discriminate || congruence]
                |discriminate || congruence]).
    + intros Hw. rewrite Hw in *. subst ch.
      destruct (segmentation_input ext _ xd _); at_most_one. cbn [ea_channels].
      rewrite andb_false_r. reflexivity.
    + intros t ch' E. inversion E; subst. reflexivity.
    + intros _. destruct (value (denoise _)); split; congruence || discriminate.
Qed.

Lemma stitch_threshold_visible (cfg : Settings) :
  In S_stitch_threshold (visible_settings cfg) <-> value (do_3D cfg) = false.
Proof.
  unfold visible_settings. rewrite !in_app_iff.
  destruct (String.eqb (value (mode cfg)) "nuclei"), (value (supply_nuclei cfg)),
    (String.eqb (value (mode cfg)) "custom"), (value (denoise cfg)),
    (value (save_probabilities cfg)), (value (do_3D cfg)); cbn [negb In];
    (split; [intros H; repeat (destruct H as [H|H]; try discriminate H; try contradiction);
             try reflexivity; try contradiction
            |intros H; first [discriminate H | tauto]]).
Qed.

(** C6, as the code has it. The 3D flag and the stitch threshold of
    the segmentation call are the values of the two settings,
    unchanged; the settings view offers the stitch threshold only
    while 3D is off; so no call has both the 3D flag and a positive
    stitch threshold unless 3D is switched on over a stored positive
    threshold, and then every call has both. *)
Theorem C6_flags_passed_through (ext : External) (s : St) :
  let cfg := settings (self s) in
  let evs := events (run ext s) in
  cache_ok (self s) ->
  Forall (fun a =>
            ea_do_3D a = value (do_3D cfg) /\
            ea_stitch_threshold a = value (stitch_threshold cfg))
         (model_evals evs) /\
  (In S_stitch_threshold (visible_settings cfg) <-> value (do_3D cfg) = false) /\
  (~ (value (do_3D cfg) = true /\ (0 < value (stitch_threshold cfg))%Q) ->
     AsStated.exclusive_flags ext s) /\
  (value (do_3D cfg) = true /\ (0 < value (stitch_threshold cfg))%Q ->
     Forall (fun a => ea_do_3D a = true /\ (0 < ea_stitch_threshold a)%Q)
            (model_evals evs)).
Proof.
  intros cfg evs Hok. subst evs cfg.
  assert (H : Forall (fun a =>
                ea_do_3D a = value (do_3D (settings (self s))) /\
                ea_stitch_threshold a = value (stitch_threshold (settings (self s))))
              (model_evals (events (run ext s)))).
  { destruct (run_requests ext s Hok)
      as [[_ E]|(x & xd & ch & _ & _ & _ & _ & _ & _ & H3)].
    - rewrite E. apply Forall_nil.
    - rewrite H3. destruct (segmentation_input ext _ xd ch); at_most_one.
      split; reflexivity. }
  split; [exact H|]. split; [apply stitch_threshold_visible|]. split.
  - intros Hn. unfold AsStated.exclusive_flags.
    eapply Forall_impl; [|exact H]. cbv beta. intros a [-> ->]. exact Hn.
  - intros Hb. eapply Forall_impl; [|exact H]. cbv beta. intros a [-> ->]. exact Hb.
Qed.

(** C7. After an upsampling denoiser the label map of the
    segmentation call is resized to the shape of the primary image
    with order 0 and [preserve_range], the edge removal (if switched
    on) is applied to the resized map, and the result is what the
    object set receives; with a resize that yields the shape it is
    asked for and an edge removal that keeps the shape, the published
    label map has the shape of the primary image. *)
Theorem C7_upsample_round_trip (ext : External) (s : St) (x : Image) (xd : ndarray Q)
  (ch : list Z) (inp : ndarray Q) (y : labels) (flows : list (ndarray Q)) :
  let cfg := settings (self s) in
  let evs := events (run ext s) in
  let y1 := resize_labels ext y (shape (pixel_data x))
              {| preserve_range := true; order := Some 0%Z |} in
  cache_ok (self s) ->
  lookup (value (x_name cfg)) (image_set (workspace s)) = Some x ->
  multichannel x = false ->
  compose cfg (pixel_data x) s = (inr (xd, ch), s, []) ->
  value (denoise cfg) = true ->
  str_contains "upsample" (value (denoise_type cfg)) = true ->
  segmentation_output ext cfg x xd ch = inr (inp, y, flows) ->
  shape y1 = shape (pixel_data x) ->
  shape (edge_remover ext y1) = shape y1 ->
  (exists d,
     denoise_evals evs = [(d, xd, resolve_diameter cfg, ch)] /\
     str_contains "upsample" (dn_model_type d) = true) /\
  (exists obj,
     lookup (value (y_name cfg)) (object_set (workspace (final (run ext s)))) = Some obj /\
     segmented obj =
       (if truth ext (remove_edge_masks cfg) then edge_remover ext y1 else y1) /\
     shape (segmented obj) = shape (pixel_data x)).
Proof.
  intros cfg evs y1 Hok Hx Hm Hc Hden Hup Hout Hres Hrem. subst evs. split.
  - destruct (run_calls ext s x xd ch Hok Hx Hm Hc) as (_ & H2 & _). fold cfg in H2.
    rewrite Hden in H2. eexists. split; [exact H2|]. exact Hup.
  - pose proof (run_outcome ext s x xd ch Hok Hx Hm Hc) as H. cbn zeta in H. fold cfg in H.
    rewrite Hout in H. cbn [fst snd] in H. destruct H as [Hpub _].
    eexists. split; [exact Hpub|]. cbn [segmented].
    unfold postprocess, upsampled. rewrite Hden, Hup. cbn [andb].
    change nearest_labels with {| preserve_range := true; order := Some 0%Z |}.
    fold y1. split; [reflexivity|].
    destruct (truth ext (remove_edge_masks cfg)); congruence.
Qed.

(** ** The claims on concrete runs *)

Import Scenario.

Lemma C1_channel_composer_witness :
  exists t,
    first_inference (events (run provider with_nuclei)) = Some (t, [2; 3]%Z) /\
    stacked_planes false cells4 dna4 t /\
    shape t = [4; 4; 3].
Proof.
  destruct (C1_channel_composer provider with_nuclei (grey cells4 2)
              (cache_ok_init _ _) eq_refl eq_refl eq_refl) as (_ & H & _).
  destruct (H eq_refl ltac:(discriminate)) as (H1 & _).
  destruct (H1 (grey dna4 2) eq_refl eq_refl eq_refl ltac:(discriminate))
    as (t & Hf & Hp & Hs).
  exists t. split; [exact Hf|]. split; [exact Hp|].
  apply Hs. repeat constructor.
Defined.

(** In 3D mode the channel axis is the second one. *)
Example composer_in_3D :
  let s := fresh (cfg_of 30 "cyto3" false true true 0 true false "denoise_cyto3")
                 two_volumes in
  option_map (fun r => (shape (fst r), snd r)) (first_inference (events (run provider s))) =
    Some ([2; 3; 2; 2], [2; 3]%Z) /\
  option_map (fun r => get [1; 1; 0; 1] (fst r)) (first_inference (events (run provider s))) =
    Some (get [1; 0; 1] cells_vol).
Proof. split; vm_compute; reflexivity. Qed.

(** C2 as stated fails: diameter 0 with a family that is not sized,
    and diameter 0 in 3D mode, are not rejected and reach the model
    provider as [None], not as the literal 0. *)
Lemma C2_counterexample :
  ~ AsStated.diameter_zero provider auto_fixed_family /\
  ~ AsStated.diameter_zero provider auto_volume /\
  map ea_diameter (the_request auto_fixed_family) = [None] /\
  map ea_diameter (the_request auto_volume) = [None].
Proof.
  split; [|split; [|split; vm_compute; reflexivity]].
  - intros H. destruct (H eq_refl (or_introl eq_refl)) as [R|F].
    + vm_compute in R. discriminate R.
    + vm_compute in F. inversion F as [|a l Ha Hl]. discriminate Ha.
  - intros H. destruct (H eq_refl (or_intror eq_refl)) as [R|F].
    + vm_compute in R. discriminate R.
    + vm_compute in F. inversion F as [|a l Ha Hl]. discriminate Ha.
Qed.

Lemma C2_diameter_zero_unset_witness :
  resolve_diameter (settings (self auto_fixed_family)) = None /\
  Forall (fun a => ea_diameter a <> Some 0%Z) (the_request auto_fixed_family) /\
  Forall (fun a => ea_diameter a = None) (the_request auto_fixed_family) /\
  Forall (fun a => ea_diameter a = Some 30%Z) (the_request auto_upsampling) /\
  Forall (fun a => ea_diameter a = None) (the_request auto_denoised).
Proof.
  destruct (C2_diameter_zero_unset provider auto_fixed_family (cache_ok_init _ _) eq_refl)
    as (H1 & _ & H3 & H4 & _).
  destruct (C2_diameter_zero_unset provider auto_upsampling (cache_ok_init _ _) eq_refl)
    as (_ & _ & U3 & _).
  destruct (C2_diameter_zero_unset provider auto_denoised (cache_ok_init _ _) eq_refl)
    as (_ & _ & D3 & _).
  split; [exact H1|]. split; [exact H4|]. split; [|split].
  - eapply Forall_impl; [|exact H3]. intros a (_ & _ & Hoff & _). apply Hoff. reflexivity.
  - eapply Forall_impl; [|exact U3]. intros a (_ & _ & _ & Hon).
    apply (proj1 (Hon eq_refl)). reflexivity.
  - eapply Forall_impl; [|exact D3]. intros a (_ & _ & _ & Hon).
    destruct (Hon eq_refl) as (_ & _ & H). apply H; discriminate.
Defined.

Lemma C3_upsample_diameter_witness :
  exists d a,
    denoise_evals (events (run provider upsampling)) =
      [(d, cells2, Some 50%Z, [0; 0]%Z)] /\
    dn_model_type d = "upsample_cyto3"%string /\
    the_request upsampling = [a] /\
    ea_diameter a = Some 30%Z.
Proof.
  destruct (C3_upsample_diameter provider upsampling (cache_ok_init _ _)) as (_ & _ & H).
  destruct (H (grey cells2 2) cells2 [0; 0]%Z cells2 eq_refl eq_refl eq_refl eq_refl eq_refl)
    as (d & a & H1 & H2 & H3 & H4 & _).
  exists d, a. split; [exact H1|]. split; [exact H2|]. split; [exact H3|].
  apply H4. exact H2.
Defined.

(** C4 as stated fails: with a nuclei image and the denoiser
    [denoise_cyto3], which does not upsample, the segmentation call
    gets channels [0, 1]. *)
Lemma C4_counterexample :
  ~ AsStated.channel_collapse provider denoised_with_nuclei /\
  map ea_channels (the_request denoised_with_nuclei) = [[0; 1]%Z] /\
  map (fun c => dn_model_type (called_denoiser c))
      (denoise_evals (events (run provider denoised_with_nuclei))) =
    ["denoise_cyto3"%string].
Proof.
  split; [|split; vm_compute; reflexivity].
  intros H. specialize (H eq_refl).
  vm_compute in H. inversion H as [|a l [Ha _] Hl].
  specialize (Ha eq_refl). inversion Ha as [c l' Hc|c l' Hc]; [discriminate Hc|inversion Hc].
Qed.

Lemma C4_channel_collapse_witness :
  Forall (fun a => ea_channels a = [0; 1]%Z) (the_request denoised_with_nuclei) /\
  the_request denoised_with_nuclei <> [].
Proof.
  destruct (C4_channel_collapse provider denoised_with_nuclei (cache_ok_init _ _))
    as (H & _ & _ & H4).
  assert (Hne : the_request denoised_with_nuclei <> []) by (vm_compute; discriminate).
  split; [|exact Hne].
  eapply Forall_impl; [|exact (H eq_refl)]. cbv beta.
  intros a [Ha _]. apply Ha. apply (H4 Hne). reflexivity.
Defined.

(** C5 as stated fails: the library renumbers what it keeps.  The
    strictly interior object 4 of [masks4] is published under the
    label 1, and with [masks12] the label 1 of the removed object is
    the label under which the interior object 2 is published. *)
Lemma C5_counterexample :
  ~ AsStated.interior_kept provider plain masks4 /\
  ~ AsStated.removed_absent provider12 plain masks12 /\
  option_map segmented
    (lookup "CellObjects" (object_set (workspace (final (run provider plain))))) =
    Some (grid [[0; 0; 0; 0]; [0; 1; 1; 0]; [0; 1; 1; 0]; [0; 0; 0; 0]]%Z) /\
  option_map segmented
    (lookup "CellObjects" (object_set (workspace (final (run provider12 plain))))) =
    Some (grid [[0; 0; 0; 0]; [0; 1; 1; 0]; [0; 1; 1; 0]; [0; 0; 0; 0]]%Z).
Proof.
  split; [|split; [|split; vm_compute; reflexivity]].
  - intros H.
    assert (L : exists obj,
              lookup "CellObjects"
                (object_set (workspace (final (run provider plain)))) = Some obj /\
              get [1; 1] (segmented obj) = Some 1%Z).
    { vm_compute. eexists. split; reflexivity. }
    destruct L as (obj & L & G).
    assert (Hint : ~ touches_edge 4 masks4) by (apply interior_label; reflexivity).
    pose proof (H eq_refl obj L 4%Z [1; 1] ltac:(discriminate) Hint eq_refl) as K.
    rewrite G in K. discriminate K.
  - intros H.
    assert (L : exists obj,
              lookup "CellObjects"
                (object_set (workspace (final (run provider12 plain)))) = Some obj /\
              get [1; 1] (segmented obj) = Some 1%Z).
    { vm_compute. eexists. split; reflexivity. }
    destruct L as (obj & L & G).
    assert (Hedge : touches_edge 1 masks12) by (exists [0; 0]; split; reflexivity).
    exact (H eq_refl obj L 1%Z [1; 1] ltac:(discriminate) Hedge G).
Qed.

Lemma C5_edge_mask_removal_witness :
  exists obj,
    lookup "CellObjects" (object_set (workspace (final (run provider plain)))) = Some obj /\
    segmented obj = grid [[0; 0; 0; 0]; [0; 1; 1; 0]; [0; 1; 1; 0]; [0; 0; 0; 0]]%Z /\
    (forall idx, get idx (segmented obj) = Some 1%Z <-> get idx masks4 = Some 4%Z) /\
    (forall idx, get idx masks4 = Some 7%Z -> get idx (segmented obj) = Some 0%Z).
Proof.
  destruct (C5_edge_mask_removal provider plain (grey cells4 2) cells4 [0; 0]%Z cells4
              masks4 flows4 (fun b => eq_refl) (fun m => eq_refl) (cache_ok_init _ _)
              eq_refl eq_refl eq_refl eq_refl) as (obj & Hl & _ & Hon).
  destruct (Hon eq_refl) as (Hs & Hp).
  assert (Hne : shape masks4 <> []) by discriminate.
  assert (Hnn : Forall (fun v => (0 <= v)%Z) (ravel masks4)).
  { cbv [masks4 grid row map ravel flat_map app].
    repeat (constructor; [intros H; discriminate H|]). constructor. }
  destruct (Hp eq_refl Hne Hnn) as (_ & Hgone & Hkept).
  exists obj. split; [exact Hl|]. split; [rewrite Hs; reflexivity|]. split.
  - refine (Hkept 4%Z [1; 1] eq_refl eq_refl _). apply interior_label; reflexivity.
  - intros idx H7. apply (Hgone 7%Z idx H7). right. exists [2; 3]. split; reflexivity.
Defined.

(** With edge removal switched off the label map is published as the
    model returned it. *)
Example edge_masks_kept :
  let s := fresh (cfg_of 30 "cyto3" false false false 0 false false "denoise_cyto3")
                 two_images in
  option_map segmented
    (lookup "CellObjects" (object_set (workspace (final (run provider s))))) = Some masks4.
Proof. vm_compute. reflexivity. Qed.

(** C6 as stated fails: with 3D switched on over a stored stitch
    threshold of 1/2 the segmentation call has the 3D flag and the
    positive threshold. *)
Lemma C6_counterexample :
  ~ AsStated.exclusive_flags provider volume_with_stitch /\
  map (fun a => (ea_do_3D a, ea_stitch_threshold a)) (the_request volume_with_stitch) =
    [(true, (1 # 2)%Q)].
Proof.
  split; [|vm_compute; reflexivity].
  intros H. unfold AsStated.exclusive_flags in H.
  assert (E : exists a, model_evals (events (run provider volume_with_stitch)) = [a] /\
                        ea_do_3D a = true /\ ea_stitch_threshold a = (1 # 2)%Q).
  { vm_compute. eexists. split; [reflexivity|]. split; reflexivity. }
  destruct E as (a & Ea & E3 & Es). rewrite Ea in H.
  inversion H as [|a' l Ha Hl]. apply Ha. split; [exact E3|]. rewrite Es. reflexivity.
Qed.

Lemma C6_flags_passed_through_witness :
  Forall (fun a => ea_do_3D a = true /\ (0 < ea_stitch_threshold a)%Q)
         (the_request volume_with_stitch) /\
  ~ In S_stitch_threshold (visible_settings (settings (self volume_with_stitch))).
Proof.
  destruct (C6_flags_passed_through provider volume_with_stitch (cache_ok_init _ _))
    as (_ & Hv & _ & Hb).
  split; [apply Hb; split; reflexivity|].
  intros Hin. apply Hv in Hin. discriminate Hin.
Defined.

Lemma C7_upsample_round_trip_witness :
  exists obj,
    lookup "CellObjects" (object_set (workspace (final (run provider upsampling)))) =
      Some obj /\
    shape (segmented obj) = [2; 2] /\
    shape masks4 = [4; 4].
Proof.
  destruct (C7_upsample_round_trip provider upsampling (grey cells2 2) cells2 [0; 0]%Z
              cells2 masks4 flows4 (cache_ok_init _ _)
              eq_refl eq_refl eq_refl eq_refl eq_refl eq_refl eq_refl eq_refl)
    as (_ & obj & Hl & _ & Hs).
  exists obj. split; [exact Hl|]. split; [exact Hs|reflexivity].
Defined.

Lemma C9_multichannel_rejected_witness :
  raised (result (run provider colour_input)) = true /\
  events (run provider colour_input) = [] /\
  object_set (workspace (final (run provider colour_input))) = [].
Proof.
  destruct (C9_multichannel_rejected provider colour_input (colour rgb2) eq_refl eq_refl)
    as (Hr & He & _ & _ & _ & _ & Ho & _).
  split; [rewrite Hr; reflexivity|]. split; [exact He|exact Ho].
Defined.

Lemma C10_denoiser_reset_witness :
  recon_model_params (self switched_off) =
    Some (requested_denoiser denoiser_on) /\
  recon_model (self (final (load_models provider switched_off))) = None /\
  filter is_denoiser_load
    (events (load_with provider denoiser_on (final (load_models provider switched_off)))) =
    [LoadDenoiser (denoiser_for (requested_denoiser denoiser_on))].
Proof.
  destruct (C10_denoiser_reset provider switched_off eq_refl) as (_ & Hm & _ & Hre).
  split; [reflexivity|]. split; [exact Hm|]. apply Hre. reflexivity.
Defined.

(** The cache over three runs: the first loads, the second with the
    same settings does not, the third with only the accelerator flag
    changed loads once. *)
Example cache_over_three_runs :
  let cfg := cfg_of 30 "cyto3" false false false 0 true false "denoise_cyto3" in
  let gpu := cfg_of 30 "cyto3" true false false 0 true false "denoise_cyto3" in
  let o1 := load_models provider (fresh cfg two_images) in
  let o2 := load_with provider cfg (final o1) in
  let o3 := load_with provider gpu (final o2) in
  map (fun o => length (filter is_model_load (events o))) [o1; o2; o3] = [1; 0; 1].
Proof. vm_compute. reflexivity. Qed.

(** * The rest of the module *)

(** ** Pipeline upgrade *)

Lemma upgrade_unversioned (sv : list setting_value) (rev : Z) (name : string) :
  (rev <= 0)%Z -> upgrade_settings sv rev name = inr (sv, rev).
Proof.
  intros H.
  assert (E10 : (rev =? 10)%Z = false) by (apply Z.eqb_neq; lia).
  assert (E1 : (rev =? 1)%Z = false) by (apply Z.eqb_neq; lia).
  assert (E2 : (rev =? 2)%Z = false) by (apply Z.eqb_neq; lia).
  assert (E3 : (rev =? 3)%Z = false) by (apply Z.eqb_neq; lia).
  assert (E4 : (rev =? 4)%Z = false) by (apply Z.eqb_neq; lia).
  assert (G : (rev >? 4)%Z = false) by (rewrite Z.gtb_ltb; apply Z.ltb_ge; lia).
  unfold upgrade_settings. rewrite E10, G, E1. cbn [fst snd].
  rewrite E2. cbn [fst snd]. rewrite E3. cbn [fst snd]. rewrite E4. reflexivity.
Qed.

Lemma upgrade_newer (sv : list setting_value) (rev : Z) (name : string) :
  (4 < rev)%Z -> rev <> 10%Z ->
  upgrade_settings sv rev name =
    inl (ValueError
           "Module comes from a newer version of the Broad CellPose plugin. Please use the Glencoe version.").
Proof.
  intros H1 H2. unfold upgrade_settings.
  replace (rev =? 10)%Z with false by (symmetry; apply Z.eqb_neq; lia).
  replace (rev >? 4)%Z with true by (symmetry; rewrite Z.gtb_ltb; apply Z.ltb_lt; lia).
  reflexivity.
Qed.

Lemma upgrade_chain_1 (sv : list setting_value) (name : string) :
  upgrade_settings sv 1 name = upgrade_settings (sv ++ [Str "0.4"; Str "0.0"]) 2 name.
Proof. reflexivity. Qed.

Lemma upgrade_chain_2 (sv : list setting_value) (name : string) :
  upgrade_settings sv 2 name =
    upgrade_settings
      (sv ++ [Str "0.0"; Flag false; Str "15"; Str "1.0"; Flag false; Flag false]) 3 name.
Proof. reflexivity. Qed.

Lemma upgrade_from_3 (sv : list setting_value) (name : string) :
  19 <= length sv ->
  upgrade_settings sv 3 name =
    inr (firstn 4 sv ++ [Flag false] ++ firstn 12 (skipn 6 sv) ++ skipn 19 sv
         ++ [Flag false; Str "denoise_cyto3"], 10%Z).
Proof.
  intros H.
  do 19 (destruct sv as [|? sv]; [simpl in H; lia|]).
  reflexivity.
Qed.

Lemma upgrade_from_3_short (sv : list setting_value) (name : string) :
  length sv < 19 -> upgrade_settings sv 3 name = inl IndexError.
Proof.
  intros H.
  do 19 (destruct sv as [|? sv]; [reflexivity|]).
  simpl in H. lia.
Qed.

Lemma upgrade_from_4 (sv : list setting_value) (name : string) :
  21 <= length sv ->
  upgrade_settings sv 4 name =
    inr (firstn 1 sv ++ firstn 3 (skipn 3 sv) ++ [Flag false]
         ++ firstn 12 (skipn 8 sv) ++ skipn 21 sv
         ++ [Flag false; Str "denoise_cyto3"], 10%Z).
Proof.
  intros H.
  do 21 (destruct sv as [|? sv]; [simpl in H; lia|]).
  reflexivity.
Qed.

Lemma upgrade_from_4_short (sv : list setting_value) (name : string) :
  length sv < 21 -> upgrade_settings sv 4 name = inl IndexError.
Proof.
  intros H.
  do 21 (destruct sv as [|? sv]; [reflexivity|]).
  simpl in H. lia.
Qed.

Lemma upgraded_3 (sv sv' : list setting_value) (rev' : Z) (name : string) :
  upgrade_settings sv 3 name = inr (sv', rev') ->
  19 <= length sv /\ rev' = 10%Z /\
  (exists body, sv' = body ++ [Flag false; Str "denoise_cyto3"]) /\
  nth_error sv' 4 = Some (Flag false) /\
  length sv' = length sv.
Proof.
  intros H. destruct (le_lt_dec 19 (length sv)) as [Hl|Hl].
  2:{ rewrite (upgrade_from_3_short sv name Hl) in H. discriminate. }
  rewrite (upgrade_from_3 sv name Hl) in H.
  split; [exact Hl|].
  do 19 (destruct sv as [|? sv]; [simpl in Hl; lia|]).
  cbn [firstn skipn app] in H. injection H as <- <-.
  split; [reflexivity|]. split; [|split].
  - eexists (_ :: _ :: _ :: _ :: _ :: _ :: _ :: _ :: _ :: _ :: _ :: _ :: _ :: _ :: _
             :: _ :: _ :: sv). reflexivity.
  - reflexivity.
  - cbn [length]. rewrite length_app. cbn [length]. lia.
Qed.

Lemma upgraded_4 (sv sv' : list setting_value) (rev' : Z) (name : string) :
  upgrade_settings sv 4 name = inr (sv', rev') ->
  21 <= length sv /\ rev' = 10%Z /\
  (exists body, sv' = body ++ [Flag false; Str "denoise_cyto3"]) /\
  nth_error sv' 4 = Some (Flag false) /\
  length sv' + 2 = length sv.
Proof.
  intros H. destruct (le_lt_dec 21 (length sv)) as [Hl|Hl].
  2:{ rewrite (upgrade_from_4_short sv name Hl) in H. discriminate. }
  rewrite (upgrade_from_4 sv name Hl) in H.
  split; [exact Hl|].
  do 21 (destruct sv as [|? sv]; [simpl in Hl; lia|]).
  cbn [firstn skipn app] in H. injection H as <- <-.
  split; [reflexivity|]. split; [|split].
  - eexists (_ :: _ :: _ :: _ :: _ :: _ :: _ :: _ :: _ :: _ :: _ :: _ :: _ :: _ :: _
             :: _ :: _ :: sv). reflexivity.
  - reflexivity.
  - cbn [length]. rewrite length_app. cbn [length]. lia.
Qed.

(** What every upgrade from a revision between 1 and 4 ends with. *)
Lemma upgraded (sv sv' : list setting_value) (rev rev' : Z) (name : string) :
  (1 <= rev <= 4)%Z ->
  upgrade_settings sv rev name = inr (sv', rev') ->
  least_values rev <= length sv /\ rev' = 10%Z /\
  (exists body, sv' = body ++ [Flag false; Str "denoise_cyto3"]) /\
  nth_error sv' 4 = Some (Flag false) /\
  Z.of_nat (length sv') = (Z.of_nat (length sv) + growth rev)%Z.
Proof.
  intros Hr H.
  assert (C : rev = 1%Z \/ rev = 2%Z \/ rev = 3%Z \/ rev = 4%Z) by lia.
  destruct C as [-> | [-> | [-> | ->]]].
  - rewrite upgrade_chain_1, upgrade_chain_2 in H.
    destruct (upgraded_3 _ _ _ _ H) as (Hl & Hv & Hb & H4 & Hn).
    rewrite !length_app in Hl, Hn. simpl in Hl, Hn.
    unfold least_values, growth. simpl. repeat split; try assumption; lia.
  - rewrite upgrade_chain_2 in H.
    destruct (upgraded_3 _ _ _ _ H) as (Hl & Hv & Hb & H4 & Hn).
    rewrite !length_app in Hl, Hn. simpl in Hl, Hn.
    unfold least_values, growth. simpl. repeat split; try assumption; lia.
  - destruct (upgraded_3 _ _ _ _ H) as (Hl & Hv & Hb & H4 & Hn).
    unfold least_values, growth. simpl. repeat split; try assumption; lia.
  - destruct (upgraded_4 _ _ _ _ H) as (Hl & Hv & Hb & H4 & Hn).
    unfold least_values, growth. simpl. repeat split; try assumption; lia.
Qed.

(** X1. [upgrade_settings] returns exactly for revision 10, for a
    revision below 1, and for a revision from 1 to 4 with enough
    values (11, 13, 19, 21); a later revision other than 10 is a
    [ValueError] and too few values are an [IndexError]. *)
Theorem upgrade_settings_outcome (sv : list setting_value) (rev : Z) (name : string) :
  match upgrade_settings sv rev name with
  | inr _ =>
      rev = 10%Z \/ (rev <= 0)%Z \/
      ((1 <= rev <= 4)%Z /\ least_values rev <= length sv)
  | inl (ValueError _) => (4 < rev)%Z /\ rev <> 10%Z
  | inl IndexError => (1 <= rev <= 4)%Z /\ length sv < least_values rev
  | inl _ => False
  end.
Proof.
  destruct (Z.eq_dec rev 10) as [->|Hne]; [left; reflexivity|].
  destruct (Z_lt_le_dec 4 rev) as [Hgt|Hle].
  { rewrite (upgrade_newer sv rev name Hgt Hne). split; assumption. }
  destruct (Z_le_gt_dec rev 0) as [H0|H1].
  { rewrite (upgrade_unversioned sv rev name H0). right; left; exact H0. }
  assert (Hr : (1 <= rev <= 4)%Z) by lia.
  destruct (upgrade_settings sv rev name) as [e|[sv' rev']] eqn:E.
  2:{ right; right. split; [exact Hr|]. apply (upgraded sv sv' rev rev' name Hr E). }
  assert (C : rev = 1%Z \/ rev = 2%Z \/ rev = 3%Z \/ rev = 4%Z) by lia.
  assert (Hshort : length sv < least_values rev /\ e = IndexError).
  { destruct C as [-> | [-> | [-> | ->]]]; unfold least_values; simpl.
    - rewrite upgrade_chain_1, upgrade_chain_2 in E.
      destruct (le_lt_dec 11 (length sv)) as [Hl|Hl].
      + rewrite upgrade_from_3 in E by (rewrite !length_app; simpl; lia). discriminate.
      + rewrite upgrade_from_3_short in E by (rewrite !length_app; simpl; lia).
        injection E as <-. split; [exact Hl|reflexivity].
    - rewrite upgrade_chain_2 in E.
      destruct (le_lt_dec 13 (length sv)) as [Hl|Hl].
      + rewrite upgrade_from_3 in E by (rewrite !length_app; simpl; lia). discriminate.
      + rewrite upgrade_from_3_short in E by (rewrite !length_app; simpl; lia).
        injection E as <-. split; [exact Hl|reflexivity].
    - destruct (le_lt_dec 19 (length sv)) as [Hl|Hl].
      + rewrite upgrade_from_3 in E by exact Hl. discriminate.
      + rewrite upgrade_from_3_short in E by exact Hl.
        injection E as <-. split; [exact Hl|reflexivity].
    - destruct (le_lt_dec 21 (length sv)) as [Hl|Hl].
      + rewrite upgrade_from_4 in E by exact Hl. discriminate.
      + rewrite upgrade_from_4_short in E by exact Hl.
        injection E as <-. split; [exact Hl|reflexivity]. }
  destruct Hshort as [Hl ->]. split; assumption.
Qed.

(** X2. A successful upgrade from revision 1, 2, 3 or 4 ends at
    revision 10 with 8, 6, 0 more or 2 fewer values; revision 10 and
    revisions below 1 come back as they went in. *)
Theorem upgrade_settings_result (sv sv' : list setting_value) (rev rev' : Z)
  (name : string) :
  upgrade_settings sv rev name = inr (sv', rev') ->
  ((1 <= rev <= 4)%Z ->
     rev' = 10%Z /\ Z.of_nat (length sv') = (Z.of_nat (length sv) + growth rev)%Z) /\
  (rev = 10%Z \/ (rev <= 0)%Z -> sv' = sv /\ rev' = rev).
Proof.
  intros H. split.
  - intros Hr. destruct (upgraded sv sv' rev rev' name Hr H) as (_ & Hv & _ & _ & Hn).
    split; assumption.
  - intros [-> | H0].
    + injection H as <- <-. split; reflexivity.
    + rewrite (upgrade_unversioned sv rev name H0) in H. injection H as <- <-.
      split; reflexivity.
Qed.

(** X3. Upgrading is idempotent: what a successful upgrade returns is
    returned unchanged when it is upgraded again. *)
Theorem upgrade_settings_idempotent (sv sv' : list setting_value) (rev rev' : Z)
  (name : string) :
  upgrade_settings sv rev name = inr (sv', rev') ->
  upgrade_settings sv' rev' name = inr (sv', rev').
Proof.
  intros H.
  destruct (Z.eq_dec rev 10) as [-> | N].
  { injection H as <- <-. reflexivity. }
  destruct (Z_le_gt_dec rev 0) as [H0 | H0].
  { rewrite (upgrade_unversioned sv rev name H0) in H. injection H as <- <-.
    apply upgrade_unversioned, H0. }
  destruct (Z_le_gt_dec rev 4) as [H4 | H4].
  - assert (Hr : (1 <= rev <= 4)%Z) by lia.
    destruct (upgraded sv sv' rev rev' name Hr H) as (_ & -> & _). reflexivity.
  - rewrite (upgrade_newer sv rev name) in H by lia. discriminate H.
Qed.

(** X4. The two values an upgrade inserts for revision 3 are the ones
    it deletes for revision 4.  From revision 3 the result is the old
    list without its values 5 and 18 and with value 4 overwritten by
    [False]; from revision 4 it is the old list without its values 1,
    2, 7 and 20 and with value 6 overwritten; both end with [False]
    and the first denoiser name. *)
Theorem upgrade_settings_values (sv : list setting_value) (name : string) :
  (19 <= length sv ->
     upgrade_settings sv 3 name =
       inr (firstn 4 sv ++ [Flag false] ++ firstn 12 (skipn 6 sv) ++ skipn 19 sv
            ++ [Flag false; Str "denoise_cyto3"], 10%Z)) /\
  (21 <= length sv ->
     upgrade_settings sv 4 name =
       inr (firstn 1 sv ++ firstn 3 (skipn 3 sv) ++ [Flag false]
            ++ firstn 12 (skipn 8 sv) ++ skipn 21 sv
            ++ [Flag false; Str "denoise_cyto3"], 10%Z)) /\
  (forall first rest,
     sv = first :: rest ->
     upgrade_settings sv 3 name =
       upgrade_settings
         (first :: Str "Python" :: Str "CELLPOSE_DOCKER_IMAGE_WITH_PRETRAINED" :: rest)
         4 name).
Proof.
  split; [apply upgrade_from_3|]. split; [apply upgrade_from_4|].
  intros first rest ->. reflexivity.
Qed.

(** X5. After an upgrade from revision 1 to 4 the values that stand
    for [use_gpu] and [denoise] are [False] and the one for
    [denoise_type] is the first denoiser name, whenever the upgrade
    yields one value for each entry of [settings]. *)
Theorem upgrade_settings_switches_off (sv sv' : list setting_value) (rev rev' : Z)
  (name : string) :
  (1 <= rev <= 4)%Z ->
  upgrade_settings sv rev name = inr (sv', rev') ->
  length sv' = length Listing.settings ->
  (forall i, Listing.slot S_use_gpu Listing.settings = Some i ->
     nth_error sv' i = Some (Flag false)) /\
  (forall i, Listing.slot S_denoise Listing.settings = Some i ->
     nth_error sv' i = Some (Flag false)) /\
  (forall i, Listing.slot S_denoise_type Listing.settings = Some i ->
     nth_error sv' i = Some (Str (nth 0 DENOISER_NAMES EmptyString))).
Proof.
  intros Hr H Hlen.
  destruct (upgraded sv sv' rev rev' name Hr H) as (_ & _ & [body Hb] & H4 & _).
  assert (Hbody : length body = 19).
  { rewrite Hb, length_app in Hlen. simpl in Hlen. lia. }
  repeat split; intros i Hi; vm_compute in Hi; injection Hi as <-.
  - exact H4.
  - rewrite Hb, nth_error_app2 by lia. rewrite Hbody. reflexivity.
  - rewrite Hb, nth_error_app2 by lia. rewrite Hbody. reflexivity.
Qed.

(** ** Settings view and validation *)

(** Splits a membership in a concrete list into its cases. *)
Ltac in_cases H :=
  repeat (destruct H as [H|H]; [try discriminate H|]); try contradiction.

Ltac visible_cases cfg :=
  unfold visible_settings, wants_nuclei;
  destruct (String.eqb (value (mode cfg)) "nuclei") eqn:Enuc,
    (value (supply_nuclei cfg)) eqn:Esup,
    (String.eqb (value (mode cfg)) "custom") eqn:Ecus,
    (value (denoise cfg)) eqn:Eden,
    (value (save_probabilities cfg)) eqn:Eprob,
    (value (do_3D cfg)) eqn:E3d; cbn [negb andb app].

Lemma setting_id_eqb_eq (a b : setting_id) : setting_id_eqb a b = true <-> a = b.
Proof. destruct a, b; simpl; split; intros H; try reflexivity; discriminate H. Qed.

Lemma distinct_NoDup (ids : list setting_id) : Listing.distinct_ids ids = true -> NoDup ids.
Proof.
  induction ids as [|i rest IH]; simpl; intros H; [constructor|].
  apply andb_prop in H. destruct H as [H1 H2]. constructor; [|apply IH, H2].
  intros Hin. apply negb_true_iff in H1.
  assert (E : existsb (setting_id_eqb i) rest = true).
  { apply existsb_exists. exists i. split; [exact Hin|apply setting_id_eqb_eq; reflexivity]. }
  congruence.
Qed.

Lemma subset_ids (a b : list setting_id) :
  forallb (fun i => existsb (setting_id_eqb i) b) a = true -> incl a b.
Proof.
  intros H i Hi. rewrite forallb_forall in H. specialize (H i Hi).
  apply existsb_exists in H. destruct H as (j & Hj & E).
  apply setting_id_eqb_eq in E. subst. exact Hj.
Qed.

(** X6. Whatever the settings, [visible_settings] shows no setting
    twice and only settings that [settings] lists, always shows the
    mode, the two names, the diameter, the 3D switch and the edge
    switch, and never shows the GPU switch or the GPU memory share. *)
Theorem visible_settings_listed (cfg : Settings) :
  NoDup (visible_settings cfg) /\
  incl (visible_settings cfg) Listing.settings /\
  incl [S_mode; S_x_name; S_y_name; S_expected_diameter; S_do_3D; S_remove_edge_masks;
        S_denoise; S_save_probabilities]
       (visible_settings cfg) /\
  ~ In S_use_gpu (visible_settings cfg) /\
  ~ In S_manual_GPU_memory_share (visible_settings cfg).
Proof.
  visible_cases cfg;
    (split; [apply distinct_NoDup; reflexivity|];
     split; [apply subset_ids; reflexivity|];
     split; [apply subset_ids; reflexivity|];
     split; intros H; cbn [In] in H; in_cases H).
Qed.

(** X7. The nuclei image selector is visible exactly when [run] would
    stack the nuclei image; the denoiser choice exactly when denoising
    is on; the probability image name exactly when probabilities are
    saved; the nuclei switch exactly when the mode is not the nuclei
    model; the model file settings exactly in custom mode. *)
Theorem visible_settings_conditions (cfg : Settings) :
  (In S_nuclei_image (visible_settings cfg) <-> wants_nuclei cfg = true) /\
  (In S_denoise_type (visible_settings cfg) <-> value (denoise cfg) = true) /\
  (In S_probabilities_name (visible_settings cfg) <->
     value (save_probabilities cfg) = true) /\
  (In S_supply_nuclei (visible_settings cfg) <-> value (mode cfg) <> "nuclei"%string) /\
  (In S_model_directory (visible_settings cfg) <-> value (mode cfg) = "custom"%string) /\
  (In S_model_file_name (visible_settings cfg) <-> value (mode cfg) = "custom"%string).
Proof.
  rewrite <- (String.eqb_eq (value (mode cfg)) "custom").
  rewrite <- (String.eqb_neq (value (mode cfg)) "nuclei").
  visible_cases cfg;
    repeat split; intros H; try reflexivity; try discriminate H;
    try (cbn [In] in H; in_cases H);
    try (cbn [In]; tauto).
Qed.

Lemma builtin_not_custom (name : string) :
  In name MODEL_NAMES -> String.eqb name "custom" = false.
Proof.
  unfold MODEL_NAMES. cbn [In]. intros H.
  repeat (destruct H as [<-|H]; [reflexivity|]). contradiction.
Qed.

Lemma model_file_settings_shown (cfg : Settings) (id : setting_id) :
  id = S_model_directory \/ id = S_model_file_name ->
  In id (visible_settings cfg) -> String.eqb (value (mode cfg)) "custom" = true.
Proof.
  intros Hid. visible_cases cfg; intros H; try reflexivity;
    destruct Hid as [-> | ->]; cbn [In] in H; in_cases H.
Qed.

(** X8. With any of the twelve modes the mode choice offers, the
    custom model file is never asked about: its two settings are
    hidden, validation passes whatever the file system holds, and
    [load_models] asks for the mode name itself, not for a path. *)
Theorem builtin_modes_need_no_file (ext : External) (path_exists : string -> bool)
  (cfg : Settings) :
  In (value (mode cfg)) MODEL_NAMES ->
  ~ In S_model_directory (visible_settings cfg) /\
  ~ In S_model_file_name (visible_settings cfg) /\
  validate_module ext path_exists cfg = inr tt /\
  requested_model ext cfg = (value (mode cfg), value (use_gpu cfg)).
Proof.
  intros Hm. pose proof (builtin_not_custom _ Hm) as E.
  split; [|split].
  - intros H. apply (model_file_settings_shown cfg _ (or_introl eq_refl)) in H.
    congruence.
  - intros H. apply (model_file_settings_shown cfg _ (or_intror eq_refl)) in H.
    congruence.
  - unfold validate_module, requested_model. rewrite E. split; reflexivity.
Qed.

(** X9. [validate_module] fails exactly in custom mode with a model
    path that does not exist, and the path it checks is the model name
    [load_models] stores and loads: after a validation that passed, a
    custom mode loads a path that exists. *)
Theorem validate_module_guards_load (ext : External) (path_exists : string -> bool)
  (cfg : Settings) (s : St) :
  (validate_module ext path_exists cfg <> inr tt <->
     value (mode cfg) = "custom"%string /\
     path_exists (fst (requested_model ext cfg)) = false) /\
  (validate_module ext path_exists cfg = inr tt ->
   value (mode cfg) = "custom"%string ->
   exists path,
     current_model_params (self (final (load_with ext cfg s))) =
       Some (path, value (use_gpu cfg)) /\
     path_exists path = true).
Proof.
  unfold validate_module, requested_model.
  rewrite <- (String.eqb_eq (value (mode cfg)) "custom").
  destruct (String.eqb (value (mode cfg)) "custom") eqn:E; cbn [fst].
  - destruct (path_exists _) eqn:P; cbn [negb]; split.
    + split; [intros H; congruence|intros [_ H]; discriminate H].
    + intros _ _. eexists. split; [|exact P].
      unfold load_with. rewrite params_after_load.
      cbn [self settings configure]. unfold requested_model. rewrite E. reflexivity.
    + split; [intros _; split; reflexivity|intros _; discriminate].
    + intros H. discriminate H.
  - split; [|intros _ H; discriminate H].
    split; [intros H; congruence|intros [H _]; discriminate H].
Qed.

(** ** One run, event by event *)

(** The [try] block leaves the module and the workspace alone. *)
Lemma inference_final (ext : External) (cfg : Settings) (x : Image) (xd : ndarray Q)
  (ch : list Z) (diam : option Z) (aniso : Q) (s1 : St) :
  final (inference ext cfg x xd ch diam aniso s1) = s1.
Proof.
  unfold inference, finally, denoise_pass, segment, release, bind, get_self, call, ret,
    when, emit, raise, final.
  destruct (recon_model (self s1)) as [d|].
  - destruct (recon_eval ext d xd diam ch) as [e|inp]; cbn [fst snd].
    + destruct (value (use_gpu cfg)); reflexivity.
    + destruct (current_model (self s1)) as [m|]; cbn [fst snd].
      * destruct (model_eval ext m _); destruct (value (use_gpu cfg)); reflexivity.
      * destruct (value (use_gpu cfg)); reflexivity.
  - cbn [fst snd]. destruct (current_model (self s1)) as [m|]; cbn [fst snd].
    + destruct (model_eval ext m _); destruct (value (use_gpu cfg)); reflexivity.
    + destruct (value (use_gpu cfg)); reflexivity.
Qed.

(** Everything [publish] does. *)
Lemma publish_outcome (ext : External) (me : RunCellpose) (x : Image) (xd inp : ndarray Q)
  (y : labels) (flows : list (ndarray Q)) (s : St) :
  let o := publish ext me x xd inp y flows s in
  let cfg := settings me in
  self (final o) = self s /\
  object_set (workspace (final o)) =
    (value (y_name cfg), {| segmented := y; objects_parent_image := parent_image x |})
    :: object_set (workspace s) /\
  (value (save_probabilities cfg) = false ->
     result o = inr tt /\ events o = [AddMeasurements] /\
     image_set (workspace (final o)) = image_set (workspace s)) /\
  (value (save_probabilities cfg) = true -> forall f, nth_error flows 2 = Some f ->
     result o = inr tt /\ events o = [AddMeasurements] /\
     image_set (workspace (final o)) =
       (value (probabilities_name cfg),
        Image_init (resize_image ext f (shape y) default_resize) (parent_image x)
          (length (shape (resize_image ext f (shape y) default_resize))))
       :: image_set (workspace s)) /\
  (value (save_probabilities cfg) = true -> nth_error flows 2 = None ->
     result o = inl IndexError /\ events o = [] /\
     image_set (workspace (final o)) = image_set (workspace s)) /\
  (show_window me = false ->
     display_data (workspace (final o)) = display_data (workspace s)) /\
  (show_window me = true -> result o = inr tt ->
     let dd := display_data (workspace (final o)) in
     dd_x_data dd = Some (if volumetric x then pixel_data x else xd) /\
     dd_y_data dd = Some y /\
     dd_dimensions dd = Some (dimensions x) /\
     (value (denoise cfg) = true -> dd_recon dd <> None) /\
     (value (save_probabilities cfg) = true -> dd_probabilities dd <> None)).
Proof.
  unfold publish, bind, upd_workspace, when, emit, lift, ret, py_index, result, final,
    events.
  destruct s as [me0 ws]. cbn [self workspace fst snd].
  destruct (value (denoise (settings me))) eqn:Eden;
    destruct (show_window me) eqn:Eshow; cbn [andb fst snd];
    destruct (value (save_probabilities (settings me))) eqn:Eprob; cbn [fst snd];
    try destruct (nth_error flows 2) as [f|] eqn:Ef; cbn [fst snd app];
    repeat split; intros;
    cbn [self workspace image_set object_set display_data add_objects add_image
         set_display show_recon show_probabilities show_result
         dd_recon dd_probabilities dd_x_data dd_y_data dd_dimensions];
    try reflexivity; try discriminate; try congruence.
Qed.

(** A run that gets past the composer, in full: its result, its final
    state and its events in the order they are issued. *)
Lemma run_trace (ext : External) (s : St) (x : Image) (xd : ndarray Q) (ch : list Z) :
  let cfg := settings (self s) in
  let o1 := load_models ext s in
  let d_evs :=
    if value (denoise cfg)
    then [DenoiseEval (denoiser_for (requested_denoiser cfg)) xd (resolve_diameter cfg) ch]
    else [] in
  let m := model_for (requested_model ext cfg) in
  cache_ok (self s) ->
  lookup (value (x_name cfg)) (image_set (workspace s)) = Some x ->
  multichannel x = false ->
  compose cfg (pixel_data x) s = (inr (xd, ch), s, []) ->
  match segmentation_input ext cfg xd ch with
  | inl e => run ext s = (inl e, final o1, events o1 ++ d_evs ++ release_events cfg)
  | inr inp =>
      let req := segmentation_request ext cfg x inp ch in
      match model_eval ext m req with
      | inl e =>
          run ext s =
            (inl e, final o1, events o1 ++ d_evs ++ [ModelEval m req] ++ release_events cfg)
      | inr out =>
          let o3 := publish ext (self s) x xd inp (postprocess ext cfg x (fst out))
                      (snd out) (final o1) in
          run ext s =
            (result o3, final o3,
             events o1 ++ d_evs ++ [ModelEval m req] ++ release_events cfg ++ events o3)
      end
  end.
Proof.
  intros cfg o1 d_evs m Hok Hx Hm Hc. subst o1 d_evs m.
  rewrite (run_unfold ext s x xd ch Hx Hm Hc). cbn zeta. fold cfg.
  pose proof (load_models_handles ext s Hok) as [Hcm Hrm]. cbn zeta in Hcm, Hrm.
  fold cfg in Hrm, Hcm.
  rewrite (inference_unfold ext cfg x xd ch _ _ _ _ Hcm). rewrite Hrm. clear Hcm Hrm.
  unfold segmentation_input, segmentation_request.
  destruct (load_models ext s) as [[r1 s1] e1].
  unfold result, final, events. cbn [fst snd].
  destruct (value (denoise cfg)) eqn:Hden.
  - destruct (recon_eval ext _ xd _ ch) as [e|inp]; cbn [fst snd]; [reflexivity|].
    cbn [andb]. destruct (model_eval ext _ _) as [e|out]; cbn [fst snd]; [reflexivity|].
    destruct (publish ext _ _ _ _ _ _ _) as [[r3 s3] e3]. cbn [fst snd].
    rewrite <- !app_assoc. reflexivity.
  - cbn [fst snd andb]. destruct (model_eval ext _ _) as [e|out]; cbn [fst snd];
      [reflexivity|].
    destruct (publish ext _ _ _ _ _ _ _) as [[r3 s3] e3]. cbn [fst snd].
    rewrite <- !app_assoc. reflexivity.
Qed.

(** ** Display *)

(** X10. When [display] has the data it reads, the figure gets a 2x1
    layout, or 2x2 if a denoised or a probability image is shown; the
    input image is in cell (0, 0), every image is in a cell of its own
    inside the layout, and there are two images plus one for the
    denoiser and one for the probabilities.  It fails only for display
    data that was never set, never for want of a free cell. *)
Theorem display_layout (cfg : Settings) (dd : DisplayData) :
  let layout :=
    if value (save_probabilities cfg) || value (denoise cfg) then (2, 2) else (2, 1) in
  match display cfg dd with
  | inr ps =>
      layout_of ps = Some layout /\
      hd_error (cells ps) = Some (0, 0) /\
      NoDup (cells ps) /\
      Forall (fun c => fst c < fst layout /\ snd c < snd layout) (cells ps) /\
      length (cells ps) =
        2 + (if value (denoise cfg) then 1 else 0)
          + (if value (save_probabilities cfg) then 1 else 0)
  | inl e =>
      e = AttributeError /\
      (dd_dimensions dd = None \/ dd_x_data dd = None \/ dd_y_data dd = None \/
       (value (denoise cfg) = true /\ dd_recon dd = None) \/
       (value (save_probabilities cfg) = true /\ dd_probabilities dd = None))
  end.
Proof.
  unfold display, attr, and_then.
  destruct (dd_dimensions dd) as [dims|]; [|split; auto].
  cbn [pop rev app fst snd].
  destruct (dd_x_data dd) as [xdata|]; [|split; auto].
  destruct (value (denoise cfg)) eqn:Eden; cbn [pop rev app fst snd orb].
  - destruct (dd_recon dd) as [recon|]; [|split; auto 6].
    destruct (value (save_probabilities cfg)) eqn:Eprob; cbn [pop rev app fst snd orb].
    + destruct (dd_probabilities dd) as [prob|]; [|split; auto 6].
      destruct (dd_y_data dd) as [ydata|]; [|split; auto].
      cbn. repeat split; try reflexivity.
      * repeat constructor; cbn [In]; intros H; in_cases H.
      * repeat constructor.
    + destruct (dd_y_data dd) as [ydata|]; [|split; auto].
      cbn. repeat split; try reflexivity.
      * repeat constructor; cbn [In]; intros H; in_cases H.
      * repeat constructor.
  - destruct (value (save_probabilities cfg)) eqn:Eprob; cbn [pop rev app fst snd orb].
    + destruct (dd_probabilities dd) as [prob|]; [|split; auto 6].
      destruct (dd_y_data dd) as [ydata|]; [|split; auto].
      cbn. repeat split; try reflexivity.
      * repeat constructor; cbn [In]; intros H; in_cases H.
      * repeat constructor.
    + destruct (dd_y_data dd) as [ydata|]; [|split; auto].
      cbn. repeat split; try reflexivity.
      * repeat constructor; cbn [In]; intros H; in_cases H.
      * repeat constructor.
Qed.

(** ** More about one run *)

(** A run stops before the composer has finished, or gets past it. *)
Lemma composer_cases (ext : External) (s : St) :
  let cfg := settings (self s) in
  (exists e, run ext s = (inl e, s, [])) \/
  (exists x xd ch,
     lookup (value (x_name cfg)) (image_set (workspace s)) = Some x /\
     multichannel x = false /\
     compose cfg (pixel_data x) s = (inr (xd, ch), s, [])).
Proof.
  intros cfg.
  destruct (lookup (value (x_name cfg)) (image_set (workspace s))) as [x|] eqn:Hx.
  2:{ left. apply run_stopped_early. intros x Hx'. fold cfg in Hx'. congruence. }
  destruct (multichannel x) eqn:Hm.
  { left. apply run_stopped_early. intros x' Hx'. fold cfg in Hx'.
    rewrite Hx in Hx'. injection Hx' as <-. congruence. }
  destruct (compose_pure cfg (pixel_data x) s) as [Hf He].
  destruct (compose cfg (pixel_data x) s) as [[rc sc] ec] eqn:Hc.
  unfold final, events in Hf, He; cbn [fst snd] in Hf, He. subst sc ec.
  destruct rc as [e|[xd ch]].
  { left. apply run_stopped_early. intros x' Hx' _. fold cfg in Hx'.
    rewrite Hx in Hx'. injection Hx' as <-. fold cfg. rewrite Hc. reflexivity. }
  right. exists x, xd, ch. auto.
Qed.

(** Where a run ends: where it started, after the load, or after the
    publication that follows the load. *)
Lemma run_leaves (ext : External) (s : St) :
  final (run ext s) = s \/
  final (run ext s) = final (load_models ext s) \/
  (exists x xd inp y flows,
     final (run ext s) =
       final (publish ext (self s) x xd inp y flows (final (load_models ext s)))).
Proof.
  destruct (composer_cases ext s) as [[e E]|(x & xd & ch & Hx & Hm & Hc)].
  { left. rewrite E. reflexivity. }
  right. rewrite (run_unfold ext s x xd ch Hx Hm Hc). cbn zeta.
  match goal with |- context [inference ext ?c ?x ?xd ?ch ?d ?a ?s1] =>
    pose proof (inference_final ext c x xd ch d a s1) as Hf;
    destruct (inference ext c x xd ch d a s1) as [[r2 s2] e2] end.
  unfold final in Hf; cbn [fst snd] in Hf. subst s2.
  unfold result; cbn [fst snd]. destruct r2 as [e|out].
  - left. reflexivity.
  - right. exists x, xd, (fst (fst out)), (snd (fst out)), (snd out). reflexivity.
Qed.

(** X11. A run never changes the settings or the window switch of the
    module, and with the window switched off it leaves the display
    data of the workspace as it found it. *)
Theorem run_keeps_settings (ext : External) (s : St) :
  settings (self (final (run ext s))) = settings (self s) /\
  show_window (self (final (run ext s))) = show_window (self s) /\
  (show_window (self s) = false ->
     display_data (workspace (final (run ext s))) = display_data (workspace s)).
Proof.
  destruct (load_models_spec ext s) as (me1 & E & Hset & Hshow & _).
  pose proof (load_models_quiet ext s) as (_ & _ & _ & Hws & _).
  destruct (run_leaves ext s) as [->|[->|(x & xd & inp & y & flows & ->)]].
  - auto.
  - rewrite E in *. unfold final in *; cbn [fst snd self] in *.
    rewrite Hws. auto.
  - destruct (publish_outcome ext (self s) x xd inp y flows (final (load_models ext s)))
      as (Hself & _ & _ & _ & _ & Hoff & _).
    rewrite Hself. rewrite E in *. unfold final in Hws |- *; cbn [fst snd self] in *.
    split; [exact Hset|]. split; [exact Hshow|].
    intros Hno. unfold final in Hoff; cbn [fst snd workspace] in Hoff.
    rewrite (Hoff Hno). reflexivity.
Qed.

Lemma display_labels (cfg : Settings) (dd : DisplayData) (ps : list plot) :
  display cfg dd = inr ps ->
  labels_shown ps = option_map (pair (value (y_name cfg))) (dd_y_data dd).
Proof.
  unfold display, attr, and_then.
  destruct (dd_dimensions dd) as [dims|]; [|discriminate].
  cbn [pop rev app fst snd].
  destruct (dd_x_data dd) as [xdata|]; [|discriminate].
  destruct (value (denoise cfg)); cbn [pop rev app fst snd];
    try (destruct (dd_recon dd) as [recon|]; [|discriminate]);
    destruct (value (save_probabilities cfg)); cbn [pop rev app fst snd];
    try (destruct (dd_probabilities dd) as [prob|]; [|discriminate]);
    (destruct (dd_y_data dd) as [ydata|]; [|discriminate]);
    intros H; injection H as <-; reflexivity.
Qed.

Lemma display_missing (cfg : Settings) (dd : DisplayData) (e : exn) :
  display cfg dd = inl e ->
  dd_dimensions dd = None \/ dd_x_data dd = None \/ dd_y_data dd = None \/
  (value (denoise cfg) = true /\ dd_recon dd = None) \/
  (value (save_probabilities cfg) = true /\ dd_probabilities dd = None).
Proof.
  unfold display, attr, and_then.
  destruct (dd_dimensions dd) as [dims|]; [|auto].
  cbn [pop rev app fst snd].
  destruct (dd_x_data dd) as [xdata|]; [|auto].
  destruct (value (denoise cfg)); cbn [pop rev app fst snd];
    try (destruct (dd_recon dd) as [recon|]; [|auto 6]);
    destruct (value (save_probabilities cfg)); cbn [pop rev app fst snd];
    try (destruct (dd_probabilities dd) as [prob|]; [|auto 6]);
    (destruct (dd_y_data dd) as [ydata|]; [|auto]);
    intros H; discriminate H.
Qed.

(** X12. After a run that returned with the window switched on,
    [display] finds every piece of display data it reads, and its
    label plot shows, under the name of the objects, the label map
    that the run put into the object set. *)
Theorem run_then_display (ext : External) (s : St) :
  let cfg := settings (self s) in
  let s' := final (run ext s) in
  show_window (self s) = true ->
  result (run ext s) = inr tt ->
  exists ps obj,
    display cfg (display_data (workspace s')) = inr ps /\
    lookup (value (y_name cfg)) (object_set (workspace s')) = Some obj /\
    labels_shown ps = Some (value (y_name cfg), segmented obj).
Proof.
  intros cfg s' Hshow Hres. subst s'.
  destruct (composer_cases ext s) as [[e E]|(x & xd & ch & Hx & Hm & Hc)].
  { rewrite E in Hres. discriminate. }
  rewrite (run_unfold ext s x xd ch Hx Hm Hc) in Hres |- *. cbn zeta in Hres |- *.
  fold cfg in Hres |- *.
  destruct (inference ext cfg x xd ch _ _ _) as [[r2 s2] e2].
  unfold result in Hres |- *; cbn [fst snd] in Hres |- *.
  destruct r2 as [e|out]; [discriminate|].
  unfold final in Hres |- *; cbn [fst snd] in Hres |- *.
  match goal with |- context [publish ext ?a ?b ?c ?d ?e ?f ?g] =>
    destruct (publish_outcome ext a b c d e f g) as (_ & Hobj & _ & _ & _ & _ & Hdd) end.
  fold cfg in Hobj, Hdd.
  unfold result, final in Hobj, Hdd. specialize (Hdd Hshow Hres). cbn zeta in Hdd.
  destruct Hdd as (Dx & Dy & Dd & Dr & Dp).
  match goal with |- context [display cfg ?dd] =>
    destruct (display cfg dd) as [e|ps] eqn:D end.
  { exfalso. destruct (display_missing cfg _ e D) as [H|[H|[H|[[H1 H2]|[H1 H2]]]]].
    - congruence.
    - congruence.
    - congruence.
    - exact (Dr H1 H2).
    - exact (Dp H1 H2). }
  eexists. eexists. split; [reflexivity|]. split.
  - rewrite Hobj. cbn [lookup]. rewrite String.eqb_refl. reflexivity.
  - rewrite (display_labels cfg _ ps D), Dy. reflexivity.
Qed.

Lemma publish_events (ext : External) (me : RunCellpose) (x : Image) (xd inp : ndarray Q)
  (y : labels) (flows : list (ndarray Q)) (s : St) :
  events (publish ext me x xd inp y flows s) = [] \/
  events (publish ext me x xd inp y flows s) = [AddMeasurements].
Proof.
  destruct (publish_outcome ext me x xd inp y flows s) as (_ & _ & H0 & H1 & H2 & _).
  destruct (value (save_probabilities (settings me))).
  - destruct (nth_error flows 2) as [f|] eqn:E.
    + right. apply (H1 eq_refl f eq_refl).
    + left. apply (H2 eq_refl eq_refl).
  - right. apply (H0 eq_refl).
Qed.

(** The events of a run that gets past the composer, in order: the
    memory share and the loads, the denoiser call, the segmentation
    call, the cache release, the measurements. *)
Lemma run_events_shape (ext : External) (s : St) (x : Image) (xd : ndarray Q)
  (ch : list Z) :
  let cfg := settings (self s) in
  cache_ok (self s) ->
  lookup (value (x_name cfg)) (image_set (workspace s)) = Some x ->
  multichannel x = false ->
  compose cfg (pixel_data x) s = (inr (xd, ch), s, []) ->
  exists tail,
    (tail = [] \/ tail = [AddMeasurements]) /\
    events (run ext s) =
      (if value (use_gpu cfg)
       then [SetMemoryFraction (value (manual_GPU_memory_share cfg))] else [])
      ++ (if model_params_differ (current_model_params (self s)) (requested_model ext cfg)
          then [LoadModel (model_for (requested_model ext cfg))] else [])
      ++ (if value (denoise cfg) &&
             recon_params_differ (recon_model_params (self s)) (requested_denoiser cfg)
          then [LoadDenoiser (denoiser_for (requested_denoiser cfg))] else [])
      ++ (if value (denoise cfg)
          then [DenoiseEval (denoiser_for (requested_denoiser cfg)) xd
                  (resolve_diameter cfg) ch]
          else [])
      ++ match segmentation_input ext cfg xd ch with
         | inl _ => []
         | inr inp =>
             [ModelEval (model_for (requested_model ext cfg))
                (segmentation_request ext cfg x inp ch)]
         end
      ++ release_events cfg ++ tail.
Proof.
  intros cfg Hok Hx Hm Hc.
  pose proof (run_trace ext s x xd ch Hok Hx Hm Hc) as T. cbn zeta in T. fold cfg in T.
  destruct (load_models_spec ext s) as (me1 & E & _). cbn zeta in E. fold cfg in E.
  rewrite E in T. unfold events at 1 2 3 in T. unfold final in T. cbn [fst snd] in T.
  destruct (segmentation_input ext cfg xd ch) as [e|inp].
  - exists []. split; [left; reflexivity|]. rewrite T. unfold events; cbn [snd].
    rewrite <- ?app_assoc, ?app_nil_r. reflexivity.
  - cbn zeta in T. destruct (model_eval ext _ _) as [e|out].
    + exists []. split; [left; reflexivity|]. rewrite T. unfold events; cbn [snd].
      rewrite <- ?app_assoc, ?app_nil_r. reflexivity.
    + match type of T with context [publish ext ?a ?b ?c ?d ?e ?f ?g] =>
        pose proof (publish_events ext a b c d e f g) as P;
        destruct (publish ext a b c d e f g) as [[r3 s3] e3] end.
      unfold events in P; cbn [snd] in P.
      exists e3. split; [exact P|]. rewrite T. unfold events, result; cbn [fst snd].
      rewrite <- ?app_assoc, ?app_nil_r. reflexivity.
Qed.

Lemma models_called_app (a b : list event) :
  models_called (a ++ b) = models_called a ++ models_called b.
Proof.
  induction a as [|e a IH]; simpl; [reflexivity|].
  destruct e; simpl; rewrite ?IH; reflexivity.
Qed.

Lemma segmentation_input_plain (ext : External) (cfg : Settings) (xd : ndarray Q)
  (ch : list Z) :
  value (denoise cfg) = false -> segmentation_input ext cfg xd ch = inr xd.
Proof. intros H. unfold segmentation_input. rewrite H. reflexivity. Qed.

(** X13. With the GPU switched on, a run that gets past the composer
    opens with the per-process memory share, reloading or not, and
    clears the accelerator cache exactly once, after its last
    inference call and also when that call raised; with the GPU off
    it does neither. *)
Theorem run_accelerator_bracket (ext : External) (s : St) (x : Image) (xd : ndarray Q)
  (ch : list Z) :
  let cfg := settings (self s) in
  let evs := events (run ext s) in
  cache_ok (self s) ->
  lookup (value (x_name cfg)) (image_set (workspace s)) = Some x ->
  multichannel x = false ->
  compose cfg (pixel_data x) s = (inr (xd, ch), s, []) ->
  filter is_memory_share evs =
    (if value (use_gpu cfg)
     then [SetMemoryFraction (value (manual_GPU_memory_share cfg))] else []) /\
  filter is_release evs = (if value (use_gpu cfg) then [EmptyCache] else []) /\
  (value (use_gpu cfg) = true ->
     exists middle tail,
       evs = SetMemoryFraction (value (manual_GPU_memory_share cfg))
             :: middle ++ EmptyCache :: tail /\
       filter is_inference middle <> [] /\
       filter is_inference tail = []).
Proof.
  intros cfg evs Hok Hx Hm Hc. subst evs.
  destruct (run_events_shape ext s x xd ch Hok Hx Hm Hc) as (tail & Ht & E).
  fold cfg in E. rewrite E. clear E. unfold release_events.
  pose proof (segmentation_input_plain ext cfg xd ch) as Hplain.
  split; [|split].
  - rewrite !filter_app.
    destruct (value (use_gpu cfg)), (model_params_differ _ _),
      (value (denoise cfg) && recon_params_differ _ _), (value (denoise cfg)),
      (segmentation_input ext cfg xd ch), Ht as [-> | ->]; reflexivity.
  - rewrite !filter_app.
    destruct (value (use_gpu cfg)), (model_params_differ _ _),
      (value (denoise cfg) && recon_params_differ _ _), (value (denoise cfg)),
      (segmentation_input ext cfg xd ch), Ht as [-> | ->]; reflexivity.
  - intros Hgpu. rewrite Hgpu. cbn [app].
    match goal with
    | |- exists _ _, _ :: ?A ++ ?B ++ ?C ++ ?D ++ _ = _ /\ _ =>
        exists (A ++ B ++ C ++ D), tail
    end.
    split.
    + rewrite <- !app_assoc. reflexivity.
    + split; [|destruct Ht as [-> | ->]; reflexivity].
      rewrite !filter_app.
      destruct (value (denoise cfg)) eqn:Hden.
      * destruct (model_params_differ _ _), (recon_params_differ _ _); cbn;
          discriminate.
      * rewrite (Hplain eq_refl).
        destruct (model_params_differ _ _); cbn; discriminate.
Qed.

(** X14. A run issues at most one denoiser call and at most one
    segmentation call, the denoiser first, and the segmentation call
    only after a denoiser call that returned: its inference calls are
    the denoiser call when denoising is on, followed by the
    segmentation call when the denoiser (if any) returned. *)
Theorem run_call_sequence (ext : External) (s : St) (x : Image) (xd : ndarray Q)
  (ch : list Z) :
  let cfg := settings (self s) in
  cache_ok (self s) ->
  lookup (value (x_name cfg)) (image_set (workspace s)) = Some x ->
  multichannel x = false ->
  compose cfg (pixel_data x) s = (inr (xd, ch), s, []) ->
  filter is_inference (events (run ext s)) =
    (if value (denoise cfg)
     then [DenoiseEval (denoiser_for (requested_denoiser cfg)) xd (resolve_diameter cfg) ch]
     else [])
    ++ match segmentation_input ext cfg xd ch with
       | inl _ => []
       | inr inp =>
           [ModelEval (model_for (requested_model ext cfg))
              (segmentation_request ext cfg x inp ch)]
       end.
Proof.
  intros cfg Hok Hx Hm Hc.
  destruct (run_events_shape ext s x xd ch Hok Hx Hm Hc) as (tail & Ht & E).
  fold cfg in E. rewrite E. clear E. unfold release_events. rewrite !filter_app.
  destruct (value (use_gpu cfg)), (model_params_differ _ _),
    (value (denoise cfg) && recon_params_differ _ _), (value (denoise cfg)),
    (segmentation_input ext cfg xd ch), Ht as [-> | ->]; reflexivity.
Qed.

(** X15. When the denoiser or the segmentation model raises, the run
    ends with that very exception: nothing has been added to the
    object set or the image set, no segmentation call follows a
    denoiser that raised, the loaded models stay cached and the
    accelerator cache has been cleared. *)
Theorem run_inference_failure (ext : External) (s : St) (x : Image) (xd : ndarray Q)
  (ch : list Z) (e : exn) :
  let cfg := settings (self s) in
  let evs := events (run ext s) in
  cache_ok (self s) ->
  lookup (value (x_name cfg)) (image_set (workspace s)) = Some x ->
  multichannel x = false ->
  compose cfg (pixel_data x) s = (inr (xd, ch), s, []) ->
  segmentation_output ext cfg x xd ch = inl e ->
  result (run ext s) = inl e /\
  workspace (final (run ext s)) = workspace s /\
  self (final (run ext s)) = self (final (load_models ext s)) /\
  (segmentation_input ext cfg xd ch = inl e -> model_evals evs = []) /\
  filter is_release evs = (if value (use_gpu cfg) then [EmptyCache] else []).
Proof.
  intros cfg evs Hok Hx Hm Hc Hout. subst evs.
  destruct (run_events_shape ext s x xd ch Hok Hx Hm Hc) as (tail & Ht & E).
  pose proof (run_trace ext s x xd ch Hok Hx Hm Hc) as T. cbn zeta in T.
  pose proof (load_models_quiet ext s) as (_ & _ & _ & Hws & _).
  fold cfg in T, E. unfold segmentation_output in Hout.
  split; [|split; [|split; [|split]]].
  - destruct (segmentation_input ext cfg xd ch) as [e'|inp].
    + injection Hout as ->. rewrite T. reflexivity.
    + cbn zeta in T. destruct (model_eval ext _ _) as [e'|out]; [|discriminate].
      injection Hout as ->. rewrite T. reflexivity.
  - destruct (segmentation_input ext cfg xd ch) as [e'|inp].
    + rewrite T. exact Hws.
    + cbn zeta in T. destruct (model_eval ext _ _) as [e'|out]; [|discriminate].
      rewrite T. exact Hws.
  - destruct (segmentation_input ext cfg xd ch) as [e'|inp].
    + rewrite T. reflexivity.
    + cbn zeta in T. destruct (model_eval ext _ _) as [e'|out]; [|discriminate].
      rewrite T. reflexivity.
  - intros Hin. rewrite E, Hin. unfold release_events. rewrite !model_evals_app.
    destruct (value (use_gpu cfg)), (model_params_differ _ _),
      (value (denoise cfg) && recon_params_differ _ _), (value (denoise cfg)),
      Ht as [-> | ->]; reflexivity.
  - rewrite E. unfold release_events. rewrite !filter_app.
    destruct (value (use_gpu cfg)), (model_params_differ _ _),
      (value (denoise cfg) && recon_params_differ _ _), (value (denoise cfg)),
      (segmentation_input ext cfg xd ch), Ht as [-> | ->]; reflexivity.
Qed.

(** X16. In every state the module can reach, whatever earlier runs
    have cached under other settings, the segmentation call of a run
    goes to the model the current settings name (the resolved name,
    the GPU switch, the sized class exactly for a sized name), and the
    denoiser call to the denoiser of the current denoiser choice, GPU
    switch and nuclei flag. *)
Theorem run_uses_requested_models (ext : External) (s : St) :
  let cfg := settings (self s) in
  let evs := events (run ext s) in
  reachable ext s ->
  Forall (fun m =>
            m_model_type m = fst (requested_model ext cfg) /\
            m_gpu m = value (use_gpu cfg) /\
            (m_class m = Cellpose <-> str_in (m_model_type m) SIZED_MODELS = true))
         (models_called evs) /\
  Forall (fun c =>
            dn_model_type (called_denoiser c) = value (denoise_type cfg) /\
            dn_gpu (called_denoiser c) = value (use_gpu cfg) /\
            dn_chan2 (called_denoiser c) = wants_nuclei cfg)
         (denoise_evals evs).
Proof.
  intros cfg evs Hreach. subst evs.
  pose proof (reachable_cache_ok ext s Hreach) as Hok.
  destruct (composer_cases ext s) as [[e E]|(x & xd & ch & Hx & Hm & Hc)].
  { rewrite E. split; apply Forall_nil. }
  destruct (run_events_shape ext s x xd ch Hok Hx Hm Hc) as (tail & Ht & E).
  fold cfg in E. rewrite E. clear E. unfold release_events.
  rewrite !models_called_app, !denoise_evals_app.
  assert (Hcls : forall p,
            m_class (model_for p) = Cellpose <->
            str_in (m_model_type (model_for p)) SIZED_MODELS = true).
  { intros p. unfold model_for. cbn [m_class m_model_type].
    destruct (str_in (fst p) SIZED_MODELS); split; intros H;
      first [reflexivity | discriminate H]. }
  split.
  - match goal with |- Forall ?Q _ => set (P := Q) end.
    assert (HP : P (model_for (requested_model ext cfg))).
    { subst P. cbv beta. split; [reflexivity|split; [reflexivity|apply Hcls]]. }
    clearbody P.
    destruct (value (use_gpu cfg)), (model_params_differ _ _),
      (value (denoise cfg) && recon_params_differ _ _), (value (denoise cfg)),
      (segmentation_input ext cfg xd ch), Ht as [-> | ->]; cbn;
      at_most_one; exact HP.
  - match goal with |- Forall ?Q _ => set (P := Q) end.
    assert (HP : forall x d c,
               P (denoiser_for (requested_denoiser cfg), x, d, c)).
    { intros. subst P. cbv beta. repeat split. }
    clearbody P.
    destruct (value (use_gpu cfg)), (model_params_differ _ _),
      (value (denoise cfg) && recon_params_differ _ _), (value (denoise cfg)),
      (segmentation_input ext cfg xd ch), Ht as [-> | ->]; cbn;
      at_most_one; apply HP.
Qed.

Lemma run_self_after_load (ext : External) (s : St) (x : Image) (xd : ndarray Q)
  (ch : list Z) :
  let cfg := settings (self s) in
  lookup (value (x_name cfg)) (image_set (workspace s)) = Some x ->
  multichannel x = false ->
  compose cfg (pixel_data x) s = (inr (xd, ch), s, []) ->
  self (final (run ext s)) = self (final (load_models ext s)).
Proof.
  intros cfg Hx Hm Hc. rewrite (run_unfold ext s x xd ch Hx Hm Hc). cbn zeta.
  rewrite inference_final.
  destruct (result (inference ext _ x xd ch _ _ _)) as [e|out]; [reflexivity|].
  unfold final at 1; cbn [fst snd].
  match goal with |- context [publish ext ?a ?b ?c ?d ?e ?f ?g] =>
    destruct (publish_outcome ext a b c d e f g) as (Hself & _) end.
  unfold final in Hself |- *. exact Hself.
Qed.

(** X17. Once a run has got as far as loading, the next run of the
    module with the same settings, on whatever workspace, loads
    neither a model nor a denoiser and keeps the cached model. *)
Theorem second_run_loads_nothing (ext : External) (s : St) (ws : Workspace) (x : Image)
  (xd : ndarray Q) (ch : list Z) :
  let cfg := settings (self s) in
  cache_ok (self s) ->
  lookup (value (x_name cfg)) (image_set (workspace s)) = Some x ->
  multichannel x = false ->
  compose cfg (pixel_data x) s = (inr (xd, ch), s, []) ->
  filter is_model_load (events (next_run ext s ws)) = [] /\
  filter is_denoiser_load (events (next_run ext s ws)) = [] /\
  current_model (self (final (next_run ext s ws))) =
    current_model (self (final (run ext s))).
Proof.
  intros cfg Hok Hx Hm Hc. unfold next_run.
  pose proof (run_self_after_load ext s x xd ch Hx Hm Hc) as Hself.
  destruct (load_models_spec ext s) as (me1 & E1 & Hset & _ & Hkey & _ & Hdkey & _).
  cbn zeta in E1, Hset, Hkey, Hdkey. fold cfg in E1, Hset, Hkey, Hdkey.
  rewrite E1 in Hself. unfold final at 2 in Hself; cbn [fst snd self] in Hself.
  pose proof (run_cache_ok ext s Hok) as Hok2.
  set (s2 := {| self := self (final (run ext s)); workspace := ws |}).
  assert (Hs2 : self s2 = me1) by exact Hself.
  assert (Hm0 : model_params_differ (current_model_params (self s2))
                  (requested_model ext (settings (self s2))) = false).
  { rewrite Hs2, Hset. apply model_params_same. exact Hkey. }
  assert (Hd0 : value (denoise (settings (self s2))) &&
                recon_params_differ (recon_model_params (self s2))
                  (requested_denoiser (settings (self s2))) = false).
  { rewrite Hs2, Hset, Hdkey. destruct (value (denoise cfg)); [|reflexivity].
    cbn [andb]. apply recon_params_same. reflexivity. }
  destruct (composer_cases ext s2) as [[e E]|(x2 & xd2 & ch2 & Hx2 & Hm2 & Hc2)].
  { rewrite E. repeat split; reflexivity. }
  destruct (run_events_shape ext s2 x2 xd2 ch2 Hok2 Hx2 Hm2 Hc2) as (tail & Ht & Ev).
  split; [|split].
  - rewrite Ev, Hm0, Hd0. unfold release_events. rewrite !filter_app.
    destruct (value (use_gpu (settings (self s2)))),
      (value (denoise (settings (self s2)))),
      (segmentation_input ext (settings (self s2)) xd2 ch2),
      Ht as [-> | ->]; reflexivity.
  - rewrite Ev, Hm0, Hd0. unfold release_events. rewrite !filter_app.
    destruct (value (use_gpu (settings (self s2)))),
      (value (denoise (settings (self s2)))),
      (segmentation_input ext (settings (self s2)) xd2 ch2),
      Ht as [-> | ->]; reflexivity.
  - rewrite (run_self_after_load ext s2 x2 xd2 ch2 Hx2 Hm2 Hc2).
    destruct (load_models_spec ext s2) as (me2 & E2 & _ & _ & _ & Hcm & _).
    rewrite E2. unfold final at 1; cbn [fst snd self]. rewrite Hcm, Hm0. reflexivity.
Qed.

(** X18. The flow threshold, the cell probability threshold, the
    minimum size and the inversion flag of every segmentation call are
    the values of the settings, with or without a denoiser; the
    anisotropy is 0 outside 3D mode, and in 3D mode it is what the
    float division gives for the first two spacings of the input
    image, the second not being zero. *)
Theorem run_passes_thresholds (ext : External) (s : St) :
  let cfg := settings (self s) in
  let evs := events (run ext s) in
  cache_ok (self s) ->
  Forall (fun a =>
            ea_flow_threshold a = value (flow_threshold cfg) /\
            ea_cellprob_threshold a = value (cellprob_threshold cfg) /\
            ea_min_size a = value (min_size cfg) /\
            ea_invert a = value (invert cfg) /\
            exists x,
              lookup (value (x_name cfg)) (image_set (workspace s)) = Some x /\
              (value (do_3D cfg) = false -> ea_anisotropy a = 0%Q) /\
              (value (do_3D cfg) = true -> ~ (spacing1 x == 0)%Q ->
                 ea_anisotropy a = float_div ext (spacing0 x) (spacing1 x)))
         (model_evals evs).
Proof.
  intros cfg evs Hok. subst evs.
  destruct (run_requests ext s Hok)
    as [[_ E]|(x & xd & ch & Hx & _ & _ & _ & _ & _ & H3)].
  - rewrite E. apply Forall_nil.
  - fold cfg in H3, Hx. rewrite H3.
    destruct (segmentation_input ext cfg xd ch) as [e|inp]; at_most_one.
    unfold segmentation_request, seg_args, anisotropy_of.
    cbn [ea_flow_threshold ea_cellprob_threshold ea_min_size ea_invert ea_anisotropy].
    repeat split. exists x. split; [exact Hx|]. split.
    + intros ->. reflexivity.
    + intros -> _. reflexivity.
Qed.

(** X19. When the segmentation returned, the run publishes the
    probability image only if asked to: with the switch off the image
    set is as it was; with it on, the third flow is resized to the
    shape of the label map as published, that is after its own resize
    and edge removal, and added under the probabilities name with the
    parent of the input image and as many dimensions as it has axes. *)
Theorem run_publishes_probabilities (ext : External) (s : St) (x : Image)
  (xd : ndarray Q) (ch : list Z) (inp : ndarray Q) (y0 : labels)
  (flows : list (ndarray Q)) :
  let cfg := settings (self s) in
  let s' := final (run ext s) in
  let y := postprocess ext cfg x y0 in
  cache_ok (self s) ->
  lookup (value (x_name cfg)) (image_set (workspace s)) = Some x ->
  multichannel x = false ->
  compose cfg (pixel_data x) s = (inr (xd, ch), s, []) ->
  segmentation_output ext cfg x xd ch = inr (inp, y0, flows) ->
  (value (save_probabilities cfg) = false ->
     result (run ext s) = inr tt /\
     image_set (workspace s') = image_set (workspace s)) /\
  (value (save_probabilities cfg) = true -> forall f, nth_error flows 2 = Some f ->
     let size_corrected := resize_image ext f (shape y) default_resize in
     result (run ext s) = inr tt /\
     image_set (workspace s') =
       (value (probabilities_name cfg),
        {| pixel_data := size_corrected; multichannel := false;
           volumetric := length (shape size_corrected) =? 3;
           dimensions := length (shape size_corrected);
           parent_image := parent_image x;
           spacing0 := 1%Q; spacing1 := 1%Q |})
       :: image_set (workspace s)).
Proof.
  intros cfg s' y Hok Hx Hm Hc Hout. subst s' y.
  pose proof (run_trace ext s x xd ch Hok Hx Hm Hc) as T. cbn zeta in T. fold cfg in T.
  pose proof (load_models_quiet ext s) as (_ & _ & _ & Hws & _).
  unfold segmentation_output in Hout.
  destruct (segmentation_input ext cfg xd ch) as [e|inp']; [discriminate|].
  cbn zeta in T. destruct (model_eval ext _ _) as [e|[y1 fl]]; [discriminate|].
  cbn [fst snd] in Hout, T. injection Hout as -> -> ->.
  match type of T with context [publish ext ?a ?b ?c ?d ?e ?f ?g] =>
    destruct (publish_outcome ext a b c d e f g) as (_ & _ & P0 & P1 & _);
    remember (publish ext a b c d e f g) as o3 end.
  fold cfg in P0, P1. rewrite T. unfold result, final in *. cbn [fst snd] in *.
  rewrite Hws in P0, P1. split.
  - intros Hoff. destruct (P0 Hoff) as (R & _ & I). split; assumption.
  - intros Hon f Hf. destruct (P1 Hon f Hf) as (R & _ & I). split; assumption.
Qed.

(** X20. If probabilities are asked for and the model hands back
    fewer than three flows, the run raises an index error after the
    objects have been added: the label map is in the object set, no
    probability image is in the image set and no measurement has been
    made. *)
Theorem short_flows_after_objects (ext : External) (s : St) (x : Image)
  (xd : ndarray Q) (ch : list Z) (inp : ndarray Q) (y0 : labels)
  (flows : list (ndarray Q)) :
  let cfg := settings (self s) in
  let s' := final (run ext s) in
  cache_ok (self s) ->
  lookup (value (x_name cfg)) (image_set (workspace s)) = Some x ->
  multichannel x = false ->
  compose cfg (pixel_data x) s = (inr (xd, ch), s, []) ->
  segmentation_output ext cfg x xd ch = inr (inp, y0, flows) ->
  value (save_probabilities cfg) = true ->
  length flows < 3 ->
  result (run ext s) = inl IndexError /\
  object_set (workspace s') =
    (value (y_name cfg),
     {| segmented := postprocess ext cfg x y0; objects_parent_image := parent_image x |})
    :: object_set (workspace s) /\
  image_set (workspace s') = image_set (workspace s) /\
  filter is_measurement (events (run ext s)) = [].
Proof.
  intros cfg s' Hok Hx Hm Hc Hout Hon Hlen. subst s'.
  assert (Hnone : nth_error flows 2 = None) by (apply nth_error_None; lia).
  pose proof (run_trace ext s x xd ch Hok Hx Hm Hc) as T. cbn zeta in T. fold cfg in T.
  pose proof (load_models_quiet ext s) as (_ & _ & _ & Hws & _).
  destruct (load_models_spec ext s) as (me1 & E & _). cbn zeta in E. fold cfg in E.
  unfold segmentation_output in Hout.
  destruct (segmentation_input ext cfg xd ch) as [e|inp']; [discriminate|].
  cbn zeta in T. destruct (model_eval ext _ _) as [e|[y1 fl]]; [discriminate|].
  cbn [fst snd] in Hout, T. injection Hout as -> -> ->.
  match type of T with context [publish ext ?a ?b ?c ?d ?e ?f ?g] =>
    destruct (publish_outcome ext a b c d e f g) as (_ & Hobj & _ & _ & P2 & _);
    remember (publish ext a b c d e f g) as o3 end.
  fold cfg in P2, Hobj. destruct (P2 Hon Hnone) as (R & Ev & I).
  rewrite T. rewrite E in *. unfold result, final, events in *. cbn [fst snd workspace] in *.
  split; [exact R|]. split; [exact Hobj|]. split; [exact I|].
  rewrite Ev. unfold release_events. rewrite !filter_app.
  destruct (value (use_gpu cfg)), (model_params_differ _ _),
    (value (denoise cfg) && recon_params_differ _ _), (value (denoise cfg)); reflexivity.
Qed.

(** X21. A run whose input is not there, or whose nuclei image is
    missing or has another shape than the input image, stops before
    [load_models]: it raises, loads no model, calls nothing and leaves
    the module and the workspace as they were. *)
Theorem run_stops_before_load (ext : External) (s : St) :
  let cfg := settings (self s) in
  let images := image_set (workspace s) in
  (lookup (value (x_name cfg)) images = None \/
   exists x,
     lookup (value (x_name cfg)) images = Some x /\
     wants_nuclei cfg = true /\
     (lookup (value (nuclei_image cfg)) images = None \/
      exists nuc,
        lookup (value (nuclei_image cfg)) images = Some nuc /\
        shape (pixel_data nuc) <> shape (pixel_data x))) ->
  exists e, run ext s = (inl e, s, []).
Proof.
  intros cfg images H. subst images. apply run_stopped_early. fold cfg.
  intros x' Hx' Hm'.
  destruct H as [H|(x & Hx & Hw & H)]; [congruence|].
  assert (x' = x) by congruence. subst x'.
  rewrite (compose_stacked cfg (pixel_data x) s Hw).
  destruct H as [H|(nuc & Hn & Hs)].
  - rewrite H. reflexivity.
  - rewrite Hn. unfold np_stack3.
    destruct (shape_eqb (shape (zeros_like (pixel_data x))) (shape (pixel_data nuc)))
      eqn:Heq.
    + exfalso. apply Hs. apply shape_eqb_eq in Heq.
      unfold zeros_like in Heq. rewrite shape_nd_map in Heq. symmetry. exact Heq.
    + rewrite andb_false_r. reflexivity.
Qed.

(** X22. The measurements are made exactly once by a run that
    returns, as its last step, and not at all by a run that raises,
    wherever it raises. *)
Theorem measurements_on_return (ext : External) (s : St) :
  cache_ok (self s) ->
  filter is_measurement (events (run ext s)) =
    match result (run ext s) with
    | inr _ => [AddMeasurements]
    | inl _ => []
    end /\
  (result (run ext s) = inr tt ->
   exists before,
     events (run ext s) = before ++ [AddMeasurements] /\
     filter is_measurement before = []).
Proof.
  intros Hok.
  destruct (composer_cases ext s) as [[e E]|(x & xd & ch & Hx & Hm & Hc)].
  { rewrite E. split; [reflexivity|]. intros H; discriminate H. }
  pose proof (run_trace ext s x xd ch Hok Hx Hm Hc) as T. cbn zeta in T.
  destruct (load_models_spec ext s) as (me1 & E & _). cbn zeta in E.
  set (cfg := settings (self s)) in *.
  assert (Q1 : filter is_measurement (snd (load_models ext s)) = []).
  { rewrite E. cbn [snd]. rewrite !filter_app.
    destruct (value (use_gpu cfg)), (model_params_differ _ _),
      (value (denoise cfg) && recon_params_differ _ _); reflexivity. }
  assert (Q2 : forall d,
            filter is_measurement
              (if value (denoise cfg)
               then [DenoiseEval d xd (resolve_diameter cfg) ch] else []) = []).
  { intros d. destruct (value (denoise cfg)); reflexivity. }
  assert (Q3 : filter is_measurement (release_events cfg) = []).
  { unfold release_events. destruct (value (use_gpu cfg)); reflexivity. }
  destruct (segmentation_input ext cfg xd ch) as [e|inp].
  { rewrite T. unfold result, events; cbn [fst snd]. rewrite !filter_app, Q1, Q2, Q3.
    split; [reflexivity|intros H; discriminate H]. }
  cbn zeta in T. destruct (model_eval ext _ _) as [e|out].
  { rewrite T. unfold result, events; cbn [fst snd]. rewrite !filter_app, Q1, Q2, Q3.
    split; [reflexivity|intros H; discriminate H]. }
  match type of T with context [publish ext ?a ?b ?c ?d ?e ?f ?g] =>
    destruct (publish_outcome ext a b c d e f g) as (_ & _ & P0 & P1 & P2 & _);
    remember (publish ext a b c d e f g) as o3 end.
  fold cfg in P0, P1, P2.
  assert (Hev : (result o3 = inr tt /\ events o3 = [AddMeasurements]) \/
                (result o3 = inl IndexError /\ events o3 = [])).
  { destruct (value (save_probabilities cfg)).
    - destruct (nth_error (snd out) 2) as [f|] eqn:Ef.
      + left. destruct (P1 eq_refl f eq_refl) as (R & Ev & _). auto.
      + right. destruct (P2 eq_refl eq_refl) as (R & Ev & _). auto.
    - left. destruct (P0 eq_refl) as (R & Ev & _). auto. }
  rewrite T. unfold result, events in Hev |- *; cbn [fst snd].
  destruct Hev as [[R Ev]|[R Ev]]; rewrite R, Ev.
  - split.
    + rewrite !filter_app, Q1, Q2, Q3. reflexivity.
    + intros _. rewrite !app_assoc. eexists. split; [reflexivity|].
      rewrite !filter_app, Q1, Q2, Q3. reflexivity.
  - split; [|intros H; discriminate H].
    rewrite !filter_app, Q1, Q2, Q3. reflexivity.
Qed.

Lemma recon_params_after_load (ext : External) (s : St) :
  recon_model_params (self (final (load_models ext s))) =
    if value (denoise (settings (self s)))
    then Some (requested_denoiser (settings (self s))) else None.
Proof.
  destruct (load_models_spec ext s) as (me' & E & _ & _ & _ & _ & Hrp & _).
  rewrite E. exact Hrp.
Qed.

(** X23. Over any sequence of invocations the denoiser is loaded once
    for each invocation with denoising on whose denoiser key (denoiser
    choice, GPU switch, nuclei flag) differs from the stored one, an
    invocation with denoising off forgetting the stored key; so there
    are never more denoiser loads than invocations with denoising
    on. *)
Theorem denoiser_loads_in_sequence (ext : External) (cfgs : list Settings) (s : St) :
  length (filter is_denoiser_load (fst (load_sequence ext cfgs s))) =
    denoiser_key_changes (recon_model_params (self s)) cfgs /\
  length (filter is_denoiser_load (fst (load_sequence ext cfgs s))) <=
    length (filter (fun cfg => value (denoise cfg)) cfgs).
Proof.
  assert (Hcount : forall s0,
            length (filter is_denoiser_load (fst (load_sequence ext cfgs s0))) =
              denoiser_key_changes (recon_model_params (self s0)) cfgs).
  { induction cfgs as [|cfg rest IH]; intros s0; [reflexivity|].
    cbn [load_sequence denoiser_key_changes fst]. rewrite filter_app, length_app, IH.
    unfold load_with. rewrite denoiser_loads_of_load, recon_params_after_load.
    cbn [self settings configure recon_model_params].
    destruct (value (denoise cfg)); cbn [andb]; [|reflexivity].
    destruct (recon_params_differ _ _); reflexivity. }
  split; [apply Hcount|]. rewrite Hcount. clear Hcount.
  generalize (recon_model_params (self s)).
  induction cfgs as [|cfg rest IH]; intros stored; [apply Nat.le_refl|].
  cbn [denoiser_key_changes filter].
  destruct (value (denoise cfg)).
  - cbn [length]. specialize (IH (Some (requested_denoiser cfg))).
    destruct (recon_params_differ _ _); lia.
  - apply IH.
Qed.

(** X24. A module that has just been created has nothing cached: its
    first [load_models] loads the model the settings name, whatever
    they are, loads the denoiser exactly if denoising is on, and
    leaves the two handles that a run then calls. *)
Theorem first_load_from_init (ext : External) (cfg : Settings) (show : bool)
  (ws : Workspace) :
  let o := load_models ext {| self := init cfg show; workspace := ws |} in
  filter is_model_load (events o) = [LoadModel (model_for (requested_model ext cfg))] /\
  filter is_denoiser_load (events o) =
    (if value (denoise cfg)
     then [LoadDenoiser (denoiser_for (requested_denoiser cfg))] else []) /\
  current_model (self (final o)) = Some (model_for (requested_model ext cfg)) /\
  recon_model (self (final o)) =
    (if value (denoise cfg) then Some (denoiser_for (requested_denoiser cfg)) else None).
Proof.
  intros o. subst o.
  rewrite model_loads_of_load, denoiser_loads_of_load.
  cbn [self settings init current_model_params recon_model_params model_params_differ
       recon_params_differ].
  rewrite andb_true_r.
  split; [reflexivity|]. split; [reflexivity|].
  apply (load_models_handles ext {| self := init cfg show; workspace := ws |}
           (cache_ok_init cfg show)).
Qed.

(** ** Instances *)

Lemma upgrade_settings_result_witness :
  upgrade_settings More.saved1 1 "RunCellpose" = inr (More.upgraded1, 10%Z) /\
  Z.of_nat (length More.upgraded1) = (13 + 8)%Z.
Proof.
  split; [reflexivity|].
  destruct (upgrade_settings_result More.saved1 More.upgraded1 1 10 "RunCellpose" eq_refl)
    as [H _].
  destruct (H (conj (Z.le_refl 1) (Zle_bool_imp_le 1 4 eq_refl))) as [_ Hn]. exact Hn.
Defined.

Lemma upgrade_settings_idempotent_witness :
  upgrade_settings More.saved1 1 "RunCellpose" = inr (More.upgraded1, 10%Z) /\
  upgrade_settings More.upgraded1 10 "RunCellpose" = inr (More.upgraded1, 10%Z).
Proof.
  split; [reflexivity|].
  exact (upgrade_settings_idempotent More.saved1 More.upgraded1 1 10 "RunCellpose" eq_refl).
Defined.

Lemma upgrade_settings_switches_off_witness :
  length More.upgraded1 = length Listing.settings /\
  nth_error More.upgraded1 4 = Some (Flag false) /\
  nth_error More.upgraded1 19 = Some (Flag false) /\
  nth_error More.upgraded1 20 = Some (Str "denoise_cyto3").
Proof.
  split; [reflexivity|].
  destruct (upgrade_settings_switches_off More.saved1 More.upgraded1 1 10 "RunCellpose"
              (conj (Z.le_refl 1) (Zle_bool_imp_le 1 4 eq_refl)) eq_refl eq_refl)
    as (A & B & C).
  split; [apply A; reflexivity|]. split; [apply B; reflexivity|apply C; reflexivity].
Defined.

Lemma builtin_modes_need_no_file_witness :
  let cfg := More.cfg_full "cyto3" false false false false "denoise_cyto3" in
  validate_module provider (fun _ => false) cfg = inr tt /\
  requested_model provider cfg = ("cyto3"%string, false).
Proof.
  intros cfg.
  destruct (builtin_modes_need_no_file provider (fun _ => false) cfg (or_introl eq_refl))
    as (_ & _ & V & R).
  split; [exact V|exact R].
Defined.

Lemma run_then_display_witness :
  exists ps obj,
    display (settings (self More.everything_on))
      (display_data (workspace (final (run provider More.everything_on)))) = inr ps /\
    lookup "CellObjects" (object_set (workspace (final (run provider More.everything_on))))
      = Some obj /\
    labels_shown ps = Some ("CellObjects"%string, segmented obj).
Proof.
  exact (run_then_display provider More.everything_on eq_refl eq_refl).
Defined.

Lemma run_accelerator_bracket_witness :
  hd_error (events (run provider More.gpu_denoised)) = Some (SetMemoryFraction (1 # 10)) /\
  filter is_release (events (run provider More.gpu_denoised)) = [EmptyCache].
Proof.
  destruct (run_accelerator_bracket provider More.gpu_denoised (grey cells4 2) cells4
              [0; 0]%Z (cache_ok_init _ _) eq_refl eq_refl eq_refl) as (_ & Hr & Hb).
  split; [|exact Hr].
  destruct (Hb eq_refl) as (middle & tail & E & _). rewrite E. reflexivity.
Defined.

Lemma run_call_sequence_witness :
  length (filter is_inference (events (run provider More.gpu_denoised))) = 2.
Proof.
  rewrite (run_call_sequence provider More.gpu_denoised (grey cells4 2) cells4 [0; 0]%Z
             (cache_ok_init _ _) eq_refl eq_refl eq_refl).
  reflexivity.
Defined.

Lemma run_inference_failure_witness :
  result (run More.failing_denoiser More.gpu_denoised) =
    inl (InferenceError "out of memory") /\
  model_evals (events (run More.failing_denoiser More.gpu_denoised)) = [] /\
  object_set (workspace (final (run More.failing_denoiser More.gpu_denoised))) = [].
Proof.
  destruct (run_inference_failure More.failing_denoiser More.gpu_denoised (grey cells4 2)
              cells4 [0; 0]%Z (InferenceError "out of memory") (cache_ok_init _ _)
              eq_refl eq_refl eq_refl eq_refl) as (R & W & _ & Hno & _).
  split; [exact R|]. split; [apply Hno; reflexivity|]. rewrite W. reflexivity.
Defined.

Lemma run_uses_requested_models_witness :
  let s := final (run provider More.gpu_denoised) in
  Forall (fun m => m_model_type m = "cyto3"%string /\ m_gpu m = true /\
                   (m_class m = Cellpose <-> str_in (m_model_type m) SIZED_MODELS = true))
         (models_called (events (run provider s))) /\
  Forall (fun c => dn_model_type (called_denoiser c) = "denoise_cyto3"%string /\
                   dn_gpu (called_denoiser c) = true /\
                   dn_chan2 (called_denoiser c) = false)
         (denoise_evals (events (run provider s))).
Proof.
  exact (run_uses_requested_models provider (final (run provider More.gpu_denoised))
           (@reach_run provider More.gpu_denoised
              (@reach_init provider (settings (self More.gpu_denoised)) false
                 (workspace More.gpu_denoised)))).
Defined.

Lemma second_run_loads_nothing_witness :
  length (filter is_model_load (events (run provider More.gpu_denoised))) = 1 /\
  filter is_model_load
    (events (next_run provider More.gpu_denoised (workspace More.gpu_denoised))) = [] /\
  filter is_denoiser_load
    (events (next_run provider More.gpu_denoised (workspace More.gpu_denoised))) = [].
Proof.
  split; [reflexivity|].
  destruct (second_run_loads_nothing provider More.gpu_denoised
              (workspace More.gpu_denoised) (grey cells4 2) cells4 [0; 0]%Z
              (cache_ok_init _ _) eq_refl eq_refl eq_refl) as (A & B & _).
  split; [exact A|exact B].
Defined.

Lemma run_passes_thresholds_witness :
  Forall (fun a =>
            ea_flow_threshold a = (4 # 10)%Q /\ ea_cellprob_threshold a = 0%Q /\
            ea_min_size a = 15%Z /\ ea_invert a = false /\ ea_anisotropy a = 0%Q)
         (model_evals (events (run provider More.gpu_denoised))) /\
  Forall (fun a => ea_anisotropy a = float_div provider 1 1)
         (model_evals (events (run provider volume_with_stitch))).
Proof.
  split.
  - eapply Forall_impl;
      [|exact (run_passes_thresholds provider More.gpu_denoised (cache_ok_init _ _))].
    intros a (H1 & H2 & H3 & H4 & x & _ & H2d & _).
    split; [exact H1|]. split; [exact H2|]. split; [exact H3|]. split; [exact H4|].
    apply H2d. reflexivity.
  - eapply Forall_impl;
      [|exact (run_passes_thresholds provider volume_with_stitch (cache_ok_init _ _))].
    intros a (_ & _ & _ & _ & x & Hx & _ & H3d).
    cbn in Hx. injection Hx as <-.
    apply H3d; [reflexivity|]. intros H. discriminate H.
Defined.

Lemma run_publishes_probabilities_witness :
  exists img,
    image_set (workspace (final (run provider More.with_probabilities))) =
      ("Probabilities"%string, img) :: two_images /\
    shape (pixel_data img) = [4; 4] /\
    dimensions img = 2.
Proof.
  destruct (run_publishes_probabilities provider More.with_probabilities (grey cells4 2)
              cells4 [0; 0]%Z cells4 masks4 flows4 (cache_ok_init _ _)
              eq_refl eq_refl eq_refl eq_refl) as (_ & Hon).
  destruct (Hon eq_refl dna2 eq_refl) as (_ & I).
  eexists. split; [exact I|]. split; reflexivity.
Defined.

Lemma short_flows_after_objects_witness :
  result (run More.two_flows More.with_probabilities) = inl IndexError /\
  map fst (object_set (workspace (final (run More.two_flows More.with_probabilities)))) =
    ["CellObjects"%string] /\
  image_set (workspace (final (run More.two_flows More.with_probabilities))) = two_images.
Proof.
  destruct (short_flows_after_objects More.two_flows More.with_probabilities
              (grey cells4 2) cells4 [0; 0]%Z cells4 masks4 [cells2; cells2]
              (cache_ok_init _ _) eq_refl eq_refl eq_refl eq_refl eq_refl (le_n 3))
    as (R & O & I & _).
  split; [exact R|]. split; [rewrite O; reflexivity|exact I].
Defined.

Lemma run_stops_before_load_witness :
  (exists e, run provider More.nuclei_missing = (inl e, More.nuclei_missing, [])) /\
  (exists e, run provider More.nuclei_mismatched = (inl e, More.nuclei_mismatched, [])).
Proof.
  split.
  - apply (run_stops_before_load provider More.nuclei_missing).
    right. exists (grey cells4 2). split; [reflexivity|]. split; [reflexivity|].
    left. reflexivity.
  - apply (run_stops_before_load provider More.nuclei_mismatched).
    right. exists (grey cells4 2). split; [reflexivity|]. split; [reflexivity|].
    right. exists (grey dna2 2). split; [reflexivity|]. intros H. discriminate H.
Defined.

Lemma measurements_on_return_witness :
  filter is_measurement (events (run provider More.with_probabilities)) =
    [AddMeasurements] /\
  filter is_measurement (events (run More.two_flows More.with_probabilities)) = [].
Proof.
  split.
  - exact (proj1 (measurements_on_return provider More.with_probabilities
                    (cache_ok_init _ _))).
  - exact (proj1 (measurements_on_return More.two_flows More.with_probabilities
                    (cache_ok_init _ _))).
Defined.
